(** * The experiment workbench: drag-and-drop reordering and phase execution

    A shallow embedding of the script blocks of
    [src/lib/components/ScienceExperimentWorkbench.svelte] (with its
    icon-component variant) and of [src/lib/components/WorkflowBuilder.svelte].

    Conventions of the embedding.
    - A JavaScript [number] that holds a progress percentage or a duration
      in seconds is a binary64 floating-point number ([float], the
      primitive type): [+], [*], [/] round as in IEEE 754, and [>], [>=]
      are [ltb] and [leb]. Exact rationals ([Q]) are used only to say what
      a float is worth ([Q_of_float]).
    - [Array.prototype.findIndex] returns [option nat]: [None] is the
      sentinel [-1].
    - [Date.now()] and [new Date().toLocaleTimeString()] are read from a
      [Clock] that the caller of a handler supplies; [uuidv7()] is the
      identifier the caller supplies.
    - A log line is kept as a constructor with its arguments instead of the
      formatted template string; [actualDuration] keeps the elapsed
      milliseconds that the source prints with [toFixed(2)].
    - [window.setInterval] hands out positive handles; the table of live
      intervals is part of the state, each interval with its delay, and an
      interval that was cleared never fires. The time that runs of an
      interval take is their number times its delay.
    - The store runs its subscribers on every new value; a promise that a
      subscriber resolves continues its [async] function in a microtask,
      after the handler that changed the store. *)

From Stdlib Require Import Floats QArith Qround Lqa.
From Stdlib Require Uint63.
From stdpp Require Import gmap strings list.

Local Open Scope string_scope.
Local Open Scope list_scope.

(** ** Type definitions *)

Inductive Icon :=
| SamplePrepIcon
| DataAcquisitionIcon
| AnalysisAlgorithmIcon
| VisualizeResultsIcon
| ReportGenerationIcon.

Record PaletteBlock := {
  block_type : string;
  block_label : string;
  block_icon : Icon;
  block_color : string;
  defaultText : string;
  block_estimatedDuration : float
}.

Inductive PhaseStatus := pending | running | paused | completed | failed.

#[global] Instance PhaseStatus_eq_dec : EqDecision PhaseStatus.
Proof. solve_decision. Defined.

Inductive LogEntry :=
| LogStarted (at_time : string)
| LogCompleted (elapsed_ms : Z) (at_time : string)
| LogReset (at_time : string).

Record ExperimentPhase := {
  id : string;
  type : string;
  label : string;
  icon : Icon;
  color : string;
  text : string;
  status : PhaseStatus;
  progress : float;
  estimatedDuration : float;
  actualDuration : option Z;
  logs : list LogEntry;
  canBeRun : bool
}.

Inductive DraggingItem :=
| paletteItem (data : PaletteBlock)
| workflowItem (item_id : string) (data : ExperimentPhase).

Record OverallProgress := {
  averageProgress : float;
  completedCount : nat;
  totalCount : nat;
  isComplete : bool
}.

Record Clock := { now : Z; localeTime : string }.

(** An interval of [window.setInterval]: what its callback has captured
    ([p.id], [progressIncrement] and [startTime]) and the delay between
    two runs, in milliseconds. *)
Record Interval := {
  tick_id : string;
  progressIncrement : float;
  startTime : Z;
  delay : Z
}.

(** The simulation's intervals: the component's [phaseIntervals] record
    (phase id to interval handle) and, on the browser's side, the table of
    live intervals and the next handle [window.setInterval] returns. *)
Record Timers := {
  phaseIntervals : gmap string positive;
  liveIntervals : gmap positive Interval;
  nextHandle : positive
}.

(** The store's value and the component's variables. *)
Record State := {
  experimentPhases : list ExperimentPhase;
  draggingItem : option DraggingItem;
  dragOverCanvas : bool;
  dragOverPhaseId : option string;
  timers : Timers
}.

Definition initial : State :=
  {| experimentPhases := [];
     draggingItem := None;
     dragOverCanvas := false;
     dragOverPhaseId := None;
     timers := {| phaseIntervals := ∅; liveIntervals := ∅; nextHandle := 1%positive |} |}.

(** ** The palette *)

Definition paletteBlocks : list PaletteBlock :=
  [ {| block_type := "SAMPLE_PREP"; block_label := "Sample Preparation";
       block_icon := SamplePrepIcon; block_color := "bg-sky-500";
       defaultText := "Prepare and calibrate samples...";
       block_estimatedDuration := 10%float |};
    {| block_type := "DATA_ACQUISITION"; block_label := "Data Acquisition";
       block_icon := DataAcquisitionIcon; block_color := "bg-indigo-500";
       defaultText := "Collect data from sensors/instruments...";
       block_estimatedDuration := 20%float |};
    {| block_type := "ANALYSIS_ALGORITHM"; block_label := "Analysis Algorithm";
       block_icon := AnalysisAlgorithmIcon; block_color := "bg-purple-600";
       defaultText := "Run processing and analysis scripts...";
       block_estimatedDuration := 15%float |};
    {| block_type := "VISUALIZE_RESULTS"; block_label := "Visualize Results";
       block_icon := VisualizeResultsIcon; block_color := "bg-green-500";
       defaultText := "Generate charts and visual outputs...";
       block_estimatedDuration := 8%float |};
    {| block_type := "REPORT_GENERATION"; block_label := "Generate Report";
       block_icon := ReportGenerationIcon; block_color := "bg-amber-500";
       defaultText := "Compile findings into a final report...";
       block_estimatedDuration := 12%float |} ].

(** ** Array helpers *)

Section Arrays.
Context {A : Type}.

(** [arr.findIndex(pred)] *)
Fixpoint findIndex (pred : A → bool) (arr : list A) : option nat :=
  match arr with
  | [] => None
  | x :: rest => if pred x then Some 0 else S <$> findIndex pred rest
  end.

(** [arr.splice(i, 1)]: the removed elements and the array left. *)
Definition splice_remove (i : nat) (arr : list A) : list A * list A :=
  (take 1 (drop i arr), take i arr ++ drop (S i) arr).

(** [arr.splice(i, 0, x)]; an index past the end is clamped to the
    length, which [take] and [drop] do as well. *)
Definition splice_insert (i : nat) (x : A) (arr : list A) : list A :=
  take i arr ++ x :: drop i arr.
End Arrays.

(** [a || b] on strings and on numbers: the empty string, [0], [-0] and
    [NaN] are falsy. *)
Definition or_string (a b : string) : string :=
  if decide (a = "") then b else a.

Definition or_number (a b : float) : float :=
  if is_zero a || is_nan a then b else a.

(** [Math.min(a, b)]: [NaN] if either is, and [-0] below [0]. *)
Definition Math_min (a b : float) : float :=
  if is_nan a || is_nan b then nan
  else if (a <? b)%float then a
  else if (b <? a)%float then b
  else if get_sign a then a else b.

(** The rational number a finite float stands for. *)
Definition Q_of_float (x : float) : Q :=
  match Prim2SF x with
  | S754_finite s m e =>
      let v := (inject_Z (Z.pos m) * Qpower 2 e)%Q in
      if s then (- v)%Q else v
  | _ => 0%Q
  end.

(** The float of an integer below 2^63 in absolute value. *)
Definition float_of_Z (z : Z) : float :=
  if (z <? 0)%Z then (- of_uint63 (Uint63.of_Z (- z)))%float
  else of_uint63 (Uint63.of_Z z).

(** The integer nearest to a finite float, a half rounds up. *)
Definition nearest_integer (x : float) : Z := Qfloor (Q_of_float x + (1 # 2))%Q.

(** [Math.round(x)]: the nearest integer, a half rounds up; [NaN], the
    infinities and the floats from 2^52 on, which are integers, are
    returned as they are, and a result of zero keeps the sign of [x]. *)
Definition Math_round (x : float) : float :=
  if is_finite x && (abs x <? 4503599627370496)%float then
    if (nearest_integer x =? 0)%Z then (if get_sign x then neg_zero else zero)
    else float_of_Z (nearest_integer x)
  else x.

(** [arr.length] as a number. *)
Definition length_number {A : Type} (arr : list A) : float :=
  float_of_Z (Z.of_nat (length arr)).

Definition has_id (x : string) (p : ExperimentPhase) : bool :=
  bool_decide (id p = x).

(** ** Drag handlers *)

Definition handlePaletteDragStart (blockType : PaletteBlock) (s : State) : State :=
  {| experimentPhases := experimentPhases s;
     draggingItem := Some (paletteItem blockType);
     dragOverCanvas := false;
     dragOverPhaseId := None;
     timers := timers s |}.

Definition set_dragOverCanvas (b : bool) (s : State) : State :=
  {| experimentPhases := experimentPhases s;
     draggingItem := draggingItem s;
     dragOverCanvas := b;
     dragOverPhaseId := dragOverPhaseId s;
     timers := timers s |}.

Definition set_dragOverPhaseId (o : option string) (s : State) : State :=
  {| experimentPhases := experimentPhases s;
     draggingItem := draggingItem s;
     dragOverCanvas := dragOverCanvas s;
     dragOverPhaseId := o;
     timers := timers s |}.

Definition set_experimentPhases (ps : list ExperimentPhase) (s : State) : State :=
  {| experimentPhases := ps;
     draggingItem := draggingItem s;
     dragOverCanvas := dragOverCanvas s;
     dragOverPhaseId := dragOverPhaseId s;
     timers := timers s |}.

Definition handleCanvasDragEnter (s : State) : State := set_dragOverCanvas true s.

Definition handleCanvasDragOver (s : State) : State := set_dragOverCanvas true s.

(** [targetIsCanvas] is [event.currentTarget === event.target]. *)
Definition handleCanvasDragLeave (targetIsCanvas : bool) (s : State) : State :=
  if targetIsCanvas then set_dragOverCanvas false s else s.

Definition newPhase (uuid : string) (block : PaletteBlock) : ExperimentPhase :=
  {| id := uuid;
     type := block_type block;
     label := block_label block;
     icon := block_icon block;
     color := block_color block;
     text := or_string (defaultText block)
               (String.append "New " (String.append (block_label block) " Phase"));
     status := pending;
     progress := 0%float;
     estimatedDuration := or_number (block_estimatedDuration block) 10%float;
     actualDuration := None;
     logs := [];
     canBeRun := true |}.

Definition handleCanvasDrop (uuid : string) (s : State) : State :=
  set_dragOverCanvas false
    match draggingItem s with
    | Some (paletteItem block) =>
        set_experimentPhases (experimentPhases s ++ [newPhase uuid block]) s
    | _ => s
    end.

Definition handlePhaseDragStart (phase : ExperimentPhase) (s : State) : State :=
  {| experimentPhases := experimentPhases s;
     draggingItem := Some (workflowItem (id phase) phase);
     dragOverCanvas := dragOverCanvas s;
     dragOverPhaseId := None;
     timers := timers s |}.

Definition handlePhaseDragEnter (targetPhaseId : string) (s : State) : State :=
  match draggingItem s with
  | Some (workflowItem item_id _) =>
      if decide (item_id = targetPhaseId) then s
      else set_dragOverPhaseId (Some targetPhaseId) s
  | _ => s
  end.

Definition handlePhaseDragLeave (targetPhaseId : string) (s : State) : State :=
  if decide (dragOverPhaseId s = Some targetPhaseId)
  then set_dragOverPhaseId None s else s.

(** The callback that [handlePhaseDrop] gives to [experimentPhases.update]. *)
Definition reorder (sourcePhaseId targetPhaseId : string)
    (currentPhases : list ExperimentPhase) : list ExperimentPhase :=
  match findIndex (has_id sourcePhaseId) currentPhases,
        findIndex (has_id targetPhaseId) currentPhases with
  | Some sourceIndex, Some targetIndex =>
      let '(removed, spliced) := splice_remove sourceIndex currentPhases in
      match removed with
      | draggedPhase :: _ =>
          match findIndex (has_id targetPhaseId) spliced with
          | Some newTargetIndex => splice_insert newTargetIndex draggedPhase spliced
          | None => spliced ++ [draggedPhase]
          end
      | [] => spliced
      end
  | _, _ => currentPhases
  end.

Definition handlePhaseDrop (targetPhaseId : string) (s : State) : State :=
  match draggingItem s with
  | Some (workflowItem sourcePhaseId _) =>
      if decide (sourcePhaseId = "") then s
      else if decide (sourcePhaseId = targetPhaseId) then set_dragOverPhaseId None s
      else set_dragOverPhaseId None
             (set_experimentPhases
                (reorder sourcePhaseId targetPhaseId (experimentPhases s)) s)
  | _ => s
  end.

(** The fallback branch of [handlePhaseDrop] differs between the two
    copies of the workbench ([push] in one, a three-way choice on the
    stale indices in the other); [reorder_icon_variant] is the second copy. *)
Definition reorder_icon_variant (sourcePhaseId targetPhaseId : string)
    (currentPhases : list ExperimentPhase) : list ExperimentPhase :=
  match findIndex (has_id sourcePhaseId) currentPhases,
        findIndex (has_id targetPhaseId) currentPhases with
  | Some sourceIndex, Some targetIndex =>
      let '(removed, spliced) := splice_remove sourceIndex currentPhases in
      match removed with
      | draggedPhase :: _ =>
          match findIndex (has_id targetPhaseId) spliced with
          | Some newTargetActualIndex =>
              splice_insert newTargetActualIndex draggedPhase spliced
          | None =>
              if bool_decide (sourceIndex < targetIndex)
                 && bool_decide (targetIndex = length spliced)
              then spliced ++ [draggedPhase]
              else if bool_decide (targetIndex < sourceIndex)
              then splice_insert targetIndex draggedPhase spliced
              else spliced ++ [draggedPhase]
          end
      | [] => spliced
      end
  | _, _ => currentPhases
  end.

Definition handleDragEnd (s : State) : State :=
  {| experimentPhases := experimentPhases s;
     draggingItem := None;
     dragOverCanvas := false;
     dragOverPhaseId := None;
     timers := timers s |}.

(** ** Removing a phase and editing its text *)

(** [clearInterval(h)]; [clearInterval(undefined)] does nothing. *)
Definition clearInterval (h : option positive) (t : Timers) : Timers :=
  match h with
  | Some h =>
      {| phaseIntervals := phaseIntervals t;
         liveIntervals := delete h (liveIntervals t);
         nextHandle := nextHandle t |}
  | None => t
  end.

(** [delete phaseIntervals[x]] *)
Definition delete_phaseInterval (x : string) (t : Timers) : Timers :=
  {| phaseIntervals := delete x (phaseIntervals t);
     liveIntervals := liveIntervals t;
     nextHandle := nextHandle t |}.

(** [phaseIntervals[x] = window.setInterval(callback, delay)]: the
    callback and the delay are the two parts of [interval]. *)
Definition setInterval (x : string) (interval : Interval) (t : Timers) : Timers :=
  {| phaseIntervals := <[x := nextHandle t]> (phaseIntervals t);
     liveIntervals := <[nextHandle t := interval]> (liveIntervals t);
     nextHandle := Pos.succ (nextHandle t) |}.

Definition set_timers (t : Timers) (s : State) : State :=
  {| experimentPhases := experimentPhases s;
     draggingItem := draggingItem s;
     dragOverCanvas := dragOverCanvas s;
     dragOverPhaseId := dragOverPhaseId s;
     timers := t |}.

Definition removePhase (phaseId : string) (s : State) : State :=
  let s1 := set_experimentPhases
              (filter (λ p, id p ≠ phaseId) (experimentPhases s)) s in
  match phaseIntervals (timers s1) !! phaseId with
  | Some h =>
      set_timers (delete_phaseInterval phaseId (clearInterval (Some h) (timers s1))) s1
  | None => s1
  end.

Definition with_text (newText : string) (p : ExperimentPhase) : ExperimentPhase :=
  {| id := id p; type := type p; label := label p; icon := icon p;
     color := color p; text := newText; status := status p;
     progress := progress p; estimatedDuration := estimatedDuration p;
     actualDuration := actualDuration p; logs := logs p;
     canBeRun := canBeRun p |}.

Definition updatePhaseText (phaseId newText : string) (s : State) : State :=
  set_experimentPhases
    (map (λ p, if has_id phaseId p then with_text newText p else p)
       (experimentPhases s)) s.

(** ** Simulation of a running phase *)

(** [arr.map(f)] for a callback that also changes the intervals: the
    elements are visited from left to right. *)
Fixpoint map_with {S A B : Type} (f : A → S → B * S) (arr : list A) (st : S)
    : list B * S :=
  match arr with
  | [] => ([], st)
  | x :: rest =>
      let '(y, st1) := f x st in
      let '(ys, st2) := map_with f rest st1 in
      (y :: ys, st2)
  end.

Definition paused_phase (p : ExperimentPhase) : ExperimentPhase :=
  {| id := id p; type := type p; label := label p; icon := icon p;
     color := color p; text := text p; status := paused;
     progress := progress p; estimatedDuration := estimatedDuration p;
     actualDuration := actualDuration p; logs := logs p;
     canBeRun := canBeRun p |}.

Definition started_phase (clk : Clock) (p : ExperimentPhase) : ExperimentPhase :=
  {| id := id p; type := type p; label := label p; icon := icon p;
     color := color p; text := text p; status := running;
     progress := if decide (status p = paused) then progress p else 0%float;
     estimatedDuration := estimatedDuration p;
     actualDuration := actualDuration p;
     logs := logs p ++ [LogStarted (localeTime clk)];
     canBeRun := canBeRun p |}.

Definition reset_phase (clk : Clock) (p : ExperimentPhase) : ExperimentPhase :=
  {| id := id p; type := type p; label := label p; icon := icon p;
     color := color p; text := text p; status := pending;
     progress := 0%float; estimatedDuration := estimatedDuration p;
     actualDuration := None;
     logs := [LogReset (localeTime clk)];
     canBeRun := canBeRun p |}.

Definition completed_phase (started : Z) (clk : Clock) (p : ExperimentPhase)
    : ExperimentPhase :=
  {| id := id p; type := type p; label := label p; icon := icon p;
     color := color p; text := text p; status := completed;
     progress := 100%float; estimatedDuration := estimatedDuration p;
     actualDuration := Some (now clk - started)%Z;
     logs := logs p ++ [LogCompleted (now clk - started)%Z (localeTime clk)];
     canBeRun := canBeRun p |}.

Definition with_progress (newProgress : float) (p : ExperimentPhase)
    : ExperimentPhase :=
  {| id := id p; type := type p; label := label p; icon := icon p;
     color := color p; text := text p; status := status p;
     progress := newProgress; estimatedDuration := estimatedDuration p;
     actualDuration := actualDuration p; logs := logs p;
     canBeRun := canBeRun p |}.

(** [steps > 0 ? 100 / steps : 100] with
    [steps = p.estimatedDuration * (1000 / 200)]. *)
Definition increment_of (estimatedDuration : float) : float :=
  let steps := (estimatedDuration * (1000 / 200))%float in
  if (0 <? steps)%float then (100 / steps)%float else 100%float.

(** [Math.min(100, phaseToUpdate.progress + progressIncrement)] and the
    test [newProgress >= 100]. *)
Definition newProgress (progress increment : float) : float :=
  Math_min 100 (progress + increment)%float.

Definition reaches_100 (progress increment : float) : bool :=
  (100 <=? newProgress progress increment)%float.

(** The body of the [map] callback of [togglePhaseExecution]. *)
Definition toggle_phase (phaseId : string) (clk : Clock)
    (p : ExperimentPhase) (t : Timers) : ExperimentPhase * Timers :=
  if has_id phaseId p then
    match status p with
    | running =>
        (paused_phase p,
         delete_phaseInterval (id p) (clearInterval (phaseIntervals t !! id p) t))
    | pending | paused | failed =>
        let t1 := clearInterval (phaseIntervals t !! id p) t in
        let interval :=
          {| tick_id := id p;
             progressIncrement := increment_of (estimatedDuration p);
             startTime := now clk;
             delay := 200 |} in
        (started_phase clk p, setInterval (id p) interval t1)
    | completed => (reset_phase clk p, t)
    end
  else (p, t).

Definition togglePhaseExecution (phaseId : string) (clk : Clock) (s : State) : State :=
  let '(phases, t) :=
    map_with (toggle_phase phaseId clk) (experimentPhases s) (timers s) in
  set_timers t (set_experimentPhases phases s).

(** The body of the [map] callback inside the interval's callback. *)
Definition tick_phase (cb : Interval) (clk : Clock)
    (phaseToUpdate : ExperimentPhase) (t : Timers) : ExperimentPhase * Timers :=
  if has_id (tick_id cb) phaseToUpdate
     && bool_decide (status phaseToUpdate = running) then
    if reaches_100 (progress phaseToUpdate) (progressIncrement cb) then
      (completed_phase (startTime cb) clk phaseToUpdate,
       delete_phaseInterval (tick_id cb)
         (clearInterval (phaseIntervals t !! tick_id cb) t))
    else
      (with_progress (newProgress (progress phaseToUpdate) (progressIncrement cb))
         phaseToUpdate, t)
  else (phaseToUpdate, t).

(** One run of the callback registered by [togglePhaseExecution]. *)
Definition tick (cb : Interval) (clk : Clock) (s : State) : State :=
  let '(phases, t) :=
    map_with (tick_phase cb clk) (experimentPhases s) (timers s) in
  set_timers t (set_experimentPhases phases s).

(** The browser runs the callback of interval [h], [delay] milliseconds
    after its last run, as long as [h] is live. *)
Definition interval_fires (h : positive) (clk : Clock) (s : State) : State :=
  match liveIntervals (timers s) !! h with
  | Some cb => tick cb clk s
  | None => s
  end.

(** [onDestroy] *)
Definition onDestroy (s : State) : State :=
  set_timers
    {| phaseIntervals := ∅;
       liveIntervals :=
         map_fold (λ _ h live, delete h live) (liveIntervals (timers s))
           (phaseIntervals (timers s));
       nextHandle := nextHandle (timers s) |} s.

(** ** Overall progress *)

Definition overallExperimentProgress (phases : list ExperimentPhase)
    : OverallProgress :=
  match phases with
  | [] =>
      {| averageProgress := 0; completedCount := 0; totalCount := 0;
         isComplete := false |}
  | _ =>
      let totalProgress :=
        fold_left (λ sum phase, (sum + or_number (progress phase) 0)%float)
          phases 0%float in
      let avgProgress := (totalProgress / length_number phases)%float in
      let completedPhases :=
        length (filter (λ p, status p = completed) phases) in
      let totalPhases := length phases in
      {| averageProgress := Math_round avgProgress;
         completedCount := completedPhases;
         totalCount := totalPhases;
         isComplete := bool_decide (completedPhases = totalPhases)
                       && bool_decide (0 < totalPhases) |}
  end.

(** ** Running all phases in sequence *)

Definition can_start (st : PhaseStatus) : bool :=
  bool_decide (st = pending) || bool_decide (st = failed).

Definition is_finished (st : PhaseStatus) : bool :=
  bool_decide (st = completed) || bool_decide (st = failed).

(** [runAllPhases] is an async function: it runs until its [await] and is
    resumed, in the microtask that follows the store update that resolved
    the promise, with the loop over the rest of its snapshot. *)
Inductive RunAll :=
| Awaiting (phaseId : string) (rest : list ExperimentPhase)
| Returned.

(** The [for ... of] loop over what is left of [phasesToRun]. *)
Fixpoint runAll_loop (clk : Clock) (phasesToRun : list ExperimentPhase)
    (s : State) : State * RunAll :=
  match phasesToRun with
  | [] => (s, Returned)
  | phase :: rest =>
      match find (has_id (id phase)) (experimentPhases s) with
      | Some currentState =>
          if can_start (status currentState)
          then (togglePhaseExecution (id phase) clk s, Awaiting (id phase) rest)
          else runAll_loop clk rest s
      | None => runAll_loop clk rest s
      end
  end.

Definition phasesToRun (s : State) : list ExperimentPhase :=
  filter (λ p, status p = pending ∨ status p = failed) (experimentPhases s).

Definition runAllPhases (clk : Clock) (s : State) : State * RunAll :=
  runAll_loop clk (phasesToRun s) s.

(** The test of the subscriber that resolves the awaited promise. *)
Definition resolves (phaseId : string) (updatedPhases : list ExperimentPhase) : bool :=
  match find (has_id phaseId) updatedPhases with
  | Some currentPhaseState => is_finished (status currentPhaseState)
  | None => false
  end.

(** The subscriber runs on every new value of the store; when its test
    holds the function goes on with its loop. *)
Definition runAll_resume (clk : Clock) (r : RunAll) (s : State) : State * RunAll :=
  match r with
  | Awaiting phaseId rest =>
      if resolves phaseId (experimentPhases s) then runAll_loop clk rest s
      else (s, r)
  | Returned => (s, Returned)
  end.

(** ** Events *)

(** The gestures the markup forwards to the handlers, and the browser
    running the callback of an interval. *)
Inductive Event :=
| PaletteDragStart (block : PaletteBlock)
| CanvasDragEnter
| CanvasDragOver
| CanvasDragLeave (targetIsCanvas : bool)
| CanvasDrop (uuid : string)
| PhaseDragStart (phase : ExperimentPhase)
| PhaseDragEnter (targetPhaseId : string)
| PhaseDragLeave (targetPhaseId : string)
| PhaseDrop (targetPhaseId : string)
| DragEnd
| ClickRemove (phaseId : string)
| ChangeText (phaseId newText : string)
| ClickToggle (phaseId : string) (clk : Clock)
| IntervalFires (h : positive) (clk : Clock).

Definition handle (s : State) (ev : Event) : State :=
  match ev with
  | PaletteDragStart block => handlePaletteDragStart block s
  | CanvasDragEnter => handleCanvasDragEnter s
  | CanvasDragOver => handleCanvasDragOver s
  | CanvasDragLeave b => handleCanvasDragLeave b s
  | CanvasDrop uuid => handleCanvasDrop uuid s
  | PhaseDragStart phase => handlePhaseDragStart phase s
  | PhaseDragEnter x => handlePhaseDragEnter x s
  | PhaseDragLeave x => handlePhaseDragLeave x s
  | PhaseDrop x => handlePhaseDrop x s
  | DragEnd => handleDragEnd s
  | ClickRemove x => removePhase x s
  | ChangeText x newText => updatePhaseText x newText s
  | ClickToggle x clk => togglePhaseExecution x clk s
  | IntervalFires h clk => interval_fires h clk s
  end.

(** The state after a sequence of events, from the empty canvas. *)
Definition run (evs : list Event) : State := fold_left handle evs initial.

(** One event while one call of [runAllPhases] is suspended: the handler
    runs, then the subscriber of the call; [clk] is the clock the resumed
    loop reads. Any number of calls, and the click that makes one, are
    handled by [act] below. *)
Definition handle_under_runAll (sr : State * RunAll) (ev : Event * Clock)
    : State * RunAll :=
  runAll_resume ev.2 sr.2 (handle sr.1 ev.1).


(** ** The simpler builder: [WorkflowBuilder.svelte] *)

Module WorkflowBuilder.

Record WorkflowBlock := {
  block_type : string;
  block_label : string;
  block_icon : string;
  block_color : string;
  defaultText : string
}.

Record WorkflowStep := {
  id : string;
  type : string;
  label : string;
  icon : string;
  color : string;
  text : string
}.

Inductive DraggingItem :=
| paletteItem (data : WorkflowBlock)
| workflowItem (item_id : string) (data : WorkflowStep).

Record State := {
  workflowSteps : list WorkflowStep;
  draggingItem : option DraggingItem;
  dragOverCanvas : bool;
  dragOverWorkflowItemId : option string
}.

Definition has_id (x : string) (step : WorkflowStep) : bool :=
  bool_decide (id step = x).

Definition newStep (uuid : string) (block : WorkflowBlock) : WorkflowStep :=
  {| id := uuid;
     type := block_type block;
     label := block_label block;
     icon := block_icon block;
     color := block_color block;
     text := or_string (defaultText block)
               (String.append "New " (String.append (block_label block) " Step")) |}.

Definition handleCanvasDrop (uuid : string) (s : State) : State :=
  {| workflowSteps :=
       match draggingItem s with
       | Some (paletteItem block) => workflowSteps s ++ [newStep uuid block]
       | _ => workflowSteps s
       end;
     draggingItem := draggingItem s;
     dragOverCanvas := false;
     dragOverWorkflowItemId := dragOverWorkflowItemId s |}.

(** The callback that [handleWorkflowItemDrop] gives to
    [workflowSteps.update]: the insertion uses [targetIndex] as it was
    found before the removal. *)
Definition reorder (sourceItemId targetItemId : string)
    (currentSteps : list WorkflowStep) : list WorkflowStep :=
  match findIndex (has_id sourceItemId) currentSteps,
        findIndex (has_id targetItemId) currentSteps with
  | Some sourceIndex, Some targetIndex =>
      let '(removed, spliced) := splice_remove sourceIndex currentSteps in
      match removed with
      | draggedStep :: _ => splice_insert targetIndex draggedStep spliced
      | [] => spliced
      end
  | _, _ => currentSteps
  end.

Definition handleWorkflowItemDrop (targetItemId : string) (s : State) : State :=
  match draggingItem s with
  | Some (workflowItem sourceItemId _) =>
      if decide (sourceItemId = "") then s
      else
        {| workflowSteps :=
             if decide (sourceItemId = targetItemId) then workflowSteps s
             else reorder sourceItemId targetItemId (workflowSteps s);
           draggingItem := draggingItem s;
           dragOverCanvas := dragOverCanvas s;
           dragOverWorkflowItemId := None |}
  | _ => s
  end.

(** The other handlers of the builder. *)
Definition handlePaletteDragStart (blockType : WorkflowBlock) (s : State) : State :=
  {| workflowSteps := workflowSteps s;
     draggingItem := Some (paletteItem blockType);
     dragOverCanvas := false;
     dragOverWorkflowItemId := None |}.

Definition set_dragOverCanvas (b : bool) (s : State) : State :=
  {| workflowSteps := workflowSteps s;
     draggingItem := draggingItem s;
     dragOverCanvas := b;
     dragOverWorkflowItemId := dragOverWorkflowItemId s |}.

Definition set_dragOverWorkflowItemId (o : option string) (s : State) : State :=
  {| workflowSteps := workflowSteps s;
     draggingItem := draggingItem s;
     dragOverCanvas := dragOverCanvas s;
     dragOverWorkflowItemId := o |}.

Definition set_workflowSteps (steps : list WorkflowStep) (s : State) : State :=
  {| workflowSteps := steps;
     draggingItem := draggingItem s;
     dragOverCanvas := dragOverCanvas s;
     dragOverWorkflowItemId := dragOverWorkflowItemId s |}.

Definition handleCanvasDragEnter (s : State) : State := set_dragOverCanvas true s.

Definition handleCanvasDragOver (s : State) : State := set_dragOverCanvas true s.

(** [targetIsCanvas] is [event.currentTarget === event.target]. *)
Definition handleCanvasDragLeave (targetIsCanvas : bool) (s : State) : State :=
  if targetIsCanvas then set_dragOverCanvas false s else s.

Definition handleWorkflowItemDragStart (item : WorkflowStep) (s : State) : State :=
  {| workflowSteps := workflowSteps s;
     draggingItem := Some (workflowItem (id item) item);
     dragOverCanvas := dragOverCanvas s;
     dragOverWorkflowItemId := None |}.

Definition handleWorkflowItemDragEnter (targetItemId : string) (s : State) : State :=
  match draggingItem s with
  | Some (workflowItem item_id _) =>
      if decide (item_id = targetItemId) then s
      else set_dragOverWorkflowItemId (Some targetItemId) s
  | _ => s
  end.

Definition handleWorkflowItemDragLeave (targetItemId : string) (s : State) : State :=
  if decide (dragOverWorkflowItemId s = Some targetItemId)
  then set_dragOverWorkflowItemId None s else s.

Definition handleDragEnd (s : State) : State :=
  {| workflowSteps := workflowSteps s;
     draggingItem := None;
     dragOverCanvas := false;
     dragOverWorkflowItemId := None |}.

Definition removeStep (stepId : string) (s : State) : State :=
  set_workflowSteps (filter (λ step, id step ≠ stepId) (workflowSteps s)) s.

Definition with_text (newText : string) (step : WorkflowStep) : WorkflowStep :=
  {| id := id step; type := type step; label := label step; icon := icon step;
     color := color step; text := newText |}.

Definition updateStepText (stepId newText : string) (s : State) : State :=
  set_workflowSteps
    (map (λ step, if has_id stepId step then with_text newText step else step)
       (workflowSteps s)) s.

Definition initial : State :=
  {| workflowSteps := []; draggingItem := None; dragOverCanvas := false;
     dragOverWorkflowItemId := None |}.

(** The gestures the markup of the builder forwards to its handlers. *)
Inductive Event :=
| PaletteDragStart (block : WorkflowBlock)
| CanvasDragEnter
| CanvasDragOver
| CanvasDragLeave (targetIsCanvas : bool)
| CanvasDrop (uuid : string)
| ItemDragStart (item : WorkflowStep)
| ItemDragEnter (targetItemId : string)
| ItemDragLeave (targetItemId : string)
| ItemDrop (targetItemId : string)
| DragEnd
| ClickRemove (stepId : string)
| ChangeText (stepId newText : string).

Definition handle (s : State) (ev : Event) : State :=
  match ev with
  | PaletteDragStart block => handlePaletteDragStart block s
  | CanvasDragEnter => handleCanvasDragEnter s
  | CanvasDragOver => handleCanvasDragOver s
  | CanvasDragLeave b => handleCanvasDragLeave b s
  | CanvasDrop uuid => handleCanvasDrop uuid s
  | ItemDragStart item => handleWorkflowItemDragStart item s
  | ItemDragEnter x => handleWorkflowItemDragEnter x s
  | ItemDragLeave x => handleWorkflowItemDragLeave x s
  | ItemDrop x => handleWorkflowItemDrop x s
  | DragEnd => handleDragEnd s
  | ClickRemove x => removeStep x s
  | ChangeText x newText => updateStepText x newText s
  end.

(** [uuidv7()] returns an id that no step of the canvas has. *)
Definition valid_event (s : State) (ev : Event) : Prop :=
  match ev with
  | CanvasDrop uuid => uuid ∉ map id (workflowSteps s)
  | _ => True
  end.

Fixpoint valid_trace (s : State) (evs : list Event) : Prop :=
  match evs with
  | [] => True
  | ev :: rest => valid_event s ev ∧ valid_trace (handle s ev) rest
  end.

Definition run (evs : list Event) : State := fold_left handle evs initial.

End WorkflowBuilder.

(** ** The summary in the words of the specification *)

Definition sum_progress (phases : list ExperimentPhase) : Q :=
  foldr (λ p acc, (Q_of_float (progress p) + acc)%Q) 0%Q phases.

(** The arithmetic mean of the progress of all phases, 0 if there is none. *)
Definition arithmetic_mean (phases : list ExperimentPhase) : Q :=
  match phases with
  | [] => 0%Q
  | _ => (sum_progress phases / inject_Z (Z.of_nat (length phases)))%Q
  end.

(** The mean as the doubles give it: the sum from left to right, from 0,
    divided by the number of phases. *)
Definition mean_in_doubles (phases : list ExperimentPhase) : float :=
  (fold_left (λ sum phase, (sum + progress phase)%float) phases 0%float
   / length_number phases)%float.

(** ** The arithmetic of a run of the interval *)

(** The progress that one run of the callback stores. *)
Definition stored_progress (increment progress : float) : float :=
  if reaches_100 progress increment then 100%float
  else newProgress progress increment.

(** The progress stored after [k] runs since a start from 0. *)
Fixpoint progress_after (increment : float) (k : nat) : float :=
  match k with
  | 0 => 0%float
  | S j => stored_progress increment (progress_after increment j)
  end.

(** The progress after [n] runs from [progress], none of which reaches
    100. *)
Fixpoint progress_from (increment progress : float) (n : nat) : float :=
  match n with
  | 0 => progress
  | S k => progress_from increment (newProgress progress increment) k
  end.

(** The number of the run that reaches 100, counted from [progress], if
    it is among the next [fuel] runs. *)
Fixpoint runs_needed (increment progress : float) (fuel : nat) : option nat :=
  match fuel with
  | 0 => None
  | S f =>
      if reaches_100 progress increment then Some 1
      else S <$> runs_needed increment (newProgress progress increment) f
  end.

(** [n] runs of 200ms, in seconds, and the remaining time by the rule of
    three: (100 - P) / 100 * estimatedDuration. *)
Definition seconds_of_runs (n : nat) : Q :=
  (inject_Z (Z.of_nat n) * (200 / 1000))%Q.

Definition remaining_by_proportion (progress estimatedDuration : float) : Q :=
  ((100 - Q_of_float progress) / 100 * Q_of_float estimatedDuration)%Q.

(** The runs of a phase of estimated duration [est]: numbered from a start
    at 0, the last one has number [total]. Before it the progress is
    between 0 and 100 and not 100, the runs left are the difference of the
    numbers, and the time they take is the proportional rest of the
    estimate up to one run of 200ms (and a nanosecond of rounding), and
    [progress || 0] is the progress itself; at [total] the progress is 100
    and stays there. *)
Definition schedule_ok (est : float) (total : nat) : bool :=
  let d := increment_of est in
  bool_decide (0 < total)
  && PrimFloat.Leibniz.eqb d (100 / (est * 5))%float
  && (0 <? est)%float
  && PrimFloat.Leibniz.eqb (progress_after d total) 100
  && PrimFloat.Leibniz.eqb (stored_progress d 100) 100
  && forallb
       (λ j,
          let P := progress_after d j in
          negb (PrimFloat.Leibniz.eqb P 100)
          && (0 <=? P)%float && (P <=? 100)%float
          && PrimFloat.Leibniz.eqb (or_number P 0) P
          && bool_decide (runs_needed d P total = Some (total - j))
          && Qle_bool (remaining_by_proportion P est)
               (seconds_of_runs (total - j) + (1 # 1000000000))%Q
          && Qle_bool (seconds_of_runs (total - j))
               (remaining_by_proportion P est + (1 # 5) + (1 # 1000000000))%Q)
       (seq 0 total).

(** The time the runs left take is the proportional rest of the estimate,
    as rationals, at every progress of the schedule. *)
Definition schedule_exact (est : float) (total : nat) : bool :=
  let d := increment_of est in
  forallb
    (λ j,
       Qeq_bool (seconds_of_runs (total - j))
         (remaining_by_proportion (progress_after d j) est))
    (seq 0 total).

(** The number of the completing run for an estimated duration, looked
    for among the first thousand. *)
Definition total_runs (est : float) : nat :=
  default 0 (runs_needed (increment_of est) 0 1000).

(** ** Predicates on states *)

(** A phase is at 100 percent exactly when it is completed. *)
Definition full_iff_completed (p : ExperimentPhase) : Prop :=
  progress p = 100%float ↔ status p = completed.

(** Every live interval is the one registered in [phaseIntervals] under the
    id its callback has captured, and its handle is older than the next
    one: no interval runs that the component has lost track of. *)
Definition timers_tracked (t : Timers) : Prop :=
  (∀ h cb, liveIntervals t !! h = Some cb →
           phaseIntervals t !! tick_id cb = Some h)
  ∧ (∀ h, is_Some (liveIntervals t !! h) → (h < nextHandle t)%positive).

(** [n] runs in a row of the callback of interval [h], one clock reading
    per run. *)
Definition fires (h : positive) (clks : list Clock) (s : State) : State :=
  fold_left (λ st clk, interval_fires h clk st) clks s.

(** No phase carries the id [x] and no interval is registered under it. *)
Definition forgotten (x : string) (s : State) : Prop :=
  (x ∉ map id (experimentPhases s)) ∧ phaseIntervals (timers s) !! x = None.

(** The phase at index [i] has id [x], is running at progress [P], and its
    interval [h], registered under [x], adds [d] per run; ids are unique. *)
Definition running_at (s : State) (i : nat) (x : string) (h : positive)
    (d P : float) : Prop :=
  NoDup (map id (experimentPhases s))
  ∧ ∃ p cb,
      experimentPhases s !! i = Some p ∧ id p = x ∧ status p = running
      ∧ progress p = P
      ∧ phaseIntervals (timers s) !! x = Some h
      ∧ liveIntervals (timers s) !! h = Some cb
      ∧ tick_id cb = x ∧ progressIncrement cb = d.

(** The phase at index [i] has id [x] and is completed at progress 100 with
    its duration recorded; interval [h] is cleared and nothing is
    registered under [x]. *)
Definition completed_at (s : State) (i : nat) (x : string) (h : positive) : Prop :=
  ∃ p,
    experimentPhases s !! i = Some p ∧ id p = x ∧ status p = completed
    ∧ progress p = 100%float ∧ is_Some (actualDuration p)
    ∧ phaseIntervals (timers s) !! x = None
    ∧ liveIntervals (timers s) !! h = None.




(** ** States the workbench can reach *)

#[global] Instance float_eq_dec : EqDecision float.
Proof.
  intros x y. destruct (PrimFloat.Leibniz.eqb x y) eqn:E.
  - left. by apply FloatAxioms.Leibniz.eqb_spec.
  - right. intros H%FloatAxioms.Leibniz.eqb_spec. congruence.
Defined.

#[global] Instance Icon_eq_dec : EqDecision Icon.
Proof. solve_decision. Defined.

#[global] Instance PaletteBlock_eq_dec : EqDecision PaletteBlock.
Proof. solve_decision. Defined.

(** The markup starts a palette drag only on a block of [paletteBlocks],
    and [uuidv7()] returns an id that no phase of the canvas has. *)
Definition valid_event (s : State) (ev : Event) : Prop :=
  match ev with
  | PaletteDragStart block => block ∈ paletteBlocks
  | CanvasDrop uuid => uuid ∉ map id (experimentPhases s)
  | _ => True
  end.

Fixpoint valid_trace (s : State) (evs : list Event) : Prop :=
  match evs with
  | [] => True
  | ev :: rest => valid_event s ev ∧ valid_trace (handle s ev) rest
  end.

#[global] Instance valid_event_dec (s : State) (ev : Event) :
  Decision (valid_event s ev).
Proof. destruct ev; simpl; apply _. Defined.

#[global] Instance valid_trace_dec (evs : list Event) :
  ∀ s, Decision (valid_trace s evs).
Proof. induction evs as [|ev rest IH]; intros s; simpl; apply _. Defined.

Definition reachable (s : State) : Prop :=
  ∃ evs, valid_trace initial evs ∧ s = run evs.

(** The phase comes from a block of the palette and its progress is the
    one stored after some number of runs of its increment. *)
Definition on_grid (p : ExperimentPhase) : Prop :=
  ∃ (block : PaletteBlock) (k : nat),
    block ∈ paletteBlocks
    ∧ estimatedDuration p = block_estimatedDuration block
    ∧ progress p = progress_after (increment_of (estimatedDuration p)) k.

Definition phases_ok (phases : list ExperimentPhase) : Prop :=
  NoDup (map id phases) ∧ Forall on_grid phases
  ∧ Forall full_iff_completed phases.

(** The intervals are tracked, registered under ids of the canvas only,
    and each adds the increment of the phase it was started for. *)
Definition timers_ok (phases : list ExperimentPhase) (t : Timers) : Prop :=
  timers_tracked t
  ∧ (∀ x h, phaseIntervals t !! x = Some h → x ∈ map id phases)
  ∧ (∀ h cb p, liveIntervals t !! h = Some cb → p ∈ phases →
               id p = tick_id cb →
               progressIncrement cb = increment_of (estimatedDuration p)).

Definition dragging_ok (item : option DraggingItem) : Prop :=
  ∀ block, item = Some (paletteItem block) → block ∈ paletteBlocks.

Definition well_formed (s : State) : Prop :=
  phases_ok (experimentPhases s)
  ∧ timers_ok (experimentPhases s) (timers s)
  ∧ dragging_ok (draggingItem s).

(** ** Sample data *)

Definition sample_clock : Clock := {| now := 0; localeTime := "10:00:00" |}.

Definition sample_block : PaletteBlock :=
  {| block_type := "SAMPLE_PREP"; block_label := "Sample Preparation";
     block_icon := SamplePrepIcon; block_color := "bg-sky-500";
     defaultText := "Prepare and calibrate samples...";
     block_estimatedDuration := 10%float |}.

(** Three phases dropped from the palette, with ids a, b and c. *)
Definition sample_abc_events : list Event :=
  [PaletteDragStart sample_block; CanvasDrop "a"; CanvasDrop "b";
   CanvasDrop "c"; DragEnd].

Definition sample_abc : State := run sample_abc_events.

Definition sample_phase (x : string) : ExperimentPhase := newPhase x sample_block.

Definition sample_step (x : string) : WorkflowBuilder.WorkflowStep :=
  {| WorkflowBuilder.id := x; WorkflowBuilder.type := "LOAD_DATA";
     WorkflowBuilder.label := "Load Data"; WorkflowBuilder.icon := "chart";
     WorkflowBuilder.color := "bg-blue-500";
     WorkflowBuilder.text := "Load Data from Source" |}.

(** The builder with steps a, b, c while a is being dragged. *)
Definition sample_builder : WorkflowBuilder.State :=
  {| WorkflowBuilder.workflowSteps := [sample_step "a"; sample_step "b"; sample_step "c"];
     WorkflowBuilder.draggingItem :=
       Some (WorkflowBuilder.workflowItem "a" (sample_step "a"));
     WorkflowBuilder.dragOverCanvas := false;
     WorkflowBuilder.dragOverWorkflowItemId := Some "c" |}.

(** Phase a has run to completion (50 runs of its interval); b and c are
    still pending. *)
Definition sample_one_done_events : list Event :=
  sample_abc_events
  ++ ClickToggle "a" sample_clock :: replicate 50 (IntervalFires 1 sample_clock).

Definition sample_one_done : State := run sample_one_done_events.

(** Then b was started and its interval has run 25 times: the progresses
    are 100, 50, 0 and the statuses completed, running, pending. *)
Definition sample_mixed : State :=
  run (sample_one_done_events
       ++ ClickToggle "b" sample_clock :: replicate 25 (IntervalFires 2 sample_clock)).

(** Phase a is running with 40 percent done (20 runs of its interval). *)
Definition sample_running_events : list Event :=
  sample_abc_events
  ++ ClickToggle "a" sample_clock :: replicate 20 (IntervalFires 1 sample_clock).

Definition sample_running : State := run sample_running_events.

(** One phase from the Analysis Algorithm block (15 seconds), running
    after 10 runs of its interval. *)
Definition analysis_block : PaletteBlock :=
  {| block_type := "ANALYSIS_ALGORITHM"; block_label := "Analysis Algorithm";
     block_icon := AnalysisAlgorithmIcon; block_color := "bg-purple-600";
     defaultText := "Run processing and analysis scripts...";
     block_estimatedDuration := 15%float |}.

Definition sample_analysis_events : list Event :=
  [PaletteDragStart analysis_block; CanvasDrop "a"; DragEnd;
   ClickToggle "a" sample_clock]
  ++ replicate 10 (IntervalFires 1 sample_clock).

Definition sample_analysis : State := run sample_analysis_events.

(** Two pending phases with ids a and b. *)
Definition sample_ab : State :=
  run [PaletteDragStart sample_block; CanvasDrop "a"; CanvasDrop "b"; DragEnd].

(** ** The list of draggable items appended to [WorkflowBuilder.svelte] *)

Module DraggableList.

Record Item := {
  id : Z;
  text : string;
  color : string
}.

Record State := {
  items : list Item;
  draggingItemId : option Z;
  dragOverItemId : option Z
}.

Definition initial_items : list Item :=
  [ {| id := 1; text := "🍎 Apple (Drag me!)"; color := "bg-red-400" |};
    {| id := 2; text := "🍌 Banana (Drag me!)"; color := "bg-yellow-400" |};
    {| id := 3; text := "🍇 Grapes (Drag me!)"; color := "bg-purple-400" |};
    {| id := 4; text := "🍓 Strawberry (Drag me!)"; color := "bg-pink-400" |};
    {| id := 5; text := "🥝 Kiwi (Drag me!)"; color := "bg-green-400" |};
    {| id := 6; text := "🍊 Orange (Drag me!)"; color := "bg-orange-400" |} ].

Definition initial : State :=
  {| items := initial_items; draggingItemId := None; dragOverItemId := None |}.

Definition has_id (x : Z) (item : Item) : bool := bool_decide (id item = x).

Definition handleDragStart (itemId : Z) (s : State) : State :=
  {| items := items s; draggingItemId := Some itemId; dragOverItemId := None |}.

Definition handleDragEnter (targetItemId : Z) (s : State) : State :=
  if decide (draggingItemId s = Some targetItemId) then s
  else {| items := items s; draggingItemId := draggingItemId s;
          dragOverItemId := Some targetItemId |}.

(** [handleDragOver] only sets [dropEffect] on the event. *)
Definition handleDragOver (s : State) : State := s.

Definition handleDragLeave (targetItemId : Z) (s : State) : State :=
  if decide (dragOverItemId s = Some targetItemId)
  then {| items := items s; draggingItemId := draggingItemId s;
          dragOverItemId := None |}
  else s.

(** The callback that [handleDrop] gives to [items.update]. *)
Definition reorder (sourceItemId targetItemId : Z) (currentItems : list Item)
    : list Item :=
  match findIndex (has_id sourceItemId) currentItems,
        findIndex (has_id targetItemId) currentItems with
  | Some sourceIndex, Some targetIndex =>
      let '(removed, spliced) := splice_remove sourceIndex currentItems in
      match removed with
      | draggedItem :: _ => splice_insert targetIndex draggedItem spliced
      | [] => spliced
      end
  | _, _ => currentItems
  end.

Definition handleDrop (targetItemId : Z) (s : State) : State :=
  {| items :=
       match draggingItemId s with
       | Some sourceItemId =>
           if decide (sourceItemId = targetItemId) then items s
           else reorder sourceItemId targetItemId (items s)
       | None => items s
       end;
     draggingItemId := None;
     dragOverItemId := None |}.

Definition handleDragEnd (s : State) : State :=
  {| items := items s; draggingItemId := None; dragOverItemId := None |}.

Inductive Event :=
| DragStart (itemId : Z)
| DragEnter (targetItemId : Z)
| DragOver
| DragLeave (targetItemId : Z)
| Drop (targetItemId : Z)
| DragEnd.

Definition handle (s : State) (ev : Event) : State :=
  match ev with
  | DragStart x => handleDragStart x s
  | DragEnter x => handleDragEnter x s
  | DragOver => handleDragOver s
  | DragLeave x => handleDragLeave x s
  | Drop x => handleDrop x s
  | DragEnd => handleDragEnd s
  end.

Definition run (evs : list Event) : State := fold_left handle evs initial.

End DraggableList.

(** ** Helpers of the workbench's markup *)

(** [getStatusColor(status)]; [None] is [undefined]. *)
Definition getStatusColor (status : option PhaseStatus) : string :=
  match status with
  | Some pending => "bg-gray-400"
  | Some running => "bg-blue-500 animate-pulse"
  | Some completed => "bg-green-500"
  | Some paused => "bg-yellow-500"
  | Some failed => "bg-red-500"
  | None => "bg-gray-300"
  end.

(** [getRunButtonText(status)] *)
Definition getRunButtonText (status : option PhaseStatus) : string :=
  match status with
  | Some pending => "Run"
  | Some running => "Pause"
  | Some paused => "Resume"
  | Some completed => "Re-run"
  | Some failed => "Retry"
  | None => "Run"
  end.

(** [s.replace(pattern, replacement)] with a string as pattern: the first
    occurrence is replaced. The replacements of the markup hold no [$]. *)
Fixpoint replace_first (pattern replacement s : string) : string :=
  if String.prefix pattern s then
    String.append replacement
      (String.substring (String.length pattern)
         (String.length s - String.length pattern) s)
  else
    match s with
    | EmptyString => EmptyString
    | String c rest => String c (replace_first pattern replacement rest)
    end.

(** The class of the progress bar and of the status badge of a phase:
    [getStatusColor(phase.status).replace('bg-', 'bg-gradient-to-r from-')
     .replace('-500', '-600 to-').replace('-500', '-400')]. *)
Definition status_gradient (status : option PhaseStatus) : string :=
  replace_first "-500" "-400"
    (replace_first "-500" "-600 to-"
       (replace_first "bg-" "bg-gradient-to-r from-" (getStatusColor status))).

(** [disabled={!phase.canBeRun && phase.status !== 'running'}] on the
    button that toggles a phase. *)
Definition toggle_disabled (phase : ExperimentPhase) : bool :=
  negb (canBeRun phase) && negb (bool_decide (status phase = running)).

(** [draggingItem?.id] *)
Definition dragging_id (item : option DraggingItem) : option string :=
  match item with
  | Some (workflowItem item_id _) => Some item_id
  | _ => None
  end.

(** The ring around a phase of the list:
    [dragOverPhaseId === phase.id && draggingItem?.id !== phase.id]. *)
Definition ring_shown (s : State) (phase : ExperimentPhase) : bool :=
  bool_decide (dragOverPhaseId s = Some (id phase))
  && negb (bool_decide (dragging_id (draggingItem s) = Some (id phase))).

(** [disabled={$experimentPhases.length === 0 ||
    $overallExperimentProgress.isComplete}] on the button that calls
    [runAllPhases]. *)
Definition runAll_disabled (phases : list ExperimentPhase) : bool :=
  bool_decide (length phases = 0)
  || isComplete (overallExperimentProgress phases).

(** [handlePhaseDragOver] only sets [dropEffect] on the event. *)
Definition handlePhaseDragOver (s : State) : State := s.

(** ** More predicates on states *)

(** Every registered interval is live and its callback has captured the
    id it is registered under. *)
Definition registered_live (t : Timers) : Prop :=
  ∀ x h, phaseIntervals t !! x = Some h →
         ∃ cb, liveIntervals t !! h = Some cb ∧ tick_id cb = x.

(** A phase is running exactly when an interval is registered under its
    id. *)
Definition running_iff_registered (phases : list ExperimentPhase) (t : Timers)
    : Prop :=
  ∀ p, p ∈ phases →
       (status p = running ↔ is_Some (phaseIntervals t !! id p)).

Definition timers_consistent (s : State) : Prop :=
  registered_live (timers s)
  ∧ running_iff_registered (experimentPhases s) (timers s).

(** The events that act on phase [y] or its interval: a toggle or the
    removal of [y], and a run of the interval registered under [y]. *)
Definition addressed_to (y : string) (s : State) (ev : Event) : Prop :=
  match ev with
  | ClickToggle x _ | ClickRemove x => x = y
  | IntervalFires h _ => phaseIntervals (timers s) !! y = Some h
  | _ => False
  end.

(** As [running_at], with the logs of the phase and the start time its
    interval has captured. *)
Definition running_since (s : State) (i : nat) (x : string) (h : positive)
    (d P : float) (started : Z) (lg : list LogEntry) : Prop :=
  NoDup (map id (experimentPhases s))
  ∧ ∃ p cb,
      experimentPhases s !! i = Some p ∧ id p = x ∧ status p = running
      ∧ progress p = P ∧ logs p = lg
      ∧ phaseIntervals (timers s) !! x = Some h
      ∧ liveIntervals (timers s) !! h = Some cb
      ∧ tick_id cb = x ∧ progressIncrement cb = d ∧ startTime cb = started.


(** ** More sample data *)

(** Phase a was started, ran 20 times and was paused at 40 percent. *)
Definition sample_paused : State :=
  run (sample_running_events ++ [ClickToggle "a" sample_clock]).

(** A block with a negative estimated duration, as no block of the palette
    has, and the canvas with one phase made from it. *)
Definition negative_block : PaletteBlock :=
  {| block_type := "SAMPLE_PREP"; block_label := "Sample Preparation";
     block_icon := SamplePrepIcon; block_color := "bg-sky-500";
     defaultText := "Prepare and calibrate samples...";
     block_estimatedDuration := (-3)%float |}.

Definition sample_negative : State :=
  handleDragEnd (handleCanvasDrop "n" (handlePaletteDragStart negative_block initial)).

(** Gestures on the builder: three steps dropped, a dragged onto c, b
    removed, a edited. *)
Definition sample_builder_events : list WorkflowBuilder.Event :=
  [ WorkflowBuilder.PaletteDragStart
      {| WorkflowBuilder.block_type := "LOAD_DATA";
         WorkflowBuilder.block_label := "Load Data";
         WorkflowBuilder.block_icon := "chart";
         WorkflowBuilder.block_color := "bg-blue-500";
         WorkflowBuilder.defaultText := "Load Data from Source" |};
    WorkflowBuilder.CanvasDrop "a"; WorkflowBuilder.CanvasDrop "b";
    WorkflowBuilder.CanvasDrop "c"; WorkflowBuilder.DragEnd;
    WorkflowBuilder.ItemDragStart (sample_step "a");
    WorkflowBuilder.ItemDragEnter "c"; WorkflowBuilder.ItemDrop "c";
    WorkflowBuilder.DragEnd; WorkflowBuilder.ClickRemove "b";
    WorkflowBuilder.ChangeText "a" "Load the samples" ].

(** ** The summary as the code computes it *)

(** The locals [totalProgress] and [avgProgress] of the summary: the sum
    of [phase.progress || 0] from left to right, from 0, and its quotient
    by the number of phases, both in doubles. *)
Definition totalProgress (phases : list ExperimentPhase) : float :=
  fold_left (λ sum phase, (sum + or_number (progress phase) 0)%float) phases 0%float.

Definition avgProgress (phases : list ExperimentPhase) : float :=
  (totalProgress phases / length_number phases)%float.

(** The arithmetic mean rounded to the nearest integer, a half up. *)
Definition rounded_arithmetic_mean (phases : list ExperimentPhase) : Z :=
  Qfloor (arithmetic_mean phases + (1 # 2))%Q.

(** A pending phase a of 10 seconds, a phase b of 15 seconds after 6 runs
    of its interval and a phase c of 8 seconds after one run. *)
Definition visualize_block : PaletteBlock :=
  {| block_type := "VISUALIZE_RESULTS"; block_label := "Visualize Results";
     block_icon := VisualizeResultsIcon; block_color := "bg-green-500";
     defaultText := "Generate charts and visual outputs...";
     block_estimatedDuration := 8%float |}.

Definition sample_uneven_events : list Event :=
  [PaletteDragStart sample_block; CanvasDrop "a";
   PaletteDragStart analysis_block; CanvasDrop "b";
   PaletteDragStart visualize_block; CanvasDrop "c"; DragEnd;
   ClickToggle "b" sample_clock]
  ++ replicate 6 (IntervalFires 1 sample_clock)
  ++ [ClickToggle "c" sample_clock; IntervalFires 2 sample_clock].

Definition sample_uneven : State := run sample_uneven_events.

(** ** The time that runs of an interval take *)

(** [n] runs of an interval that the browser makes on time take [n] times
    its delay; in seconds. *)
Definition seconds_of_ticks (interval : Interval) (n : nat) : Q :=
  (inject_Z (Z.of_nat n * delay interval) / 1000)%Q.

(** Clock readings of runs made on time: the first run after a start at
    [started] reads [started + delay], the next one a delay later, and so
    on. *)
Definition on_time (started delay : Z) (clks : list Clock) : Prop :=
  ∀ k clk, clks !! k = Some clk → now clk = (started + Z.of_nat (S k) * delay)%Z.

(** (100 - P) / 100 * estimatedDuration seconds, counted in runs of the
    interval and rounded to the nearest whole number of runs. *)
Definition nearest_ticks (interval : Interval) (progress estimatedDuration : float)
    : Z :=
  Qfloor (remaining_by_proportion progress estimatedDuration * 1000
          / inject_Z (delay interval) + (1 # 2))%Q.

(** The clock readings of [n] runs made on time, every 200ms from 0. *)
Definition sample_clocks (n : nat) : list Clock :=
  (λ k, {| now := Z.of_nat (S k) * 200; localeTime := "10:00:00" |}) <$> seq 0 n.

(** ** Calls of [runAllPhases] in flight *)

(** A suspended call of [runAllPhases]: the id of the phase whose end its
    subscriber waits for, and the rest of its snapshot. *)
Record Call := {
  awaited : string;
  remaining : list ExperimentPhase
}.

(** The store runs its subscribers, in the order of their subscription,
    on a new value: a subscriber whose test holds unsubscribes and
    resolves its promise, which queues the rest of the loop of its call as
    a microtask; the others stay subscribed. *)
Definition notify (subscribers : list Call) (updatedPhases : list ExperimentPhase)
    : list Call * list (list ExperimentPhase) :=
  (filter (λ c, resolves (awaited c) updatedPhases = false) subscribers,
   remaining <$> filter (λ c, resolves (awaited c) updatedPhases = true) subscribers).

(** The loops of [queue] run one after the other, each up to its next
    [await]. A loop that starts a phase has updated the store, so the
    subscribers are notified and the loops they resolve join the queue,
    behind the loops already there; then the loop subscribes itself, last
    in the order (the store calls a new subscriber at once, and the loop's
    own finds its phase running). A loop that starts nothing returns.
    [fuel] bounds the number of loops that run. *)
Fixpoint run_tasks (fuel : nat) (clk : Clock) (queue : list (list ExperimentPhase))
    (subscribers : list Call) (s : State) : option (State * list Call) :=
  match queue with
  | [] => Some (s, subscribers)
  | phasesLeft :: queue =>
      match fuel with
      | 0 => None
      | S fuel =>
          match runAll_loop clk phasesLeft s with
          | (s', Awaiting phaseId rest) =>
              let '(still, resolved) := notify subscribers (experimentPhases s') in
              run_tasks fuel clk (queue ++ resolved)
                (still ++ [{| awaited := phaseId; remaining := rest |}]) s'
          | (s', Returned) => run_tasks fuel clk queue subscribers s'
          end
      end
  end.

(** The phases that the loops in the queue and the suspended calls may
    still start, plus one per loop and call: every loop that runs takes at
    least one away. *)
Definition tasks_weight (queue : list (list ExperimentPhase))
    (subscribers : list Call) : nat :=
  sum_list_with (λ phasesLeft, S (length phasesLeft)) queue
  + sum_list_with (λ c, S (length (remaining c))) subscribers.

(** The microtasks of a turn, with the fuel that always suffices. *)
Definition settle (clk : Clock) (queue : list (list ExperimentPhase))
    (subscribers : list Call) (s : State) : State * list Call :=
  default (s, subscribers)
    (run_tasks (tasks_weight queue subscribers) clk queue subscribers s).

(** What the user and the browser do: an event of [Event], or a click on
    the Run All button, which the markup shows for a canvas that is not
    empty and disables when the experiment is complete. *)
Inductive Gesture :=
| Forwarded (ev : Event)
| ClickRunAll.

(** One gesture with any number of calls of [runAllPhases] suspended:
    the handler runs and the store notifies the subscribers, or a new call
    takes its snapshot and runs up to its first [await]; then the
    microtasks run. A handler that leaves the store alone notifies
    nobody, and on a value they have seen the subscribers' tests are as
    they were. [clk] is the clock that the loops read. *)
Definition act (sc : State * list Call) (g : Gesture * Clock) : State * list Call :=
  match g.1 with
  | Forwarded ev =>
      let s1 := handle sc.1 ev in
      let '(still, resolved) := notify sc.2 (experimentPhases s1) in
      settle g.2 resolved still s1
  | ClickRunAll =>
      if runAll_disabled (experimentPhases sc.1) then sc
      else settle g.2 [phasesToRun sc.1] sc.2 sc.1
  end.



(** * Properties *)

(** ** Arrays *)

Section ArrayFacts.
Context {A : Type} (pred : A → bool).

Lemma findIndex_None (arr : list A) :
  findIndex pred arr = None ↔ Forall (λ x, pred x = false) arr.
Proof.
  induction arr as [|x rest IH]; simpl.
  - split; [constructor | done].
  - destruct (pred x) eqn:Hx.
    + split; [done | intros H; inversion H; congruence].
    + rewrite fmap_None, IH. split.
      * by constructor.
      * by inversion 1.
Qed.

Lemma findIndex_Some (arr : list A) (i : nat) :
  findIndex pred arr = Some i →
  ∃ x, arr !! i = Some x ∧ pred x = true
       ∧ Forall (λ y, pred y = false) (take i arr).
Proof.
  revert i. induction arr as [|x rest IH]; intros i; simpl; [done|].
  destruct (pred x) eqn:Hx.
  - intros [= <-]. exists x. by repeat split.
  - intros Hi. apply fmap_Some in Hi as (j & Hj & ->).
    destruct (IH _ Hj) as (y & Hy & Hp & Hall).
    exists y. repeat split; [done..|]. simpl. by constructor.
Qed.

Lemma findIndex_is_Some (arr : list A) (x : A) :
  x ∈ arr → pred x = true → is_Some (findIndex pred arr).
Proof.
  intros Hin Hx. destruct (findIndex pred arr) eqn:E; [by eexists|].
  apply findIndex_None in E. rewrite Forall_forall in E.
  specialize (E x Hin). congruence.
Qed.

(** The first element that satisfies [pred] splits the array. *)
Lemma findIndex_split (arr : list A) (i : nat) :
  findIndex pred arr = Some i →
  ∃ x, arr = take i arr ++ x :: drop (S i) arr ∧ pred x = true
       ∧ Forall (λ y, pred y = false) (take i arr).
Proof.
  intros Hi. destruct (findIndex_Some _ _ Hi) as (x & Hx & Hp & Hall).
  exists x. repeat split; [|done..].
  by rewrite <- (take_drop_middle arr i x) at 1.
Qed.

Lemma splice_remove_lookup (arr : list A) (i : nat) (x : A) :
  arr !! i = Some x → splice_remove i arr = ([x], delete i arr).
Proof.
  intros Hx. unfold splice_remove. f_equal.
  - by rewrite (drop_S _ _ _ Hx).
  - by rewrite delete_take_drop.
Qed.

Lemma splice_insert_lookup (arr : list A) (i : nat) (x y : A) :
  arr !! i = Some y →
  splice_insert i x arr = take i arr ++ x :: y :: drop (S i) arr.
Proof.
  intros Hy. unfold splice_insert. by rewrite (drop_S _ _ _ Hy).
Qed.
End ArrayFacts.

Lemma has_id_true (x : string) (p : ExperimentPhase) : has_id x p = true ↔ id p = x.
Proof. unfold has_id. by rewrite bool_decide_eq_true. Qed.

Lemma has_id_false (x : string) (p : ExperimentPhase) : has_id x p = false ↔ id p ≠ x.
Proof. unfold has_id. by rewrite bool_decide_eq_false. Qed.

Lemma findIndex_has_id (x : string) (phases : list ExperimentPhase) :
  x ∈ map id phases ↔ is_Some (findIndex (has_id x) phases).
Proof.
  split.
  - intros Hin. apply list_elem_of_fmap in Hin as (p & -> & Hp).
    eapply findIndex_is_Some; [done|]. by apply has_id_true.
  - intros [i Hi]. destruct (findIndex_Some _ _ _ Hi) as (p & Hp & Hid & _).
    apply has_id_true in Hid as <-.
    apply list_elem_of_fmap. exists p. split; [done|].
    by eapply list_elem_of_lookup_2.
Qed.

(** ** Reordering in the workbench *)

(** What [reorder] returns when both phases are found: the dragged phase
    is taken out, the target is found again in what is left, and the
    dragged phase goes in at that index. *)
Lemma reorder_found (sourcePhaseId targetPhaseId : string)
    (currentPhases : list ExperimentPhase) (i j : nat) :
  sourcePhaseId ≠ targetPhaseId →
  findIndex (has_id sourcePhaseId) currentPhases = Some i →
  findIndex (has_id targetPhaseId) currentPhases = Some j →
  ∃ src tgt k,
    currentPhases !! i = Some src ∧ id src = sourcePhaseId
    ∧ findIndex (has_id targetPhaseId) (delete i currentPhases) = Some k
    ∧ delete i currentPhases !! k = Some tgt ∧ id tgt = targetPhaseId
    ∧ reorder sourcePhaseId targetPhaseId currentPhases
      = take k (delete i currentPhases) ++ src :: tgt :: drop (S k) (delete i currentPhases).
Proof.
  intros Hne Hi Hj.
  destruct (findIndex_Some _ _ _ Hi) as (src & Hsrc & Hsid & _).
  destruct (findIndex_Some _ _ _ Hj) as (tgt0 & Htgt0 & Htid0 & _).
  apply has_id_true in Hsid. apply has_id_true in Htid0.
  assert (i ≠ j) as Hij by (intros ->; congruence).
  assert (tgt0 ∈ delete i currentPhases) as Hin.
  { destruct (decide (j < i)) as [Hlt|Hge].
    - eapply list_elem_of_lookup_2. by rewrite list_lookup_delete_lt.
    - destruct j as [|j']; [lia|].
      eapply (list_elem_of_lookup_2 _ j'). rewrite list_lookup_delete_ge by lia. done. }
  destruct (findIndex_is_Some (has_id targetPhaseId) _ _ Hin) as [k Hk];
    [by apply has_id_true|].
  destruct (findIndex_Some _ _ _ Hk) as (tgt & Htgt & Htid & _).
  apply has_id_true in Htid.
  exists src, tgt, k. repeat split; try done.
  unfold reorder. rewrite Hi, Hj, (splice_remove_lookup _ _ _ Hsrc), Hk.
  by apply splice_insert_lookup.
Qed.

(** The fallback branch is never taken: both copies compute the same
    array. *)
Lemma reorder_icon_variant_eq (sourcePhaseId targetPhaseId : string)
    (currentPhases : list ExperimentPhase) :
  sourcePhaseId ≠ targetPhaseId →
  reorder_icon_variant sourcePhaseId targetPhaseId currentPhases
  = reorder sourcePhaseId targetPhaseId currentPhases.
Proof.
  intros Hne. unfold reorder_icon_variant.
  destruct (findIndex (has_id sourcePhaseId) currentPhases) as [i|] eqn:Hi;
    [|by unfold reorder; rewrite Hi].
  destruct (findIndex (has_id targetPhaseId) currentPhases) as [j|] eqn:Hj;
    [|by unfold reorder; rewrite Hi, Hj].
  destruct (reorder_found _ _ _ _ _ Hne Hi Hj)
    as (src & tgt & k & Hsrc & _ & Hk & Htgt & _ & ->).
  rewrite (splice_remove_lookup _ _ _ Hsrc), Hk.
  by apply splice_insert_lookup.
Qed.

(** The dragged phase ends immediately before the first phase that carries
    the target id, every other phase keeps its place relative to the
    others, and the phases are the same ones. *)
Theorem handlePhaseDrop_moves_before_target (s : State)
    (sourcePhaseId targetPhaseId : string) (data : ExperimentPhase) :
  draggingItem s = Some (workflowItem sourcePhaseId data) →
  sourcePhaseId ≠ "" →
  sourcePhaseId ≠ targetPhaseId →
  sourcePhaseId ∈ map id (experimentPhases s) →
  targetPhaseId ∈ map id (experimentPhases s) →
  ∃ before src tgt after i,
    experimentPhases (handlePhaseDrop targetPhaseId s)
      = before ++ src :: tgt :: after
    ∧ id src = sourcePhaseId ∧ id tgt = targetPhaseId
    ∧ Forall (λ p, id p ≠ targetPhaseId) before
    ∧ findIndex (has_id sourcePhaseId) (experimentPhases s) = Some i
    ∧ experimentPhases s !! i = Some src
    ∧ delete i (experimentPhases s) = before ++ tgt :: after
    ∧ experimentPhases (handlePhaseDrop targetPhaseId s) ≡ₚ experimentPhases s
    ∧ length (experimentPhases (handlePhaseDrop targetPhaseId s))
      = length (experimentPhases s).
Proof.
  intros Hdrag Hnonempty Hne Hsrc Htgt.
  apply findIndex_has_id in Hsrc as [i Hi].
  apply findIndex_has_id in Htgt as [j Hj].
  destruct (reorder_found _ _ _ _ _ Hne Hi Hj)
    as (src & tgt & k & Hsrc & Hsid & Hk & Htgt & Htid & Hre).
  assert (experimentPhases (handlePhaseDrop targetPhaseId s)
          = reorder sourcePhaseId targetPhaseId (experimentPhases s)) as Heq.
  { unfold handlePhaseDrop. rewrite Hdrag.
    by repeat (case_decide; [done|]). }
  assert (reorder sourcePhaseId targetPhaseId (experimentPhases s)
          ≡ₚ experimentPhases s) as Hperm.
  { rewrite Hre. etrans; [|symmetry; exact (delete_Permutation _ _ _ Hsrc)].
    rewrite <- Permutation_middle. f_equiv.
    by rewrite <- (drop_S _ _ _ Htgt), take_drop. }
  exists (take k (delete i (experimentPhases s))), src, tgt,
         (drop (S k) (delete i (experimentPhases s))), i.
  rewrite Heq. repeat split; try done.
  - destruct (findIndex_Some _ _ _ Hk) as (_ & _ & _ & Hall).
    eapply Forall_impl; [exact Hall|]. intros p. by rewrite has_id_false.
  - by rewrite <- (drop_S _ _ _ Htgt), take_drop.
  - by rewrite Hperm.
Qed.

(** C1, on the workbench: dragging a (first of a, b, c) onto c leaves
    b, a, c. *)
Example handlePhaseDrop_a_onto_c :
  map id (experimentPhases
            (handlePhaseDrop "c" (handlePhaseDragStart (sample_phase "a") sample_abc)))
  = ["b"; "a"; "c"].
Proof. reflexivity. Qed.

(** C1: in the simpler builder the dragged step is inserted at the index
    the target had before the removal. Dragging a (first of a, b, c) onto c
    leaves b, c, a: the dragged step ends after the target, not
    immediately before it. *)
Theorem handleWorkflowItemDrop_stale_index :
  WorkflowBuilder.workflowSteps
    (WorkflowBuilder.handleWorkflowItemDrop "c" sample_builder)
  = [sample_step "b"; sample_step "c"; sample_step "a"].
Proof. reflexivity. Qed.

(** ** Drops that change nothing *)

Lemma reorder_absent (sourcePhaseId targetPhaseId : string)
    (currentPhases : list ExperimentPhase) :
  sourcePhaseId ∉ map id currentPhases ∨ targetPhaseId ∉ map id currentPhases →
  reorder sourcePhaseId targetPhaseId currentPhases = currentPhases.
Proof.
  rewrite !findIndex_has_id, <- !eq_None_not_Some. unfold reorder.
  intros [-> | ->]; [done|]. by destruct (findIndex _ _).
Qed.

Lemma WorkflowBuilder_has_id_true (x : string) (p : WorkflowBuilder.WorkflowStep) :
  WorkflowBuilder.has_id x p = true ↔ WorkflowBuilder.id p = x.
Proof. unfold WorkflowBuilder.has_id. by rewrite bool_decide_eq_true. Qed.

Lemma WorkflowBuilder_findIndex_has_id (x : string)
    (steps : list WorkflowBuilder.WorkflowStep) :
  x ∈ map WorkflowBuilder.id steps
  ↔ is_Some (findIndex (WorkflowBuilder.has_id x) steps).
Proof.
  split.
  - intros Hin. apply list_elem_of_fmap in Hin as (p & -> & Hp).
    eapply findIndex_is_Some; [done|]. by apply WorkflowBuilder_has_id_true.
  - intros [i Hi]. destruct (findIndex_Some _ _ _ Hi) as (p & Hp & Hid & _).
    apply WorkflowBuilder_has_id_true in Hid as <-.
    apply list_elem_of_fmap. exists p. split; [done|].
    by eapply list_elem_of_lookup_2.
Qed.

Lemma WorkflowBuilder_reorder_absent (sourceItemId targetItemId : string)
    (currentSteps : list WorkflowBuilder.WorkflowStep) :
  sourceItemId ∉ map WorkflowBuilder.id currentSteps
  ∨ targetItemId ∉ map WorkflowBuilder.id currentSteps →
  WorkflowBuilder.reorder sourceItemId targetItemId currentSteps = currentSteps.
Proof.
  rewrite !WorkflowBuilder_findIndex_has_id, <- !eq_None_not_Some.
  unfold WorkflowBuilder.reorder.
  intros [-> | ->]; [done|]. by destruct (findIndex _ _).
Qed.

(** C9: a phase dropped onto itself, or a drop where the dragged id or the
    target id is not on the canvas, leaves the array of phases as it was;
    in the workbench and in the simpler builder. *)
Theorem drop_onto_self_or_absent_unchanged :
  (∀ (s : State) (sourcePhaseId targetPhaseId : string) (data : ExperimentPhase),
     draggingItem s = Some (workflowItem sourcePhaseId data) →
     sourcePhaseId = targetPhaseId
     ∨ sourcePhaseId ∉ map id (experimentPhases s)
     ∨ targetPhaseId ∉ map id (experimentPhases s) →
     experimentPhases (handlePhaseDrop targetPhaseId s) = experimentPhases s)
  ∧ (∀ (w : WorkflowBuilder.State) (sourceItemId targetItemId : string)
       (data : WorkflowBuilder.WorkflowStep),
     WorkflowBuilder.draggingItem w
       = Some (WorkflowBuilder.workflowItem sourceItemId data) →
     sourceItemId = targetItemId
     ∨ sourceItemId ∉ map WorkflowBuilder.id (WorkflowBuilder.workflowSteps w)
     ∨ targetItemId ∉ map WorkflowBuilder.id (WorkflowBuilder.workflowSteps w) →
     WorkflowBuilder.workflowSteps
       (WorkflowBuilder.handleWorkflowItemDrop targetItemId w)
     = WorkflowBuilder.workflowSteps w).
Proof.
  split.
  - intros s src tgt data Hdrag Hcase. unfold handlePhaseDrop. rewrite Hdrag.
    repeat case_decide; try done. simpl.
    apply reorder_absent. by destruct Hcase as [?|[?|?]]; [done|left|right].
  - intros w src tgt data Hdrag Hcase.
    unfold WorkflowBuilder.handleWorkflowItemDrop. rewrite Hdrag.
    repeat case_decide; try done. simpl.
    apply WorkflowBuilder_reorder_absent.
    by destruct Hcase as [?|[?|?]]; [done|left|right].
Qed.

Lemma drop_onto_self_or_absent_unchanged_witness :
  experimentPhases
    (handlePhaseDrop "a" (handlePhaseDragStart (sample_phase "a") sample_abc))
  = experimentPhases (handlePhaseDragStart (sample_phase "a") sample_abc)
  ∧ experimentPhases
      (handlePhaseDrop "z" (handlePhaseDragStart (sample_phase "a") sample_abc))
    = experimentPhases (handlePhaseDragStart (sample_phase "a") sample_abc)
  ∧ WorkflowBuilder.workflowSteps
      (WorkflowBuilder.handleWorkflowItemDrop "a" sample_builder)
    = WorkflowBuilder.workflowSteps sample_builder.
Proof.
  split; [|split].
  - apply (proj1 drop_onto_self_or_absent_unchanged _ "a" "a" (sample_phase "a"));
      [reflexivity | by left].
  - apply (proj1 drop_onto_self_or_absent_unchanged _ "a" "z" (sample_phase "a"));
      [reflexivity | right; right; by apply (bool_decide_unpack _)].
  - apply (proj2 drop_onto_self_or_absent_unchanged _ "a" "a" (sample_step "a"));
      [reflexivity | by left].
Defined.

(** ** Drop on the bare canvas *)

(** Every block of the palette has a default text and a non-zero
    estimated duration, so neither [||] fallback of [handleCanvasDrop]
    applies to it. *)
Lemma paletteBlocks_fields (block : PaletteBlock) :
  block ∈ paletteBlocks →
  text (newPhase "" block) = defaultText block
  ∧ estimatedDuration (newPhase "" block) = block_estimatedDuration block.
Proof.
  unfold paletteBlocks. rewrite !elem_of_cons, elem_of_nil.
  intros [->|[->|[->|[->|[->|[]]]]]]; by split.
Qed.

(** C8: a drop on the bare canvas appends one phase exactly when a
    palette block is being dragged. The new phase is last, pending, at
    progress 0, with no log and [canBeRun] set; its type, label, icon and
    color are the block's, and so are its text and estimated duration for
    every block of the palette (the handler replaces an empty default text
    and a duration that is zero or not a number). When a phase of the
    canvas is being dragged, or nothing is, the array of phases is
    unchanged. *)
Theorem handleCanvasDrop_appends_iff_palette (s : State) (uuid : string) :
  (∀ block, draggingItem s = Some (paletteItem block) →
     let added := newPhase uuid block in
     experimentPhases (handleCanvasDrop uuid s) = experimentPhases s ++ [added]
     ∧ length (experimentPhases (handleCanvasDrop uuid s))
       = S (length (experimentPhases s))
     ∧ last (experimentPhases (handleCanvasDrop uuid s)) = Some added
     ∧ id added = uuid ∧ status added = pending ∧ progress added = 0%float
     ∧ logs added = [] ∧ canBeRun added = true ∧ actualDuration added = None
     ∧ type added = block_type block ∧ label added = block_label block
     ∧ icon added = block_icon block ∧ color added = block_color block
     ∧ (defaultText block ≠ "" → text added = defaultText block)
     ∧ (is_zero (block_estimatedDuration block)
        || is_nan (block_estimatedDuration block) = false →
        estimatedDuration added = block_estimatedDuration block)
     ∧ (block ∈ paletteBlocks →
        text added = defaultText block
        ∧ estimatedDuration added = block_estimatedDuration block))
  ∧ ((∀ block, draggingItem s ≠ Some (paletteItem block)) →
     experimentPhases (handleCanvasDrop uuid s) = experimentPhases s)
  ∧ (length (experimentPhases (handleCanvasDrop uuid s))
       = S (length (experimentPhases s))
     ↔ ∃ block, draggingItem s = Some (paletteItem block))
  ∧ dragOverCanvas (handleCanvasDrop uuid s) = false.
Proof.
  split; [|split; [|split]].
  - intros block Hdrag added. unfold handleCanvasDrop. rewrite Hdrag. simpl.
    repeat split.
    + rewrite length_app. simpl. lia.
    + by rewrite last_snoc.
    + unfold or_string. by case_decide.
    + unfold or_number. by intros ->.
    + by apply (paletteBlocks_fields block).
    + by apply (paletteBlocks_fields block).
  - intros Hnot. unfold handleCanvasDrop.
    destruct (draggingItem s) as [[block|]|]; [|done..]. by destruct (Hnot block).
  - unfold handleCanvasDrop. split.
    + destruct (draggingItem s) as [[block|]|]; simpl; [by eexists|lia..].
    + intros [block ->]. simpl. rewrite length_app. simpl. lia.
  - unfold handleCanvasDrop. by destruct (draggingItem s) as [[|]|].
Qed.

Lemma handleCanvasDrop_appends_iff_palette_witness :
  experimentPhases (handleCanvasDrop "d" (handlePaletteDragStart sample_block sample_abc))
  = experimentPhases sample_abc ++ [sample_phase "d"]
  ∧ text (sample_phase "d") = "Prepare and calibrate samples..."
  ∧ experimentPhases
      (handleCanvasDrop "d" (handlePhaseDragStart (sample_phase "a") sample_abc))
    = experimentPhases sample_abc.
Proof.
  split; [|split].
  - apply (proj1 (handleCanvasDrop_appends_iff_palette
                    (handlePaletteDragStart sample_block sample_abc) "d")
             sample_block).
    reflexivity.
  - apply (proj1 (handleCanvasDrop_appends_iff_palette
                    (handlePaletteDragStart sample_block sample_abc) "d")
             sample_block); [reflexivity | by constructor].
  - apply (proj1 (proj2 (handleCanvasDrop_appends_iff_palette
                    (handlePhaseDragStart (sample_phase "a") sample_abc) "d"))).
    intros block. discriminate.
Defined.

(** The same drop in the simpler builder. *)
Lemma WorkflowBuilder_handleCanvasDrop (w : WorkflowBuilder.State) (uuid : string) :
  WorkflowBuilder.workflowSteps (WorkflowBuilder.handleCanvasDrop uuid w)
  = match WorkflowBuilder.draggingItem w with
    | Some (WorkflowBuilder.paletteItem block) =>
        WorkflowBuilder.workflowSteps w ++ [WorkflowBuilder.newStep uuid block]
    | _ => WorkflowBuilder.workflowSteps w
    end.
Proof. reflexivity. Qed.

(** ** Overall progress *)

Lemma nearest_integer_bounds (x : float) :
  (Q_of_float x - (1 # 2) < inject_Z (nearest_integer x))%Q
  ∧ (inject_Z (nearest_integer x) <= Q_of_float x + (1 # 2))%Q.
Proof.
  unfold nearest_integer. split.
  - pose proof (Qlt_floor (Q_of_float x + (1 # 2))) as H.
    rewrite inject_Z_plus in H. change (inject_Z 1) with 1%Q in H.
    set (z := inject_Z (Qfloor (Q_of_float x + (1 # 2)))) in *. lra.
  - apply Qfloor_le.
Qed.

(** [Math.round] of a float with a fractional part, or of a small
    integer: the float of the nearest integer, or a zero. *)
Lemma Math_round_nearest (x : float) :
  is_finite x && (abs x <? 4503599627370496)%float = true →
  Math_round x = float_of_Z (nearest_integer x)
  ∨ nearest_integer x = 0%Z ∧ Math_round x = neg_zero.
Proof.
  intros Hx. unfold Math_round. rewrite Hx.
  destruct (nearest_integer x =? 0)%Z eqn:Hz; [|by left].
  apply Z.eqb_eq in Hz. rewrite Hz. destruct (get_sign x); [by right | by left].
Qed.

Lemma totalProgress_fold (phases : list ExperimentPhase) (acc : float) :
  Forall (λ p, or_number (progress p) 0 = progress p) phases →
  fold_left (λ sum phase, (sum + or_number (progress phase) 0)%float) phases acc
  = fold_left (λ sum phase, (sum + progress phase)%float) phases acc.
Proof.
  intros Hall. revert acc. induction Hall as [|p rest Hp _ IH]; intros acc; [done|].
  simpl. by rewrite Hp, IH.
Qed.

Lemma completed_count_all (phases : list ExperimentPhase) :
  length (filter (λ p, status p = completed) phases) = length phases
  ↔ Forall (λ p, status p = completed) phases.
Proof.
  induction phases as [|p rest IH]; simpl.
  - split; [constructor | done].
  - pose proof (length_filter (λ p, status p = completed) rest) as Hle.
    rewrite filter_cons. case_decide as Hp; simpl.
    + split.
      * intros [= H]. constructor; [done|]. by apply IH.
      * inversion 1; subst. f_equal. by apply IH.
    + split; [lia|]. by inversion 1.
Qed.

(** C3, the average as the code computes it: with progresses 100, 0, 0
    the arithmetic mean is 100/3 and [averageProgress] is 33. *)
Lemma averageProgress_is_rounded :
  map progress (experimentPhases sample_one_done) = [100%float; 0%float; 0%float]
  ∧ averageProgress (overallExperimentProgress (experimentPhases sample_one_done))
    = 33%float
  ∧ (arithmetic_mean (experimentPhases sample_one_done) == 100 / 3)%Q
  ∧ ¬ (Q_of_float
         (averageProgress (overallExperimentProgress (experimentPhases sample_one_done)))
       == arithmetic_mean (experimentPhases sample_one_done))%Q.
Proof.
  split; [vm_compute; reflexivity|]. split; [vm_compute; reflexivity|].
  split; [vm_compute; reflexivity|].
  intros H. vm_compute in H. discriminate H.
Qed.

Lemma overallExperimentProgress_cons (p : ExperimentPhase)
    (rest : list ExperimentPhase) :
  let phases := p :: rest in
  let summary := overallExperimentProgress phases in
  averageProgress summary
  = Math_round
      (fold_left (λ sum phase, (sum + or_number (progress phase) 0)%float)
         phases 0%float / length_number phases)%float
  ∧ completedCount summary = length (filter (λ p, status p = completed) phases)
  ∧ totalCount summary = length phases
  ∧ (isComplete summary = true
     ↔ 0 < length phases
       ∧ length (filter (λ p, status p = completed) phases) = length phases).
Proof.
  intros phases summary. split; [done|split; [done|split; [done|]]].
  unfold summary, overallExperimentProgress, phases. cbn [isComplete].
  rewrite andb_true_iff, !bool_decide_eq_true. tauto.
Qed.

(** The average is not always the arithmetic mean rounded to the nearest
    integer: with the reachable progresses 0, 7.9999999999999991 and 2.5
    the sum in doubles is 10.5 and the average 4, while the arithmetic
    mean is below 3.5 and rounds to 3. *)
Lemma averageProgress_rounds_the_double_mean :
  reachable sample_uneven
  ∧ map progress (experimentPhases sample_uneven)
    = [0%float; 0x1.fffffffffffffp+2%float; 2.5%float]
  ∧ avgProgress (experimentPhases sample_uneven) = 3.5%float
  ∧ averageProgress (overallExperimentProgress (experimentPhases sample_uneven))
    = 4%float
  ∧ (arithmetic_mean (experimentPhases sample_uneven) < 7 # 2)%Q
  ∧ rounded_arithmetic_mean (experimentPhases sample_uneven) = 3%Z.
Proof.
  split.
  { exists sample_uneven_events. split; [|reflexivity].
    apply (bool_decide_unpack _). vm_compute. exact I. }
  split; [vm_compute; reflexivity|]. split; [vm_compute; reflexivity|].
  split; [vm_compute; reflexivity|]. split; [|vm_compute; reflexivity].
  vm_compute. reflexivity.
Qed.

(** C3, amended: [averageProgress] is [Math.round] of the mean that the
    doubles give: every [phase.progress || 0] added from left to right,
    from 0, and the sum divided by the number of phases; so it is the
    integer nearest to that double (a half rounds up), and 0 for no phase.
    When that double is the arithmetic mean of the progresses, as on 100,
    50, 0, the average is the arithmetic mean rounded to the nearest
    integer; on a reachable canvas it can be the next integer instead.
    [completedCount] counts the completed phases, [totalCount] all of
    them, and [isComplete] holds exactly when there is a phase and the two
    counts agree. On progresses 100, 50, 0 with statuses completed,
    running, pending the summary is 50, 1, 3, false. *)
Theorem overallExperimentProgress_rounded_mean (phases : list ExperimentPhase) :
  let summary := overallExperimentProgress phases in
  (phases = [] → averageProgress summary = 0%float)
  ∧ (phases ≠ [] → averageProgress summary = Math_round (avgProgress phases))
  ∧ (phases ≠ [] →
     is_finite (avgProgress phases)
     && (abs (avgProgress phases) <? 4503599627370496)%float = true →
     ∃ z : Z,
       (Q_of_float (avgProgress phases) - (1 # 2) < inject_Z z)%Q
       ∧ (inject_Z z <= Q_of_float (avgProgress phases) + (1 # 2))%Q
       ∧ (averageProgress summary = float_of_Z z
          ∨ z = 0%Z ∧ averageProgress summary = neg_zero)
       ∧ ((Q_of_float (avgProgress phases) == arithmetic_mean phases)%Q →
          z = rounded_arithmetic_mean phases))
  ∧ (phases ≠ [] →
     is_finite (avgProgress phases)
     && (abs (avgProgress phases) <? 4503599627370496)%float = false →
     averageProgress summary = avgProgress phases)
  ∧ (∃ s, reachable s
          ∧ averageProgress (overallExperimentProgress (experimentPhases s))
            = float_of_Z (rounded_arithmetic_mean (experimentPhases s) + 1))
  ∧ completedCount summary = length (filter (λ p, status p = completed) phases)
  ∧ totalCount summary = length phases
  ∧ (isComplete summary = true
     ↔ 0 < totalCount summary ∧ completedCount summary = totalCount summary)
  ∧ (isComplete summary = true
     ↔ phases ≠ [] ∧ Forall (λ p, status p = completed) phases)
  ∧ (map status phases = [completed; running; pending] →
     map progress phases = [100%float; 50%float; 0%float] →
     summary = {| averageProgress := 50; completedCount := 1; totalCount := 3;
                  isComplete := false |}
     ∧ (Q_of_float (avgProgress phases) == arithmetic_mean phases)%Q
     ∧ rounded_arithmetic_mean phases = 50%Z).
Proof.
  assert (∃ s, reachable s
               ∧ averageProgress (overallExperimentProgress (experimentPhases s))
                 = float_of_Z (rounded_arithmetic_mean (experimentPhases s) + 1))
    as Hnext.
  { exists sample_uneven.
    destruct averageProgress_rounds_the_double_mean as (Hr & _ & _ & -> & _ & ->).
    split; [done|]. vm_compute. reflexivity. }
  destruct phases as [|p rest].
  - intros summary. unfold summary. cbn [overallExperimentProgress
      averageProgress completedCount totalCount isComplete].
    split; [done|]. split; [done|]. split; [done|]. split; [done|].
    split; [done|]. split; [done|]. split; [done|].
    split; [split; [done | lia]|]. split; [split; [done | by intros [? _]]|]. done.
  - pose proof (overallExperimentProgress_cons p rest) as (Havg & Hc & Ht & Hcomplete).
    intros summary. fold summary in Havg, Hc, Ht, Hcomplete.
    change (averageProgress summary = Math_round (avgProgress (p :: rest))) in Havg.
    split; [done|]. split; [done|].
    split; [|split; [|split; [done|split; [done|split; [done|split; [|split]]]]]].
    + intros _ Hfin. exists (nearest_integer (avgProgress (p :: rest))).
      destruct (nearest_integer_bounds (avgProgress (p :: rest))) as [Hlo Hhi].
      split; [done|]. split; [done|]. split.
      * rewrite Havg. by apply Math_round_nearest.
      * intros Heq. unfold nearest_integer, rounded_arithmetic_mean.
        by rewrite Heq.
    + intros _ Hfin. rewrite Havg. unfold Math_round. by rewrite Hfin.
    + by rewrite Hc, Ht.
    + rewrite Hcomplete, completed_count_all. split; [by intros [_ ?]|].
      intros [_ ?]. split; [simpl; lia | done].
    + intros Hst Hpr. destruct rest as [|p2 [|p3 [|]]]; try done.
      injection Hst as Hs1 Hs2 Hs3. injection Hpr as Hp1 Hp2 Hp3.
      split; [|split].
      * unfold summary, overallExperimentProgress.
        cbn [fold_left length]. rewrite !filter_cons, filter_nil.
        rewrite Hs1, Hs2, Hs3, Hp1, Hp2, Hp3. by vm_compute.
      * unfold avgProgress, totalProgress, arithmetic_mean, sum_progress.
        cbn [fold_left foldr length]. rewrite Hp1, Hp2, Hp3.
        apply Qeq_bool_iff. vm_compute. reflexivity.
      * unfold rounded_arithmetic_mean, arithmetic_mean, sum_progress.
        cbn [foldr length]. rewrite Hp1, Hp2, Hp3. vm_compute. reflexivity.
Qed.

Lemma overallExperimentProgress_rounded_mean_witness :
  overallExperimentProgress (experimentPhases sample_mixed)
  = {| averageProgress := 50; completedCount := 1; totalCount := 3;
       isComplete := false |}
  ∧ averageProgress (overallExperimentProgress (experimentPhases sample_mixed))
    = Math_round (avgProgress (experimentPhases sample_mixed))
  ∧ ∃ z : Z,
      (averageProgress (overallExperimentProgress (experimentPhases sample_mixed))
       = float_of_Z z
       ∨ z = 0%Z
         ∧ averageProgress (overallExperimentProgress (experimentPhases sample_mixed))
           = neg_zero)
      ∧ z = rounded_arithmetic_mean (experimentPhases sample_mixed).
Proof.
  pose proof (overallExperimentProgress_rounded_mean (experimentPhases sample_mixed))
    as (_ & Havg & Hz & _ & _ & _ & _ & _ & _ & Hsample).
  assert (experimentPhases sample_mixed ≠ []) as Hne
    by (vm_compute; intros H; discriminate H).
  split; [|split].
  - apply Hsample; vm_compute; reflexivity.
  - by apply Havg.
  - destruct (Hz Hne) as (z & _ & _ & Hcases & Hexact); [vm_compute; reflexivity|].
    exists z. split; [done|]. apply Hexact.
    apply Qeq_bool_iff. vm_compute. reflexivity.
Defined.

(** ** The [map] callbacks, one phase at a time *)

Section MapWith.
Context {S A : Type} (f : A → S → A * S).

Lemma map_with_length (arr : list A) (st : S) :
  length (map_with f arr st).1 = length arr.
Proof.
  revert st. induction arr as [|x rest IH]; intros st; simpl; [done|].
  destruct (f x st) as [y st1]. specialize (IH st1).
  destruct (map_with f rest st1) as [ys st2]. simpl in *. by rewrite IH.
Qed.

(** A callback that returns its element and leaves the state alone on
    every element of the array. *)
Lemma map_with_unchanged (arr : list A) (st : S) :
  Forall (λ x, ∀ st', f x st' = (x, st')) arr → map_with f arr st = (arr, st).
Proof.
  induction 1 as [|x rest Hx _ IH]; simpl; [done|]. by rewrite Hx, IH.
Qed.

(** A callback that acts on the element at index [i] only. *)
Lemma map_with_single (arr : list A) (i : nat) (x : A) (st : S) :
  arr !! i = Some x →
  (∀ j y, arr !! j = Some y → j ≠ i → ∀ st', f y st' = (y, st')) →
  map_with f arr st = (<[i := (f x st).1]> arr, (f x st).2).
Proof.
  revert i. induction arr as [|a rest IH]; intros i Hi Hother; [done|].
  destruct i as [|i]; simpl in *.
  - injection Hi as ->. destruct (f x st) as [y st1].
    rewrite map_with_unchanged; [done|].
    apply Forall_lookup. intros j b Hb. by apply (Hother (Datatypes.S j)).
  - rewrite (Hother 0 a) by done.
    rewrite (IH i Hi); [done|].
    intros j b Hb Hne. apply (Hother (Datatypes.S j)); [done | lia].
Qed.

(** When the element a callback returns does not depend on the state, the
    array it builds is a plain [map]. *)
Lemma map_with_fst (g : A → A) (arr : list A) (st : S) :
  (∀ x st', (f x st').1 = g x) → (map_with f arr st).1 = map g arr.
Proof.
  intros Hg. revert st. induction arr as [|x rest IH]; intros st; simpl; [done|].
  specialize (Hg x st). destruct (f x st) as [y st1]. specialize (IH st1).
  destruct (map_with f rest st1) as [ys st2]. simpl in *. by rewrite Hg, IH.
Qed.
End MapWith.

Lemma toggle_phase_fst (phaseId : string) (clk : Clock) (p : ExperimentPhase)
    (t t' : Timers) :
  (toggle_phase phaseId clk p t).1 = (toggle_phase phaseId clk p t').1.
Proof. unfold toggle_phase. destruct (has_id _ _); [|done]. by destruct (status p). Qed.

Lemma tick_phase_fst (cb : Interval) (clk : Clock) (p : ExperimentPhase)
    (t t' : Timers) :
  (tick_phase cb clk p t).1 = (tick_phase cb clk p t').1.
Proof.
  unfold tick_phase. destruct (_ && _); [|done]. by destruct (reaches_100 _ _).
Qed.

Lemma togglePhaseExecution_phases (phaseId : string) (clk : Clock) (s : State) :
  experimentPhases (togglePhaseExecution phaseId clk s)
  = map (λ p, (toggle_phase phaseId clk p (timers s)).1) (experimentPhases s).
Proof.
  unfold togglePhaseExecution.
  rewrite <- (map_with_fst (toggle_phase phaseId clk) _ _ (timers s))
    by (intros; apply toggle_phase_fst).
  by destruct (map_with _ _ _).
Qed.

Lemma tick_phases (cb : Interval) (clk : Clock) (s : State) :
  experimentPhases (tick cb clk s)
  = map (λ p, (tick_phase cb clk p (timers s)).1) (experimentPhases s).
Proof.
  unfold tick.
  rewrite <- (map_with_fst (tick_phase cb clk) _ _ (timers s))
    by (intros; apply tick_phase_fst).
  by destruct (map_with _ _ _).
Qed.

Lemma toggle_phase_other (phaseId : string) (clk : Clock) (p : ExperimentPhase)
    (t : Timers) :
  id p ≠ phaseId → toggle_phase phaseId clk p t = (p, t).
Proof. intros H%has_id_false. unfold toggle_phase. by rewrite H. Qed.

Lemma tick_phase_other (cb : Interval) (clk : Clock) (p : ExperimentPhase)
    (t : Timers) :
  id p ≠ tick_id cb ∨ status p ≠ running → tick_phase cb clk p t = (p, t).
Proof.
  intros H. unfold tick_phase.
  destruct (has_id _ _ && _) eqn:E; [|done].
  apply andb_true_iff in E as [E1%has_id_true E2%bool_decide_eq_true].
  by destruct H.
Qed.

Lemma toggle_phase_id (phaseId : string) (clk : Clock) (p : ExperimentPhase)
    (t : Timers) :
  id (toggle_phase phaseId clk p t).1 = id p.
Proof. unfold toggle_phase. destruct (has_id _ _); [|done]. by destruct (status p). Qed.

Lemma tick_phase_id (cb : Interval) (clk : Clock) (p : ExperimentPhase) (t : Timers) :
  id (tick_phase cb clk p t).1 = id p.
Proof.
  unfold tick_phase. destruct (_ && _); [|done]. by destruct (reaches_100 _ _).
Qed.

(** ** Progress 100 and status completed *)

Lemma float_0_not_100 : 0%float = 100%float → False.
Proof.
  intros H. assert ((0 =? 100)%float = (100 =? 100)%float) as Habs by by rewrite H.
  by vm_compute in Habs.
Qed.

(** For 100, the [===] of JavaScript and equality of floats agree. *)
Lemma eqb_100 (x : float) : (x =? 100)%float = true ↔ x = 100%float.
Proof.
  split; [|by intros ->].
  rewrite FloatAxioms.eqb_spec. intros H. apply Prim2SF_inj. revert H.
  change (Prim2SF 100) with (S754_finite false 7036874417766400 (-46)).
  unfold SFeqb, SFcompare.
  destruct (Prim2SF x) as [[]|[]| |[] m e]; try done.
  destruct (e ?= -46)%Z eqn:He; try done.
  apply Z.compare_eq in He as ->.
  destruct (Pos.compare_cont Eq m 7036874417766400) eqn:Hm; try done.
  intros _. f_equal. by apply Pcompare_Eq_eq.
Qed.

Lemma toggle_phase_full_iff_completed (phaseId : string) (clk : Clock)
    (p : ExperimentPhase) (t : Timers) :
  full_iff_completed p → full_iff_completed (toggle_phase phaseId clk p t).1.
Proof.
  unfold full_iff_completed, toggle_phase. intros Hp.
  destruct (has_id _ _); [|done].
  destruct (status p) eqn:Hst; simpl; rewrite ?Hst; simpl;
    (split; [intros H | done]);
    first [ apply Hp in H; discriminate H | by apply float_0_not_100 in H ].
Qed.

Lemma tick_phase_full_iff_completed (cb : Interval) (clk : Clock)
    (p : ExperimentPhase) (t : Timers) :
  full_iff_completed p → full_iff_completed (tick_phase cb clk p t).1.
Proof.
  unfold full_iff_completed, tick_phase. intros Hp.
  destruct (has_id _ _ && _) eqn:E; [|done].
  apply andb_true_iff in E as [_ Hrun%bool_decide_eq_true].
  destruct (reaches_100 _ _) eqn:Hle; simpl.
  - by split.
  - rewrite Hrun. split; [|done]. intros Heq.
    unfold reaches_100 in Hle. rewrite Heq in Hle. by vm_compute in Hle.
Qed.

Lemma reorder_Permutation (sourcePhaseId targetPhaseId : string)
    (currentPhases : list ExperimentPhase) :
  sourcePhaseId ≠ targetPhaseId →
  reorder sourcePhaseId targetPhaseId currentPhases ≡ₚ currentPhases.
Proof.
  intros Hne.
  destruct (findIndex (has_id sourcePhaseId) currentPhases) as [i|] eqn:Hi;
    [|by unfold reorder; rewrite Hi].
  destruct (findIndex (has_id targetPhaseId) currentPhases) as [j|] eqn:Hj;
    [|by unfold reorder; rewrite Hi, Hj].
  destruct (reorder_found _ _ _ _ _ Hne Hi Hj)
    as (src & tgt & k & Hsrc & _ & _ & Htgt & _ & ->).
  etrans; [|symmetry; exact (delete_Permutation _ _ _ Hsrc)].
  rewrite <- Permutation_middle. f_equiv.
  by rewrite <- (drop_S _ _ _ Htgt), take_drop.
Qed.

Lemma handlePhaseDrop_Permutation (targetPhaseId : string) (s : State) :
  experimentPhases (handlePhaseDrop targetPhaseId s) ≡ₚ experimentPhases s.
Proof.
  unfold handlePhaseDrop. destruct (draggingItem s) as [[|src data]|]; [done| |done].
  repeat case_decide; try done. simpl. by apply reorder_Permutation.
Qed.

Lemma handlePhaseDrop_timers (targetPhaseId : string) (s : State) :
  timers (handlePhaseDrop targetPhaseId s) = timers s.
Proof.
  unfold handlePhaseDrop. destruct (draggingItem s) as [[|src data]|]; [done| |done].
  by repeat case_decide.
Qed.

Lemma handleCanvasDrop_phases (uuid : string) (s : State) :
  experimentPhases (handleCanvasDrop uuid s)
  = match draggingItem s with
    | Some (paletteItem block) => experimentPhases s ++ [newPhase uuid block]
    | _ => experimentPhases s
    end.
Proof. unfold handleCanvasDrop. by destruct (draggingItem s) as [[|]|]. Qed.

Lemma newPhase_full_iff_completed (uuid : string) (block : PaletteBlock) :
  full_iff_completed (newPhase uuid block).
Proof.
  unfold full_iff_completed. simpl. split; [|done].
  intros H. by apply float_0_not_100 in H.
Qed.

Lemma interval_fires_phases (h : positive) (clk : Clock) (s : State) :
  experimentPhases (interval_fires h clk s)
  = match liveIntervals (timers s) !! h with
    | Some cb => map (λ p, (tick_phase cb clk p (timers s)).1) (experimentPhases s)
    | None => experimentPhases s
    end.
Proof.
  unfold interval_fires. destruct (_ !! h); [apply tick_phases | done].
Qed.

Lemma removePhase_phases (phaseId : string) (s : State) :
  experimentPhases (removePhase phaseId s)
  = filter (λ p, id p ≠ phaseId) (experimentPhases s).
Proof. unfold removePhase. simpl. by destruct (_ !! phaseId). Qed.

(** Every handler keeps [full_iff_completed] on every phase. *)
Lemma handle_full_iff_completed (s : State) (ev : Event) :
  Forall full_iff_completed (experimentPhases s) →
  Forall full_iff_completed (experimentPhases (handle s ev)).
Proof.
  intros Hinv. destruct ev; cbn [handle]; try done.
  - unfold handleCanvasDragLeave. by destruct targetIsCanvas.
  - rewrite handleCanvasDrop_phases. destruct (draggingItem s) as [[block|]|]; [|done..].
    apply Forall_app. split; [done|]. constructor; [|done].
    apply newPhase_full_iff_completed.
  - unfold handlePhaseDragEnter. destruct (draggingItem s) as [[|]|]; [done| |done].
    by case_decide.
  - unfold handlePhaseDragLeave. by case_decide.
  - by rewrite handlePhaseDrop_Permutation.
  - rewrite removePhase_phases. apply Forall_forall.
    intros p [_ Hp]%list_elem_of_filter. by eapply Forall_forall in Hinv.
  - unfold updatePhaseText. simpl. apply Forall_map.
    eapply Forall_impl; [done|]. intros p Hp. by destruct (has_id _ _).
  - rewrite togglePhaseExecution_phases. apply Forall_map.
    eapply Forall_impl; [done|]. intros p. apply toggle_phase_full_iff_completed.
  - rewrite interval_fires_phases. destruct (_ !! h); [|done]. apply Forall_map.
    eapply Forall_impl; [done|]. intros p. apply tick_phase_full_iff_completed.
Qed.

Lemma runAll_loop_full_iff_completed (clk : Clock) (snapshot : list ExperimentPhase)
    (s : State) :
  Forall full_iff_completed (experimentPhases s) →
  Forall full_iff_completed (experimentPhases (runAll_loop clk snapshot s).1).
Proof.
  intros Hinv. induction snapshot as [|phase rest IH]; simpl; [done|].
  destruct (find _ _) as [cur|]; [|done].
  destruct (can_start _); [|done]. simpl.
  apply (handle_full_iff_completed s (ClickToggle (id phase) clk) Hinv).
Qed.

Lemma handle_under_runAll_full_iff_completed (sr : State * RunAll)
    (ev : Event * Clock) :
  Forall full_iff_completed (experimentPhases sr.1) →
  Forall full_iff_completed (experimentPhases (handle_under_runAll sr ev).1).
Proof.
  intros Hinv. unfold handle_under_runAll, runAll_resume.
  pose proof (handle_full_iff_completed _ ev.1 Hinv) as Hinv'.
  destruct sr.2 as [x rest|]; [|done].
  destruct (resolves _ _); [|done]. by apply runAll_loop_full_iff_completed.
Qed.

Lemma full_iff_completed_eqb (phases : list ExperimentPhase) :
  Forall full_iff_completed phases →
  Forall (λ p, (progress p =? 100)%float = true ↔ status p = completed) phases.
Proof.
  intros Hall. eapply Forall_impl; [exact Hall|].
  intros p Hp. by rewrite eqb_100.
Qed.

(** C5: after any sequence of events from the empty canvas (drops,
    toggles, runs of interval callbacks, removals, reorderings, text
    edits), and also while a call of [runAllPhases] is in flight, every
    phase has [progress === 100] exactly when its status is completed. *)
Theorem progress_100_iff_completed (evs : list Event) (clk : Clock)
    (later : list (Event * Clock)) :
  Forall (λ p, (progress p =? 100)%float = true ↔ status p = completed)
    (experimentPhases (run evs))
  ∧ Forall (λ p, (progress p =? 100)%float = true ↔ status p = completed)
      (experimentPhases
         (fold_left handle_under_runAll later (runAllPhases clk (run evs))).1).
Proof.
  assert (∀ s, Forall full_iff_completed (experimentPhases s) →
               Forall full_iff_completed (experimentPhases (fold_left handle evs s)))
    as Hrun.
  { induction evs as [|ev evs IH]; intros s Hs; simpl; [done|].
    by apply IH, handle_full_iff_completed. }
  assert (Forall full_iff_completed (experimentPhases (run evs))) as Hreach
    by (apply Hrun; constructor).
  split; [by apply full_iff_completed_eqb|]. apply full_iff_completed_eqb.
  assert (Forall full_iff_completed
            (experimentPhases (runAllPhases clk (run evs)).1)) as Hstart
    by by apply runAll_loop_full_iff_completed.
  revert Hstart. generalize (runAllPhases clk (run evs)).
  induction later as [|ev later IH]; intros sr Hsr; simpl; [done|].
  by apply IH, handle_under_runAll_full_iff_completed.
Qed.

(** ** Operations addressed to one phase *)

Lemma filter_map_other (phaseId : string) (f : ExperimentPhase → ExperimentPhase)
    (phases : list ExperimentPhase) :
  (∀ p, id (f p) = id p) → (∀ p, id p ≠ phaseId → f p = p) →
  filter (λ p, id p ≠ phaseId) (map f phases)
  = filter (λ p, id p ≠ phaseId) phases.
Proof.
  intros Hid Hother. induction phases as [|p rest IH]; [done|].
  cbn [map]. rewrite !filter_cons, Hid, IH.
  case_decide; [|done]. by rewrite Hother.
Qed.

Lemma map_absent (phaseId : string) (f : ExperimentPhase → ExperimentPhase)
    (phases : list ExperimentPhase) :
  (∀ p, id p ≠ phaseId → f p = p) → phaseId ∉ map id phases →
  map f phases = phases.
Proof.
  intros Hother Habs. induction phases as [|p rest IH]; [done|].
  cbn [map] in *. apply not_elem_of_cons in Habs as [Hne Habs].
  by rewrite Hother, IH.
Qed.

Lemma filter_absent (phaseId : string) (phases : list ExperimentPhase) :
  phaseId ∉ map id phases → filter (λ p, id p ≠ phaseId) phases = phases.
Proof.
  intros Habs. induction phases as [|p rest IH]; [done|].
  cbn [map] in *. apply not_elem_of_cons in Habs as [Hne Habs].
  rewrite filter_cons_True by done. by rewrite IH.
Qed.

Lemma with_text_other (phaseId newText : string) (p : ExperimentPhase) :
  id p ≠ phaseId → (if has_id phaseId p then with_text newText p else p) = p.
Proof. intros H%has_id_false. by rewrite H. Qed.

(** C10: [togglePhaseExecution], [updatePhaseText] and [removePhase],
    called for an id, leave every phase with another id as it was: the
    first two keep each such phase at its index, and for all three the
    phases with another id are, in order, the ones there were before. Called
    with an id that no phase has, each of them leaves the array of phases
    as it was. *)
Theorem single_phase_operations_frame (s : State) (phaseId newText : string)
    (clk : Clock) :
  (∀ i p, experimentPhases s !! i = Some p → id p ≠ phaseId →
     experimentPhases (togglePhaseExecution phaseId clk s) !! i = Some p
     ∧ experimentPhases (updatePhaseText phaseId newText s) !! i = Some p
     ∧ p ∈ experimentPhases (removePhase phaseId s))
  ∧ filter (λ p, id p ≠ phaseId) (experimentPhases (togglePhaseExecution phaseId clk s))
    = filter (λ p, id p ≠ phaseId) (experimentPhases s)
  ∧ filter (λ p, id p ≠ phaseId) (experimentPhases (updatePhaseText phaseId newText s))
    = filter (λ p, id p ≠ phaseId) (experimentPhases s)
  ∧ experimentPhases (removePhase phaseId s)
    = filter (λ p, id p ≠ phaseId) (experimentPhases s)
  ∧ length (experimentPhases (togglePhaseExecution phaseId clk s))
    = length (experimentPhases s)
  ∧ length (experimentPhases (updatePhaseText phaseId newText s))
    = length (experimentPhases s)
  ∧ (phaseId ∉ map id (experimentPhases s) →
     experimentPhases (togglePhaseExecution phaseId clk s) = experimentPhases s
     ∧ experimentPhases (updatePhaseText phaseId newText s) = experimentPhases s
     ∧ experimentPhases (removePhase phaseId s) = experimentPhases s).
Proof.
  rewrite togglePhaseExecution_phases, removePhase_phases.
  unfold updatePhaseText. cbn [experimentPhases set_experimentPhases].
  assert (∀ p, id p ≠ phaseId → (toggle_phase phaseId clk p (timers s)).1 = p)
    as Htoggle by (intros p Hp; by rewrite toggle_phase_other).
  split_and!.
  - intros i p Hp Hne. rewrite !list_lookup_fmap, Hp. cbn.
    rewrite Htoggle, with_text_other by done. split_and!; try done.
    apply list_elem_of_filter. split; [done|]. by eapply list_elem_of_lookup_2.
  - apply filter_map_other; [|done]. intros p. apply toggle_phase_id.
  - apply filter_map_other.
    + intros p. by destruct (has_id _ _).
    + intros p. apply with_text_other.
  - done.
  - by rewrite length_map.
  - by rewrite length_map.
  - intros Habs. split_and!.
    + by apply (map_absent phaseId).
    + apply (map_absent phaseId); [|done]. intros p. apply with_text_other.
    + by apply filter_absent.
Qed.

Lemma single_phase_operations_frame_witness :
  experimentPhases (togglePhaseExecution "b" sample_clock sample_abc) !! 0
  = Some (sample_phase "a")
  ∧ experimentPhases (removePhase "z" sample_abc) = experimentPhases sample_abc.
Proof.
  split.
  - apply (proj1 (single_phase_operations_frame sample_abc "b" "" sample_clock)
             0 (sample_phase "a")).
    + vm_compute. reflexivity.
    + vm_compute. intros H. discriminate H.
  - apply (single_phase_operations_frame sample_abc "z" "" sample_clock).
    apply (bool_decide_unpack _). vm_compute. exact I.
Defined.

(** ** Intervals *)

Lemma map_with_snd_preserved {S A : Type} (f : A → S → A * S) (P : S → Prop)
    (arr : list A) (st : S) :
  Forall (λ x, ∀ st', P st' → P (f x st').2) arr → P st → P (map_with f arr st).2.
Proof.
  intros Hall. revert st. induction Hall as [|x rest Hx _ IH]; intros st Hst; [done|].
  simpl. specialize (Hx st Hst). destruct (f x st) as [y st1].
  specialize (IH st1 Hx). by destruct (map_with f rest st1).
Qed.

(** [clearInterval(phaseIntervals[x]); delete phaseIntervals[x]] *)
Lemma cancel_tracked (x : string) (t : Timers) :
  timers_tracked t →
  timers_tracked (delete_phaseInterval x (clearInterval (phaseIntervals t !! x) t)).
Proof.
  intros [Hreg Hold]. split.
  - intros h cb. destruct (phaseIntervals t !! x) as [h0|] eqn:Hx; simpl.
    + intros [Hne Hlive]%lookup_delete_Some. pose proof (Hreg _ _ Hlive) as Hcb.
      rewrite lookup_delete_ne; [done|]. intros ->. congruence.
    + intros Hlive. pose proof (Hreg _ _ Hlive) as Hcb.
      rewrite lookup_delete_ne; [done|]. intros ->. congruence.
  - intros h. destruct (phaseIntervals t !! x) as [h0|]; simpl; [|by apply Hold].
    rewrite lookup_delete_is_Some. intros [_ ?]. by apply Hold.
Qed.

Lemma cancel_lookup (x y : string) (t : Timers) :
  phaseIntervals (delete_phaseInterval x (clearInterval (phaseIntervals t !! x) t)) !! y
  = if decide (x = y) then None else phaseIntervals t !! y.
Proof.
  destruct (phaseIntervals t !! x); simpl; by rewrite lookup_delete.
Qed.

(** [clearInterval(phaseIntervals[x]); phaseIntervals[x] = setInterval(...)] *)
Lemma start_tracked (x : string) (cb : Interval) (t : Timers) :
  tick_id cb = x → timers_tracked t →
  timers_tracked (setInterval x cb (clearInterval (phaseIntervals t !! x) t)).
Proof.
  intros Hcb [Hreg Hold].
  assert (∀ h cb', liveIntervals (clearInterval (phaseIntervals t !! x) t) !! h = Some cb' →
            liveIntervals t !! h = Some cb' ∧ phaseIntervals t !! x ≠ Some h) as Hclear.
  { intros h cb'. destruct (phaseIntervals t !! x) as [h0|]; simpl.
    - intros [Hne Hlive]%lookup_delete_Some. split; [done | congruence].
    - done. }
  assert (nextHandle (clearInterval (phaseIntervals t !! x) t) = nextHandle t
          ∧ phaseIntervals (clearInterval (phaseIntervals t !! x) t) = phaseIntervals t)
    as [Hnext Hsame] by by destruct (phaseIntervals t !! x).
  split.
  - intros h cb'. unfold setInterval. simpl. rewrite Hnext, Hsame.
    intros [[Hh Hc]|[Hne Hlive]]%lookup_insert_Some.
    + rewrite <- Hc, Hcb, <- Hh. apply lookup_insert_eq.
    + apply Hclear in Hlive as [Hlive Hx]. pose proof (Hreg _ _ Hlive) as Hreg'.
      rewrite lookup_insert_ne; [done|]. intros Heq. rewrite <- Heq in Hreg'.
      congruence.
  - intros h. unfold setInterval. simpl. rewrite Hnext.
    rewrite lookup_insert_is_Some. intros [<-|[Hne [cb' Hlive]]]; [lia|].
    apply Hclear in Hlive as [Hlive _].
    assert (h < nextHandle t)%positive by (apply Hold; by eexists). lia.
Qed.

Lemma start_lookup (x y : string) (cb : Interval) (t : Timers) :
  x ≠ y →
  phaseIntervals (setInterval x cb (clearInterval (phaseIntervals t !! x) t)) !! y
  = phaseIntervals t !! y.
Proof.
  intros Hne. unfold setInterval. simpl. rewrite lookup_insert_ne by done.
  by destruct (phaseIntervals t !! x).
Qed.

Lemma toggle_phase_tracked (phaseId : string) (clk : Clock) (p : ExperimentPhase)
    (t : Timers) :
  timers_tracked t → timers_tracked (toggle_phase phaseId clk p t).2.
Proof.
  intros Ht. unfold toggle_phase. destruct (has_id _ _); [|done].
  destruct (status p); simpl;
    first [ by apply cancel_tracked | by apply start_tracked | done ].
Qed.

Lemma tick_phase_tracked (cb : Interval) (clk : Clock) (p : ExperimentPhase)
    (t : Timers) :
  timers_tracked t → timers_tracked (tick_phase cb clk p t).2.
Proof.
  intros Ht. unfold tick_phase. destruct (_ && _); [|done].
  destruct (reaches_100 _ _); simpl; [by apply cancel_tracked | done].
Qed.

Lemma toggle_phase_lookup (phaseId y : string) (clk : Clock) (p : ExperimentPhase)
    (t : Timers) :
  id p ≠ y → phaseIntervals (toggle_phase phaseId clk p t).2 !! y = phaseIntervals t !! y.
Proof.
  intros Hne. unfold toggle_phase. destruct (has_id _ _); [|done].
  destruct (status p); cbn [fst snd].
  - by apply start_lookup.
  - rewrite cancel_lookup. by case_decide.
  - by apply start_lookup.
  - done.
  - by apply start_lookup.
Qed.

Lemma tick_phase_lookup (cb : Interval) (y : string) (clk : Clock)
    (p : ExperimentPhase) (t : Timers) :
  id p ≠ y → phaseIntervals (tick_phase cb clk p t).2 !! y = phaseIntervals t !! y.
Proof.
  intros Hne. unfold tick_phase. destruct (has_id _ _ && _) eqn:E; [|done].
  apply andb_true_iff in E as [E%has_id_true _].
  destruct (reaches_100 _ _); cbn [fst snd]; [|done].
  rewrite cancel_lookup. case_decide; congruence.
Qed.

Lemma togglePhaseExecution_timers (phaseId : string) (clk : Clock) (s : State) :
  timers (togglePhaseExecution phaseId clk s)
  = (map_with (toggle_phase phaseId clk) (experimentPhases s) (timers s)).2.
Proof. unfold togglePhaseExecution. by destruct (map_with _ _ _). Qed.

Lemma tick_timers (cb : Interval) (clk : Clock) (s : State) :
  timers (tick cb clk s)
  = (map_with (tick_phase cb clk) (experimentPhases s) (timers s)).2.
Proof. unfold tick. by destruct (map_with _ _ _). Qed.

Lemma removePhase_timers (phaseId : string) (s : State) :
  timers (removePhase phaseId s)
  = delete_phaseInterval phaseId
      (clearInterval (phaseIntervals (timers s) !! phaseId) (timers s)).
Proof.
  unfold removePhase. simpl.
  destruct (phaseIntervals (timers s) !! phaseId) eqn:E; simpl; [done|].
  destruct (timers s) as [pI live next]. simpl in *.
  unfold delete_phaseInterval. simpl. by rewrite delete_id.
Qed.

Lemma handleCanvasDrop_timers (uuid : string) (s : State) :
  timers (handleCanvasDrop uuid s) = timers s.
Proof. unfold handleCanvasDrop. by destruct (draggingItem s) as [[|]|]. Qed.

(** No handler loses track of an interval. *)
Lemma handle_tracked (s : State) (ev : Event) :
  timers_tracked (timers s) → timers_tracked (timers (handle s ev)).
Proof.
  intros Ht. destruct ev; cbn [handle]; try done.
  - unfold handleCanvasDragLeave. by destruct targetIsCanvas.
  - by rewrite handleCanvasDrop_timers.
  - unfold handlePhaseDragEnter. destruct (draggingItem s) as [[|]|]; [done| |done].
    by case_decide.
  - unfold handlePhaseDragLeave. by case_decide.
  - by rewrite handlePhaseDrop_timers.
  - rewrite removePhase_timers. by apply cancel_tracked.
  - rewrite togglePhaseExecution_timers. apply map_with_snd_preserved; [|done].
    apply Forall_forall. intros p _ t. apply toggle_phase_tracked.
  - unfold interval_fires. destruct (_ !! h); [|done].
    rewrite tick_timers. apply map_with_snd_preserved; [|done].
    apply Forall_forall. intros p _ t. apply tick_phase_tracked.
Qed.

Lemma run_tracked (evs : list Event) : timers_tracked (timers (run evs)).
Proof.
  unfold run. assert (timers_tracked (timers initial)) as Hinit.
  { split; intros h; simpl; [intros cb|]; rewrite lookup_empty; [done|].
    by intros [? ?]. }
  revert Hinit. generalize initial.
  induction evs as [|ev evs IH]; intros s Hs; simpl; [done|].
  by apply IH, handle_tracked.
Qed.

(** ** Removal *)

Lemma map_id_preserved (f : ExperimentPhase → ExperimentPhase)
    (phases : list ExperimentPhase) :
  (∀ p, id (f p) = id p) → map id (map f phases) = map id phases.
Proof.
  intros Hid. rewrite map_map. apply map_ext. intros p. apply Hid.
Qed.

Lemma togglePhaseExecution_ids (phaseId : string) (clk : Clock) (s : State) :
  map id (experimentPhases (togglePhaseExecution phaseId clk s))
  = map id (experimentPhases s).
Proof.
  rewrite togglePhaseExecution_phases. apply map_id_preserved.
  intros p. apply toggle_phase_id.
Qed.

Lemma interval_fires_ids (h : positive) (clk : Clock) (s : State) :
  map id (experimentPhases (interval_fires h clk s)) = map id (experimentPhases s).
Proof.
  rewrite interval_fires_phases. destruct (_ !! h); [|done].
  apply map_id_preserved. intros p. apply tick_phase_id.
Qed.

Lemma updatePhaseText_ids (phaseId newText : string) (s : State) :
  map id (experimentPhases (updatePhaseText phaseId newText s))
  = map id (experimentPhases s).
Proof.
  unfold updatePhaseText. simpl. apply map_id_preserved.
  intros p. by destruct (has_id _ _).
Qed.

(** An id enters the canvas only through a drop that was given it. *)
Lemma handle_ids (s : State) (ev : Event) (x : string) :
  x ∈ map id (experimentPhases (handle s ev)) →
  x ∈ map id (experimentPhases s) ∨ ev = CanvasDrop x.
Proof.
  destruct ev; cbn [handle]; try (by left).
  - unfold handleCanvasDragLeave. destruct targetIsCanvas; by left.
  - rewrite handleCanvasDrop_phases. destruct (draggingItem s) as [[block|]|]; try (by left).
    rewrite map_app, elem_of_app. cbn. rewrite list_elem_of_singleton.
    intros [? | ->]; [by left | by right].
  - unfold handlePhaseDragEnter. destruct (draggingItem s) as [[|]|]; try (by left).
    case_decide; by left.
  - unfold handlePhaseDragLeave. case_decide; by left.
  - rewrite handlePhaseDrop_Permutation. by left.
  - rewrite removePhase_phases. intros (p & -> & [_ Hp]%list_elem_of_filter)%list_elem_of_fmap.
    left. by apply list_elem_of_fmap_2.
  - rewrite updatePhaseText_ids. by left.
  - rewrite togglePhaseExecution_ids. by left.
  - rewrite interval_fires_ids. by left.
Qed.

Lemma map_with_lookup_absent (f : ExperimentPhase → Timers → ExperimentPhase * Timers)
    (x : string) (phases : list ExperimentPhase) (t : Timers) :
  (∀ p t', id p ≠ x → phaseIntervals (f p t').2 !! x = phaseIntervals t' !! x) →
  x ∉ map id phases →
  phaseIntervals (map_with f phases t).2 !! x = phaseIntervals t !! x.
Proof.
  intros Hf Habs.
  apply (map_with_snd_preserved f
           (λ t', phaseIntervals t' !! x = phaseIntervals t !! x)); [|done].
  apply Forall_forall. intros p Hp t' <-. apply Hf. intros <-.
  apply Habs. by apply list_elem_of_fmap_2.
Qed.

Lemma handle_forgotten (s : State) (ev : Event) (x : string) :
  ev ≠ CanvasDrop x → forgotten x s → forgotten x (handle s ev).
Proof.
  intros Hev [Habs Hnone]. split.
  - intros [?|?]%handle_ids; done.
  - rewrite <- Hnone. destruct ev; cbn [handle]; try done.
    + unfold handleCanvasDragLeave. by destruct targetIsCanvas.
    + by rewrite handleCanvasDrop_timers.
    + unfold handlePhaseDragEnter. destruct (draggingItem s) as [[|]|]; [done| |done].
      by case_decide.
    + unfold handlePhaseDragLeave. by case_decide.
    + by rewrite handlePhaseDrop_timers.
    + rewrite removePhase_timers, cancel_lookup. by case_decide.
    + rewrite togglePhaseExecution_timers. apply map_with_lookup_absent; [|done].
      intros p t'. apply toggle_phase_lookup.
    + unfold interval_fires. destruct (_ !! h); [|done].
      rewrite tick_timers. apply map_with_lookup_absent; [|done].
      intros p t'. apply tick_phase_lookup.
Qed.

Lemma forgotten_no_live (x : string) (s : State) :
  timers_tracked (timers s) → forgotten x s →
  ∀ h cb, liveIntervals (timers s) !! h = Some cb → tick_id cb ≠ x.
Proof.
  intros [Hreg _] [_ Hnone] h cb Hlive <-. apply Hreg in Hlive. congruence.
Qed.

Lemma tick_absent (cb : Interval) (clk : Clock) (s : State) :
  tick_id cb ∉ map id (experimentPhases s) → tick cb clk s = s.
Proof.
  intros Habs. unfold tick. rewrite map_with_unchanged; [by destruct s|].
  apply Forall_forall. intros p Hp t. apply tick_phase_other. left.
  intros Heq. apply Habs. rewrite <- Heq. by apply list_elem_of_fmap_2.
Qed.

(** C7: in every state the events can reach, [removePhase] for an id
    clears the interval registered under that id in the same call and
    forgets the registration. Afterwards no live interval has a callback
    for that id, so none can fire for it, whether or not 200ms have
    passed; the callback itself, were it run, would change nothing; and
    this stays so after any further events (as long as no later drop is
    given the same id again). *)
Theorem removePhase_cancels_interval (evs : list Event) (phaseId : string) :
  let s := run evs in
  let s' := removePhase phaseId s in
  phaseIntervals (timers s') !! phaseId = None
  ∧ (∀ h, phaseIntervals (timers s) !! phaseId = Some h →
          liveIntervals (timers s') !! h = None)
  ∧ (∀ h cb, liveIntervals (timers s') !! h = Some cb → tick_id cb ≠ phaseId)
  ∧ (phaseId ∉ map id (experimentPhases s'))
  ∧ (∀ cb clk, tick_id cb = phaseId → tick cb clk s' = s')
  ∧ (∀ later, Forall (λ ev, ev ≠ CanvasDrop phaseId) later →
       let s'' := fold_left handle later s' in
       forgotten phaseId s''
       ∧ (∀ h cb, liveIntervals (timers s'') !! h = Some cb → tick_id cb ≠ phaseId)
       ∧ (∀ h clk, forgotten phaseId (interval_fires h clk s''))).
Proof.
  intros s s'.
  pose proof (run_tracked evs) as Hs. fold s in Hs.
  assert (timers_tracked (timers s')) as Hs'
    by apply (handle_tracked s (ClickRemove phaseId) Hs).
  assert (forgotten phaseId s') as Hgone.
  { split.
    - unfold s'. rewrite removePhase_phases.
      intros (p & Hid & [Hne _]%list_elem_of_filter)%list_elem_of_fmap. done.
    - unfold s'. rewrite removePhase_timers, cancel_lookup. by case_decide. }
  split_and!.
  - apply Hgone.
  - intros h Hh. unfold s'. rewrite removePhase_timers, Hh. simpl.
    apply lookup_delete_eq.
  - by apply forgotten_no_live.
  - apply Hgone.
  - intros cb clk <-. apply tick_absent, Hgone.
  - intros later Hlater.
    assert (∀ st, timers_tracked (timers st) → forgotten phaseId st →
              timers_tracked (timers (fold_left handle later st))
              ∧ forgotten phaseId (fold_left handle later st)) as Hstay.
    { induction Hlater as [|ev later Hev _ IH]; intros st Ht Hf; [done|].
      simpl. apply IH; [by apply handle_tracked | by apply handle_forgotten]. }
    destruct (Hstay s' Hs' Hgone) as [Ht Hf]. cbn zeta. split_and!.
    + done.
    + by apply forgotten_no_live.
    + intros h clk.
      by apply (handle_forgotten _ (IntervalFires h clk)).
Qed.

(** ** Uninterrupted runs of one interval *)

Lemma NoDup_ids_other (phases : list ExperimentPhase) (i j : nat)
    (p q : ExperimentPhase) :
  NoDup (map id phases) → phases !! i = Some p → phases !! j = Some q →
  j ≠ i → id q ≠ id p.
Proof.
  intros Hnd Hp Hq Hne Heq. apply Hne.
  apply (NoDup_lookup (map id phases) j i (id p)); [done|..];
    rewrite list_lookup_fmap; [rewrite Hq | rewrite Hp]; simpl; congruence.
Qed.

Lemma togglePhaseExecution_at (s : State) (i : nat) (p : ExperimentPhase)
    (clk : Clock) :
  NoDup (map id (experimentPhases s)) → experimentPhases s !! i = Some p →
  experimentPhases (togglePhaseExecution (id p) clk s)
  = <[i := (toggle_phase (id p) clk p (timers s)).1]> (experimentPhases s)
  ∧ timers (togglePhaseExecution (id p) clk s)
    = (toggle_phase (id p) clk p (timers s)).2.
Proof.
  intros Hnd Hp. unfold togglePhaseExecution.
  rewrite (map_with_single _ _ i p _ Hp); [done|].
  intros j q Hq Hne t. apply toggle_phase_other. by eapply NoDup_ids_other.
Qed.

Lemma tick_at (s : State) (i : nat) (p : ExperimentPhase) (cb : Interval)
    (clk : Clock) :
  NoDup (map id (experimentPhases s)) → experimentPhases s !! i = Some p →
  tick_id cb = id p →
  experimentPhases (tick cb clk s)
  = <[i := (tick_phase cb clk p (timers s)).1]> (experimentPhases s)
  ∧ timers (tick cb clk s) = (tick_phase cb clk p (timers s)).2.
Proof.
  intros Hnd Hp Hcb. unfold tick.
  rewrite (map_with_single _ _ i p _ Hp); [done|].
  intros j q Hq Hne t. apply tick_phase_other. left. rewrite Hcb.
  by eapply NoDup_ids_other.
Qed.

Lemma insert_ids (phases : list ExperimentPhase) (i : nat) (p q : ExperimentPhase) :
  phases !! i = Some p → id q = id p → map id (<[i := q]> phases) = map id phases.
Proof.
  intros Hp Hid. rewrite list_fmap_insert, Hid. apply list_insert_id.
  by rewrite list_lookup_fmap, Hp.
Qed.

(** One run of the callback that stays below 100: the new progress is
    stored and the interval stays. *)
Lemma interval_fires_running (s : State) (i : nat) (x : string) (h : positive)
    (d P : float) (clk : Clock) :
  running_at s i x h d P → reaches_100 P d = false →
  running_at (interval_fires h clk s) i x h d (newProgress P d).
Proof.
  intros (Hnd & p & cb & Hp & Hid & Hst & Hpr & Hreg & Hlive & Hcb & Hd) Hlt.
  unfold interval_fires. rewrite Hlive.
  destruct (tick_at s i p cb clk Hnd Hp) as [Hphases Htimers]; [congruence|].
  assert (tick_phase cb clk p (timers s)
          = (with_progress (newProgress P d) p, timers s)) as Htick.
  { unfold tick_phase. rewrite Hcb, <- Hid. unfold has_id.
    rewrite !bool_decide_eq_true_2 by done. cbn [andb].
    by rewrite Hpr, Hd, Hlt. }
  rewrite Htick in Hphases, Htimers. cbn [fst snd] in *. split.
  - rewrite Hphases. by rewrite (insert_ids _ _ p).
  - eexists _, cb. rewrite Hphases, Htimers.
    rewrite list_lookup_insert_eq by (by eapply lookup_lt_Some).
    by repeat split.
Qed.

(** One run of the callback that reaches 100: the phase is completed and
    its interval is cleared. *)
Lemma interval_fires_completes (s : State) (i : nat) (x : string) (h : positive)
    (d P : float) (clk : Clock) :
  running_at s i x h d P → reaches_100 P d = true →
  completed_at (interval_fires h clk s) i x h.
Proof.
  intros (Hnd & p & cb & Hp & Hid & Hst & Hpr & Hreg & Hlive & Hcb & Hd) Hge.
  unfold interval_fires. rewrite Hlive.
  destruct (tick_at s i p cb clk Hnd Hp) as [Hphases Htimers]; [congruence|].
  assert (tick_phase cb clk p (timers s)
          = (completed_phase (startTime cb) clk p,
             delete_phaseInterval x (clearInterval (Some h) (timers s))))
    as Htick.
  { unfold tick_phase. rewrite Hcb, <- Hid. unfold has_id.
    rewrite !bool_decide_eq_true_2 by done. cbn [andb].
    by rewrite Hpr, Hd, Hge, Hid, Hreg. }
  rewrite Htick in Hphases, Htimers. cbn [fst snd] in *.
  eexists. rewrite Hphases, Htimers.
  rewrite list_lookup_insert_eq by (by eapply lookup_lt_Some).
  split; [done|]. simpl. split_and!; try done;
    first [ by eexists | apply lookup_delete_eq ].
Qed.

(** Runs in a row: when the run that reaches 100 is the [n]-th, the phase
    is still running after fewer runs, at the progress the additions give,
    and completed by the [n]-th. *)
Lemma fires_runs_needed (i : nat) (x : string) (h : positive) (d : float)
    (fuel : nat) :
  ∀ (s : State) (P : float) (n : nat) (clks : list Clock),
    running_at s i x h d P → runs_needed d P fuel = Some n →
    (length clks < n →
     running_at (fires h clks s) i x h d (progress_from d P (length clks)))
    ∧ (length clks = n → completed_at (fires h clks s) i x h).
Proof.
  induction fuel as [|fuel IH]; intros s P n clks Hrun; [done|].
  cbn [runs_needed]. destruct (reaches_100 P d) eqn:Hreach.
  - intros [= <-]. split.
    + intros Hlen. destruct clks; [done | simpl in Hlen; lia].
    + intros Hlen. destruct clks as [|clk [|]]; try done.
      by eapply interval_fires_completes.
  - intros (n' & Hn' & ->)%fmap_Some. destruct clks as [|clk clks].
    + split; [done | done].
    + cbn [length fires fold_left progress_from].
      destruct (IH (interval_fires h clk s) (newProgress P d) n' clks) as [Hlt Heq];
        [by apply interval_fires_running | done |].
      split; intros Hlen; [apply Hlt | apply Heq]; lia.
Qed.

(** Starting a phase that is pending, paused or failed: it runs from 0, or
    from where it was paused, with a fresh interval registered under its
    id. *)
Lemma togglePhaseExecution_starts (s : State) (i : nat) (p : ExperimentPhase)
    (clk : Clock) :
  NoDup (map id (experimentPhases s)) → experimentPhases s !! i = Some p →
  status p ≠ running → status p ≠ completed →
  experimentPhases (togglePhaseExecution (id p) clk s)
  = <[i := started_phase clk p]> (experimentPhases s)
  ∧ running_at (togglePhaseExecution (id p) clk s) i (id p) (nextHandle (timers s))
      (increment_of (estimatedDuration p))
      (if decide (status p = paused) then progress p else 0%float).
Proof.
  intros Hnd Hp Hnr Hnc.
  destruct (togglePhaseExecution_at s i p clk Hnd Hp) as [Hphases Htimers].
  set (cb := {| tick_id := id p;
                progressIncrement := increment_of (estimatedDuration p);
                startTime := now clk;
                delay := 200 |}).
  assert (toggle_phase (id p) clk p (timers s)
          = (started_phase clk p,
             setInterval (id p) cb
               (clearInterval (phaseIntervals (timers s) !! id p) (timers s))))
    as Htoggle.
  { unfold toggle_phase, has_id. rewrite bool_decide_eq_true_2 by done.
    by destruct (status p). }
  rewrite Htoggle in Hphases, Htimers. cbn [fst snd] in *.
  split; [done|]. split.
  - rewrite Hphases. by rewrite (insert_ids _ _ p).
  - exists (started_phase clk p), cb. rewrite Hphases, Htimers.
    rewrite list_lookup_insert_eq by (by eapply lookup_lt_Some).
    assert (nextHandle (clearInterval (phaseIntervals (timers s) !! id p) (timers s))
            = nextHandle (timers s)) as Hnext
      by by destruct (phaseIntervals (timers s) !! id p).
    unfold setInterval. cbn [phaseIntervals liveIntervals]. rewrite Hnext.
    rewrite !lookup_insert_eq. by split_and!.
Qed.

(** ** Pause and resume *)

(** Toggling a running phase: it is paused as it is, its interval is
    cleared and the registration deleted. *)
Lemma togglePhaseExecution_pauses (s : State) (i : nat) (p : ExperimentPhase)
    (clk : Clock) :
  NoDup (map id (experimentPhases s)) → experimentPhases s !! i = Some p →
  status p = running →
  experimentPhases (togglePhaseExecution (id p) clk s)
  = <[i := paused_phase p]> (experimentPhases s)
  ∧ timers (togglePhaseExecution (id p) clk s)
    = delete_phaseInterval (id p)
        (clearInterval (phaseIntervals (timers s) !! id p) (timers s)).
Proof.
  intros Hnd Hp Hst.
  destruct (togglePhaseExecution_at s i p clk Hnd Hp) as [Hphases Htimers].
  assert (toggle_phase (id p) clk p (timers s)
          = (paused_phase p,
             delete_phaseInterval (id p)
               (clearInterval (phaseIntervals (timers s) !! id p) (timers s))))
    as Htoggle.
  { unfold toggle_phase, has_id. rewrite bool_decide_eq_true_2 by done.
    by rewrite Hst. }
  by rewrite Htoggle in Hphases, Htimers.
Qed.

(** Toggling a running phase clears its interval, deletes the
    registration and leaves the phase paused with its progress as it was;
    toggling it again starts a fresh interval with the same increment from
    that progress, not from 0. *)
Lemma pause_then_resume (s : State) (i : nat) (p : ExperimentPhase)
    (clk clk' : Clock) :
  NoDup (map id (experimentPhases s)) →
  experimentPhases s !! i = Some p →
  status p = running →
  let x := id p in
  let s1 := togglePhaseExecution x clk s in
  let s2 := togglePhaseExecution x clk' s1 in
  let h := nextHandle (timers s1) in
  experimentPhases s1 = <[i := paused_phase p]> (experimentPhases s)
  ∧ (∃ q, experimentPhases s1 !! i = Some q ∧ status q = paused
          ∧ progress q = progress p)
  ∧ phaseIntervals (timers s1) !! x = None
  ∧ (∀ h0, phaseIntervals (timers s) !! x = Some h0 →
           liveIntervals (timers s1) !! h0 = None)
  ∧ (∃ q, experimentPhases s2 !! i = Some q ∧ status q = running
          ∧ progress q = progress p)
  ∧ running_at s2 i x h (increment_of (estimatedDuration p)) (progress p).
Proof.
  intros Hnd Hp Hst x s1 s2 h.
  destruct (togglePhaseExecution_pauses s i p clk Hnd Hp Hst) as [Hphases Htimers].
  fold x s1 in Hphases, Htimers.
  assert (experimentPhases s1 !! i = Some (paused_phase p)) as Hp1.
  { rewrite Hphases. apply list_lookup_insert_eq. by eapply lookup_lt_Some. }
  assert (NoDup (map id (experimentPhases s1))) as Hnd1.
  { rewrite Hphases. by rewrite (insert_ids _ _ p). }
  destruct (togglePhaseExecution_starts s1 i (paused_phase p) clk' Hnd1 Hp1)
    as [Hphases2 Hrun]; [done.. |].
  change (id (paused_phase p)) with x in Hphases2, Hrun.
  change (estimatedDuration (paused_phase p)) with (estimatedDuration p) in Hrun.
  fold s2 h in Hphases2, Hrun. cbn in Hrun.
  split_and!.
  - done.
  - by exists (paused_phase p).
  - rewrite Htimers, cancel_lookup. by rewrite decide_True.
  - intros h0 Hh0. rewrite Htimers, Hh0. apply lookup_delete_eq.
  - exists (started_phase clk' (paused_phase p)). split; [|done].
    rewrite Hphases2. apply list_lookup_insert_eq. by eapply lookup_lt_Some.
  - done.
Qed.

(** ** Running all phases *)




































(** One click on Run All with the two sample phases, 10 seconds each: b
    is still pending after 49 runs of a's interval, is started by the run
    that completes a, and the call has returned when b is completed. *)
Example act_sample_ab :
  let fires h n := replicate n (Forwarded (IntervalFires h sample_clock), sample_clock) in
  let run_of n := fold_left act (fires 1%positive n)
                    (act (sample_ab, []) (ClickRunAll, sample_clock)) in
  let then_b n := fold_left act (fires 2%positive n) (run_of 50) in
  map status (experimentPhases (run_of 0).1) = [running; pending]
  ∧ map status (experimentPhases (run_of 49).1) = [running; pending]
  ∧ map status (experimentPhases (run_of 50).1) = [completed; running]
  ∧ (run_of 50).2 = [{| awaited := "b"; remaining := [] |}]
  ∧ map status (experimentPhases (then_b 49).1) = [completed; running]
  ∧ map status (experimentPhases (then_b 50).1) = [completed; completed]
  ∧ (then_b 50).2 = [].
Proof. vm_compute. by repeat split. Qed.

(** One call on the two sample phases, 10 seconds each: b is still pending
    after 49 runs of a's interval, is started by the run that completes a,
    and the call returns when b is completed. *)
Example runAllPhases_sample_ab :
  let run_of n := fold_left handle_under_runAll
                    (replicate n (IntervalFires 1 sample_clock, sample_clock))
                    (runAllPhases sample_clock sample_ab) in
  let then_b n := fold_left handle_under_runAll
                    (replicate n (IntervalFires 2 sample_clock, sample_clock))
                    (run_of 50) in
  map status (experimentPhases (run_of 0).1) = [running; pending]
  ∧ map status (experimentPhases (run_of 49).1) = [running; pending]
  ∧ map status (experimentPhases (run_of 50).1) = [completed; running]
  ∧ (run_of 50).2 = Awaiting "b" []
  ∧ map status (experimentPhases (then_b 49).1) = [completed; running]
  ∧ map status (experimentPhases (then_b 50).1) = [completed; completed]
  ∧ (then_b 50).2 = Returned.
Proof. vm_compute. by repeat split. Qed.

(** ** Every reachable state is well formed *)

Lemma on_grid_same (p p' : ExperimentPhase) :
  estimatedDuration p' = estimatedDuration p → progress p' = progress p →
  on_grid p → on_grid p'.
Proof. intros He Hp (block & k & H). exists block, k. by rewrite He, Hp. Qed.

Lemma on_grid_zero (p p' : ExperimentPhase) :
  estimatedDuration p' = estimatedDuration p → progress p' = 0%float →
  on_grid p → on_grid p'.
Proof.
  intros He Hp (block & k & Hb & Hest & _). exists block, 0.
  by rewrite He, Hp.
Qed.

Lemma on_grid_newPhase (uuid : string) (block : PaletteBlock) :
  block ∈ paletteBlocks → on_grid (newPhase uuid block).
Proof.
  intros Hb. exists block, 0. split; [done|]. split; [|done].
  revert Hb. unfold paletteBlocks. rewrite !elem_of_cons, elem_of_nil.
  intros [->|[->|[->|[->|[->|[]]]]]]; reflexivity.
Qed.

Lemma toggle_phase_on_grid (phaseId : string) (clk : Clock) (p : ExperimentPhase)
    (t : Timers) :
  on_grid p → on_grid (toggle_phase phaseId clk p t).1.
Proof.
  intros Hp. unfold toggle_phase. destruct (has_id _ _); [|done].
  destruct (status p) eqn:Hst; cbn [fst];
    first [ by apply (on_grid_same p)
          | by apply (on_grid_zero p)
          | apply (on_grid_zero p); [done | simpl; by rewrite Hst | done]
          | apply (on_grid_same p); [done | simpl; by rewrite Hst | done] ].
Qed.

Lemma tick_phase_on_grid (cb : Interval) (clk : Clock) (p : ExperimentPhase)
    (t : Timers) :
  (id p = tick_id cb →
   progressIncrement cb = increment_of (estimatedDuration p)) →
  on_grid p → on_grid (tick_phase cb clk p t).1.
Proof.
  intros Hinc Hp. unfold tick_phase.
  destruct (has_id _ _ && _) eqn:E; [|done].
  apply andb_true_iff in E as [Hid%has_id_true _]. specialize (Hinc Hid).
  destruct Hp as (block & k & Hb & Hest & Hgrid).
  destruct (reaches_100 _ _) eqn:Hle; cbn [fst];
    exists block, (Datatypes.S k); (split; [done|]); (split; [done|]);
    cbn [progress_after progress estimatedDuration completed_phase with_progress];
    unfold stored_progress; rewrite <- Hgrid, <- Hinc, Hle; reflexivity.
Qed.

Lemma timers_ok_view (phases phases' : list ExperimentPhase) (t : Timers) :
  (∀ x, x ∈ map id phases → x ∈ map id phases') →
  (∀ q', q' ∈ phases' →
     ∃ q, q ∈ phases ∧ id q = id q' ∧ estimatedDuration q = estimatedDuration q') →
  timers_ok phases t → timers_ok phases' t.
Proof.
  intros Hids Hview (Htr & Hkeys & Hinc). split_and!; [done | |].
  - intros x h Hx. by eapply Hids, Hkeys.
  - intros h cb q' Hlive Hq' Hid.
    destruct (Hview q' Hq') as (q & Hq & Hqid & Hqe).
    rewrite <- Hqe. apply (Hinc h cb q Hlive Hq). congruence.
Qed.

Lemma cancel_live (x : string) (t : Timers) (h : positive) (cb : Interval) :
  liveIntervals (delete_phaseInterval x (clearInterval (phaseIntervals t !! x) t)) !! h
  = Some cb →
  liveIntervals t !! h = Some cb.
Proof.
  destruct (phaseIntervals t !! x); simpl; [|done]. by intros [_ ?]%lookup_delete_Some.
Qed.

Lemma timers_ok_cancel (phases : list ExperimentPhase) (x : string) (t : Timers) :
  timers_ok phases t →
  timers_ok phases
    (delete_phaseInterval x (clearInterval (phaseIntervals t !! x) t)).
Proof.
  intros (Htr & Hkeys & Hinc). split_and!.
  - by apply cancel_tracked.
  - intros y h. rewrite cancel_lookup. case_decide; [done|]. apply Hkeys.
  - intros h cb p Hlive%cancel_live. by apply (Hinc h).
Qed.

Lemma timers_ok_remove (phases : list ExperimentPhase) (x : string) (t : Timers) :
  timers_ok phases t →
  timers_ok (filter (λ p, id p ≠ x) phases)
    (delete_phaseInterval x (clearInterval (phaseIntervals t !! x) t)).
Proof.
  intros (Htr & Hkeys & Hinc). split_and!.
  - by apply cancel_tracked.
  - intros y h. rewrite cancel_lookup. case_decide as Hxy; [done|].
    intros Hy. apply Hkeys in Hy. apply list_elem_of_fmap in Hy as (p & -> & Hp).
    apply list_elem_of_fmap_2. apply list_elem_of_filter. split; [congruence | done].
  - intros h cb p Hlive%cancel_live [_ Hp]%list_elem_of_filter. by apply (Hinc h).
Qed.

Lemma NoDup_ids_eq (phases : list ExperimentPhase) (p q : ExperimentPhase) :
  NoDup (map id phases) → p ∈ phases → q ∈ phases → id p = id q → p = q.
Proof.
  intros Hnd [i Hp]%list_elem_of_lookup [j Hq]%list_elem_of_lookup Hid.
  destruct (decide (j = i)) as [->|Hne]; [congruence|].
  destruct (NoDup_ids_other _ _ _ _ _ Hnd Hp Hq Hne). done.
Qed.

Lemma timers_ok_start (phases : list ExperimentPhase) (p : ExperimentPhase)
    (clk : Clock) (t : Timers) :
  NoDup (map id phases) → p ∈ phases →
  timers_ok phases t →
  timers_ok phases
    (setInterval (id p)
       {| tick_id := id p;
          progressIncrement := increment_of (estimatedDuration p);
          startTime := now clk;
          delay := 200 |}
       (clearInterval (phaseIntervals t !! id p) t)).
Proof.
  intros Hnd Hp (Htr & Hkeys & Hinc). split_and!.
  - by apply start_tracked.
  - intros y h. destruct (decide (id p = y)) as [<-|Hne].
    + intros _. by apply list_elem_of_fmap_2.
    + rewrite start_lookup by done. apply Hkeys.
  - intros h cb q. unfold setInterval. cbn [liveIntervals].
    intros [[_ <-]|[_ Hlive]]%lookup_insert_Some Hq Hid.
    + simpl in Hid. by rewrite (NoDup_ids_eq phases q p Hnd Hq Hp Hid).
    + apply (Hinc h cb q); [|done..].
      destruct (phaseIntervals t !! id p); simpl in Hlive; [|done].
      by apply lookup_delete_Some in Hlive as [_ ?].
Qed.

Lemma togglePhaseExecution_timers_cases (phaseId : string) (clk : Clock) (s : State) :
  NoDup (map id (experimentPhases s)) →
  timers (togglePhaseExecution phaseId clk s) = timers s
  ∨ ∃ p, p ∈ experimentPhases s ∧ id p = phaseId
         ∧ timers (togglePhaseExecution phaseId clk s)
           = (toggle_phase phaseId clk p (timers s)).2.
Proof.
  intros Hnd. destruct (decide (phaseId ∈ map id (experimentPhases s))) as [Hin|Hout].
  - right. apply list_elem_of_fmap in Hin as (p & -> & Hp).
    exists p. split_and!; [done..|].
    apply list_elem_of_lookup in Hp as [i Hi].
    apply (togglePhaseExecution_at s i p clk Hnd Hi).
  - left. rewrite togglePhaseExecution_timers, map_with_unchanged; [done|].
    apply Forall_forall. intros p Hp t. apply toggle_phase_other. intros <-.
    apply Hout. by apply list_elem_of_fmap_2.
Qed.

Lemma tick_timers_cases (cb : Interval) (clk : Clock) (s : State) :
  NoDup (map id (experimentPhases s)) →
  timers (tick cb clk s) = timers s
  ∨ ∃ p, p ∈ experimentPhases s ∧ id p = tick_id cb
         ∧ timers (tick cb clk s) = (tick_phase cb clk p (timers s)).2.
Proof.
  intros Hnd.
  destruct (decide (tick_id cb ∈ map id (experimentPhases s))) as [Hin|Hout].
  - right. apply list_elem_of_fmap in Hin as (p & Hid & Hp).
    exists p. split_and!; [done..|].
    apply list_elem_of_lookup in Hp as [i Hi].
    by apply (tick_at s i p cb clk Hnd Hi).
  - left. rewrite tick_timers, map_with_unchanged; [done|].
    apply Forall_forall. intros p Hp t. apply tick_phase_other. left. intros Heq.
    apply Hout. rewrite <- Heq. by apply list_elem_of_fmap_2.
Qed.

Lemma toggle_phase_estimatedDuration (phaseId : string) (clk : Clock)
    (p : ExperimentPhase) (t : Timers) :
  estimatedDuration (toggle_phase phaseId clk p t).1 = estimatedDuration p.
Proof. unfold toggle_phase. destruct (has_id _ _); [|done]. by destruct (status p). Qed.

Lemma tick_phase_estimatedDuration (cb : Interval) (clk : Clock)
    (p : ExperimentPhase) (t : Timers) :
  estimatedDuration (tick_phase cb clk p t).1 = estimatedDuration p.
Proof.
  unfold tick_phase. destruct (_ && _); [|done]. by destruct (reaches_100 _ _).
Qed.

(** The intervals stay in order when the phases are replaced by phases
    with the same ids and estimated durations. *)
Lemma timers_ok_map (f : ExperimentPhase → ExperimentPhase)
    (phases : list ExperimentPhase) (t : Timers) :
  (∀ p, id (f p) = id p) →
  (∀ p, estimatedDuration (f p) = estimatedDuration p) →
  timers_ok phases t → timers_ok (map f phases) t.
Proof.
  intros Hid Hest. apply timers_ok_view.
  - intros x. by rewrite map_id_preserved.
  - intros q' (q & -> & Hq)%list_elem_of_fmap. by exists q.
Qed.

Lemma timers_ok_unmap (f : ExperimentPhase → ExperimentPhase)
    (phases : list ExperimentPhase) (t : Timers) :
  (∀ p, id (f p) = id p) →
  (∀ p, estimatedDuration (f p) = estimatedDuration p) →
  timers_ok (map f phases) t → timers_ok phases t.
Proof.
  intros Hid Hest. apply timers_ok_view.
  - intros x. by rewrite map_id_preserved.
  - intros q Hq. exists (f q). split_and!; [by apply list_elem_of_fmap_2 | done..].
Qed.

Lemma phases_ok_map (f : ExperimentPhase → ExperimentPhase)
    (phases : list ExperimentPhase) :
  (∀ p, id (f p) = id p) →
  (∀ p, p ∈ phases → on_grid p → on_grid (f p)) →
  (∀ p, full_iff_completed p → full_iff_completed (f p)) →
  phases_ok phases → phases_ok (map f phases).
Proof.
  intros Hid Hgrid Hfull (Hnd & Hg & Hf). split_and!.
  - by rewrite map_id_preserved.
  - apply Forall_map, Forall_forall. intros p Hp. apply Hgrid; [done|].
    by eapply Forall_forall in Hg.
  - apply Forall_map. eapply Forall_impl; [done|]. apply Hfull.
Qed.

Lemma well_formed_toggle (phaseId : string) (clk : Clock) (s : State) :
  well_formed s → well_formed (togglePhaseExecution phaseId clk s).
Proof.
  intros (Hph & Htm & Hdr). pose proof Hph as (Hnd & Hg & Hf).
  split_and!.
  - rewrite togglePhaseExecution_phases. apply phases_ok_map; [|..|done].
    + intros p. apply toggle_phase_id.
    + intros p _. apply toggle_phase_on_grid.
    + intros p. apply toggle_phase_full_iff_completed.
  - rewrite togglePhaseExecution_phases.
    apply timers_ok_map;
      [intros; apply toggle_phase_id | intros; apply toggle_phase_estimatedDuration |].
    destruct (togglePhaseExecution_timers_cases phaseId clk s Hnd)
      as [-> | (p & Hp & Hid & ->)]; [done|].
    unfold toggle_phase. rewrite (proj2 (has_id_true _ _)) by done.
    destruct (status p); cbn [snd];
      first [ by apply timers_ok_start | by apply timers_ok_cancel | done ].
  - unfold togglePhaseExecution. by destruct (map_with _ _ _).
Qed.

Lemma well_formed_tick (cb : Interval) (clk : Clock) (s : State) (h : positive) :
  liveIntervals (timers s) !! h = Some cb →
  well_formed s → well_formed (tick cb clk s).
Proof.
  intros Hlive (Hph & Htm & Hdr). pose proof Hph as (Hnd & Hg & Hf).
  pose proof Htm as (_ & _ & Hinc).
  split_and!.
  - rewrite tick_phases. apply phases_ok_map; [|..|done].
    + intros p. apply tick_phase_id.
    + intros p Hp. apply tick_phase_on_grid. by apply (Hinc h).
    + intros p. apply tick_phase_full_iff_completed.
  - rewrite tick_phases.
    apply timers_ok_map;
      [intros; apply tick_phase_id | intros; apply tick_phase_estimatedDuration |].
    destruct (tick_timers_cases cb clk s Hnd) as [-> | (p & Hp & Hid & ->)]; [done|].
    unfold tick_phase. destruct (_ && _); [|done].
    destruct (reaches_100 _ _); cbn [snd]; [by apply timers_ok_cancel | done].
  - unfold tick. by destruct (map_with _ _ _).
Qed.

Lemma well_formed_drop (uuid : string) (s : State) :
  uuid ∉ map id (experimentPhases s) →
  well_formed s → well_formed (handleCanvasDrop uuid s).
Proof.
  intros Hfresh (Hph & Htm & Hdr). pose proof Hph as (Hnd & Hg & Hf).
  unfold well_formed. rewrite handleCanvasDrop_phases, handleCanvasDrop_timers.
  assert (draggingItem (handleCanvasDrop uuid s) = draggingItem s) as ->.
  { unfold handleCanvasDrop. destruct (draggingItem s) as [[|]|] eqn:E; simpl; congruence. }
  destruct (draggingItem s) as [[block|]|] eqn:Hitem; [|done..].
  pose proof (Hdr block eq_refl) as Hblock.
  split_and!; [split_and! | | done].
  - rewrite map_app. apply NoDup_app. split_and!; [done | | apply NoDup_singleton].
    intros x Hx. cbn. rewrite list_elem_of_singleton. by intros ->.
  - apply Forall_app. split; [done|]. constructor; [|done]. by apply on_grid_newPhase.
  - apply Forall_app. split; [done|]. constructor; [|done].
    apply newPhase_full_iff_completed.
  - destruct Htm as (Htr & Hkeys & Hinc). split_and!; [done | |].
    + intros x h Hx. rewrite map_app, elem_of_app. left. by eapply Hkeys.
    + intros h cb p Hlive [Hp|Hp%list_elem_of_singleton]%elem_of_app Hid.
      * by apply (Hinc h).
      * subst p. simpl in Hid. destruct Hfresh. rewrite Hid.
        apply (Hkeys _ h). by apply Htr.
Qed.

Lemma well_formed_reorder (targetPhaseId : string) (s : State) :
  well_formed s → well_formed (handlePhaseDrop targetPhaseId s).
Proof.
  intros ((Hnd & Hg & Hf) & Htm & Hdr).
  pose proof (handlePhaseDrop_Permutation targetPhaseId s) as Hperm.
  split_and!; [split_and! | |].
  - by rewrite Hperm.
  - by rewrite Hperm.
  - by rewrite Hperm.
  - rewrite handlePhaseDrop_timers. eapply timers_ok_view; [| |done].
    + intros x. by rewrite Hperm.
    + intros q Hq. exists q. by rewrite <- Hperm.
  - assert (draggingItem (handlePhaseDrop targetPhaseId s) = draggingItem s) as ->;
      [|done].
    unfold handlePhaseDrop. destruct (draggingItem s) as [[|src data]|] eqn:E; [done| |done].
    repeat case_decide; simpl; congruence.
Qed.

Lemma well_formed_remove (phaseId : string) (s : State) :
  well_formed s → well_formed (removePhase phaseId s).
Proof.
  intros ((Hnd & Hg & Hf) & Htm & Hdr).
  unfold well_formed. rewrite removePhase_phases, removePhase_timers.
  split_and!; [split_and! | |].
  - eapply sublist_NoDup; [done|]. apply fmap_sublist, sublist_filter.
  - apply Forall_forall. intros p [_ Hp]%list_elem_of_filter.
    by eapply Forall_forall in Hg.
  - apply Forall_forall. intros p [_ Hp]%list_elem_of_filter.
    by eapply Forall_forall in Hf.
  - by apply timers_ok_remove.
  - assert (draggingItem (removePhase phaseId s) = draggingItem s) as ->; [|done].
    unfold removePhase. simpl. by destruct (_ !! phaseId).
Qed.

Lemma well_formed_text (phaseId newText : string) (s : State) :
  well_formed s → well_formed (updatePhaseText phaseId newText s).
Proof.
  intros (Hph & Htm & Hdr). unfold updatePhaseText. split_and!; simpl; [| |done].
  - apply phases_ok_map; [| | |done].
    + intros p. by destruct (has_id _ _).
    + intros p _ Hp. by destruct (has_id _ _).
    + intros p Hp. by destruct (has_id _ _).
  - apply timers_ok_map; [| |done]; intros p; by destruct (has_id _ _).
Qed.

Lemma handle_well_formed (s : State) (ev : Event) :
  well_formed s → valid_event s ev → well_formed (handle s ev).
Proof.
  intros Hs Hev. pose proof Hs as (Hph & Htm & Hdr).
  destruct ev; cbn [handle].
  - split_and!; [done..|]. intros b [= <-]. exact Hev.
  - done.
  - done.
  - unfold handleCanvasDragLeave. by destruct targetIsCanvas.
  - by apply well_formed_drop.
  - split_and!; done.
  - unfold handlePhaseDragEnter. destruct (draggingItem s) as [[|]|]; [done| |done].
    by case_decide.
  - unfold handlePhaseDragLeave. by case_decide.
  - by apply well_formed_reorder.
  - split_and!; done.
  - by apply well_formed_remove.
  - by apply well_formed_text.
  - by apply well_formed_toggle.
  - unfold interval_fires. destruct (_ !! h) as [cb|] eqn:Hlive; [|done].
    by eapply well_formed_tick.
Qed.

(** Every state that valid events reach from the empty canvas has unique
    ids, phases of the palette at a progress that runs of their increment
    store, and tracked intervals with the increments of their phases. *)
Lemma reachable_well_formed (s : State) : reachable s → well_formed s.
Proof.
  intros (evs & Hvalid & ->). unfold run.
  assert (well_formed initial) as Hinit.
  { split_and!.
    - split_and!; constructor.
    - split_and!.
      + split; intros h; simpl; [intros cb|]; rewrite lookup_empty; [done|].
        by intros [? ?].
      + intros x h. simpl. by rewrite lookup_empty.
      + intros h cb p. simpl. by rewrite lookup_empty.
    - by intros b. }
  revert Hinit Hvalid. generalize initial.
  induction evs as [|ev evs IH]; intros s Hs Hv; simpl; [done|].
  destruct Hv as [Hev Hv]. by apply IH; [apply handle_well_formed|].
Qed.

(** ** Runs to completion in reachable states *)

Lemma valid_trace_app (s : State) (evs evs' : list Event) :
  valid_trace s evs → valid_trace (fold_left handle evs s) evs' →
  valid_trace s (evs ++ evs').
Proof.
  revert s. induction evs as [|ev evs IH]; intros s; simpl; [done|].
  intros [Hev Hv] Hv'. split; [done|]. by apply IH.
Qed.

Lemma reachable_handle (s : State) (ev : Event) :
  reachable s → valid_event s ev → reachable (handle s ev).
Proof.
  intros (evs & Hv & ->) Hev. exists (evs ++ [ev]). split.
  - apply valid_trace_app; [done|]. by split.
  - unfold run. by rewrite fold_left_app.
Qed.

Lemma reachable_toggle (phaseId : string) (clk : Clock) (s : State) :
  reachable s → reachable (togglePhaseExecution phaseId clk s).
Proof. intros Hs. by apply (reachable_handle s (ClickToggle phaseId clk)). Qed.

Lemma reachable_fires (h : positive) (clks : list Clock) (s : State) :
  reachable s → reachable (fires h clks s).
Proof.
  revert s. induction clks as [|clk clks IH]; intros s Hs; [done|].
  apply IH. by apply (reachable_handle s (IntervalFires h clk)).
Qed.

(** The schedule of every block of the palette checks. *)
Lemma palette_schedule (block : PaletteBlock) :
  block ∈ paletteBlocks →
  schedule_ok (block_estimatedDuration block)
    (total_runs (block_estimatedDuration block)) = true.
Proof.
  unfold paletteBlocks. rewrite !elem_of_cons, elem_of_nil.
  intros [->|[->|[->|[->|[->|[]]]]]]; vm_compute; reflexivity.
Qed.

Lemma schedule_ok_spec (est : float) (total : nat) :
  schedule_ok est total = true →
  0 < total
  ∧ increment_of est = (100 / (est * 5))%float
  ∧ (0 <? est)%float = true
  ∧ progress_after (increment_of est) total = 100%float
  ∧ stored_progress (increment_of est) 100 = 100%float
  ∧ ∀ j, j < total →
      progress_after (increment_of est) j ≠ 100%float
      ∧ (0 <=? progress_after (increment_of est) j)%float = true
      ∧ (progress_after (increment_of est) j <=? 100)%float = true
      ∧ or_number (progress_after (increment_of est) j) 0
        = progress_after (increment_of est) j
      ∧ runs_needed (increment_of est) (progress_after (increment_of est) j) total
        = Some (total - j)
      ∧ (remaining_by_proportion (progress_after (increment_of est) j) est
         <= seconds_of_runs (total - j) + (1 # 1000000000))%Q
      ∧ (seconds_of_runs (total - j)
         <= remaining_by_proportion (progress_after (increment_of est) j) est
            + (1 # 5) + (1 # 1000000000))%Q.
Proof.
  unfold schedule_ok. cbv zeta.
  rewrite !andb_true_iff, bool_decide_eq_true, forallb_forall.
  intros (((((Ht & Hd) & He) & Hfull) & Hstay) & Hall).
  apply FloatAxioms.Leibniz.eqb_spec in Hd.
  apply FloatAxioms.Leibniz.eqb_spec in Hfull.
  apply FloatAxioms.Leibniz.eqb_spec in Hstay.
  split_and!; [done..|].
  intros j Hj. specialize (Hall j). rewrite in_seq in Hall.
  specialize (Hall ltac:(lia)).
  rewrite !andb_true_iff, negb_true_iff, bool_decide_eq_true in Hall.
  destruct Hall as ((((((Hne & Hlo) & Hhi) & Hor) & Hruns) & Hle1) & Hle2).
  apply FloatAxioms.Leibniz.eqb_spec in Hor.
  apply Qle_bool_iff in Hle1, Hle2.
  split_and!; [|done..].
  intros Heq%FloatAxioms.Leibniz.eqb_spec. congruence.
Qed.

Lemma schedule_exact_spec (est : float) (total j : nat) :
  schedule_exact est total = true → j < total →
  (seconds_of_runs (total - j)
   == remaining_by_proportion (progress_after (increment_of est) j) est)%Q.
Proof.
  unfold schedule_exact. cbv zeta. rewrite forallb_forall. intros Hall Hj.
  apply Qeq_bool_iff, Hall, in_seq. lia.
Qed.

(** With an estimate of 10, 20 or 8 seconds every progress of the schedule
    is a double whose proportional rest is a whole number of runs. *)
Lemma schedule_exact_estimates (est : float) :
  est = 10%float ∨ est = 20%float ∨ est = 8%float →
  schedule_exact est (total_runs est) = true.
Proof. intros [-> | [-> | ->]]; vm_compute; reflexivity. Qed.

(** Once at 100, the stored progress stays there. *)
Lemma progress_after_full (d : float) (total k : nat) :
  progress_after d total = 100%float → stored_progress d 100 = 100%float →
  (total ≤ k)%nat → progress_after d k = 100%float.
Proof.
  intros Hfull Hstay. induction 1 as [|k Hle IH]; [done|].
  cbn [progress_after]. by rewrite IH.
Qed.

(** A phase on the grid is at 100 or at the progress of one of the runs
    before the last of its schedule. *)
Lemma on_grid_schedule (p : ExperimentPhase) :
  on_grid p →
  schedule_ok (estimatedDuration p) (total_runs (estimatedDuration p)) = true
  ∧ (progress p = 100%float
     ∨ ∃ j, j < total_runs (estimatedDuration p)
            ∧ progress p = progress_after (increment_of (estimatedDuration p)) j).
Proof.
  intros (block & k & Hb & Hest & Hgrid).
  assert (schedule_ok (estimatedDuration p) (total_runs (estimatedDuration p)) = true)
    as Hok by (rewrite Hest; by apply palette_schedule).
  split; [done|].
  destruct (schedule_ok_spec _ _ Hok) as (_ & _ & _ & Hfull & Hstay & _).
  destruct (decide (k < total_runs (estimatedDuration p))) as [Hlt|Hge].
  - right. by exists k.
  - left. rewrite Hgrid.
    apply (progress_after_full _ (total_runs (estimatedDuration p))); [done..|lia].
Qed.

Lemma reachable_lookup (s : State) (i : nat) (p : ExperimentPhase) :
  reachable s → experimentPhases s !! i = Some p →
  NoDup (map id (experimentPhases s)) ∧ on_grid p ∧ full_iff_completed p.
Proof.
  intros ((Hnd & Hg & Hf) & _)%reachable_well_formed Hp.
  apply list_elem_of_lookup_2 in Hp.
  rewrite Forall_forall in Hg, Hf.
  split_and!; [done | by apply Hg | by apply Hf].
Qed.

(** In a reachable state the progress of every phase is between 0 and 100,
    and [progress || 0] is the progress itself. *)
Lemma reachable_progress (s : State) (p : ExperimentPhase) :
  reachable s → p ∈ experimentPhases s →
  (0 <=? progress p)%float = true ∧ (progress p <=? 100)%float = true
  ∧ or_number (progress p) 0 = progress p.
Proof.
  intros Hs [i Hp]%list_elem_of_lookup.
  destruct (reachable_lookup s i p Hs Hp) as (_ & Hgrid & _).
  destruct (on_grid_schedule p Hgrid) as [Hok [-> | (j & Hj & ->)]].
  - by split_and!.
  - destruct (schedule_ok_spec _ _ Hok) as (_ & _ & _ & _ & _ & Hall).
    by destruct (Hall j Hj) as (_ & ? & ? & ? & _).
Qed.

(** With an increment of 2 the progress after fewer than 50 runs from 0 is
    twice their number. *)
Lemma progress_from_2 (k : nat) :
  k < 50 → progress_from 2 0 k = float_of_Z (2 * Z.of_nat k).
Proof.
  assert (forallb
            (λ k, PrimFloat.Leibniz.eqb (progress_from 2 0 k)
                    (float_of_Z (2 * Z.of_nat k)))
            (seq 0 50) = true) as Hall by (vm_compute; reflexivity).
  rewrite forallb_forall in Hall. intros Hk.
  apply FloatAxioms.Leibniz.eqb_spec, Hall, in_seq. lia.
Qed.

(** C2: in every reachable state, toggling a pending phase leaves it
    running from 0 with an interval whose increment per 200ms run is
    100 / (estimatedDuration * 5); no run of the interval stores a progress
    above 100; some run completes the phase and none before it; a phase
    with an estimated duration of 10 is running at twice the number of
    runs after fewer than 50 runs in a row, and the 50th run completes it
    at exactly 100, clears the interval and deletes its registration. *)
Theorem pending_phase_runs_to_completion (s : State) (i : nat)
    (p : ExperimentPhase) (clk : Clock) :
  reachable s →
  experimentPhases s !! i = Some p →
  status p = pending →
  let x := id p in
  let h := nextHandle (timers s) in
  let s1 := togglePhaseExecution x clk s in
  let d := (100 / (estimatedDuration p * 5))%float in
  (0 <? estimatedDuration p)%float = true
  ∧ running_at s1 i x h d 0
  ∧ (∀ clks q, experimentPhases (fires h clks s1) !! i = Some q →
               (progress q <=? 100)%float = true)
  ∧ (∃ n : nat,
       0 < n
       ∧ ∀ clks : list Clock,
           (length clks < n →
            running_at (fires h clks s1) i x h d (progress_from d 0 (length clks)))
           ∧ (length clks = n → completed_at (fires h clks s1) i x h))
  ∧ (estimatedDuration p = 10%float →
     ∀ clks : list Clock,
       (length clks < 50 →
        running_at (fires h clks s1) i x h 2
          (float_of_Z (2 * Z.of_nat (length clks))))
       ∧ (length clks = 50 → completed_at (fires h clks s1) i x h)).
Proof.
  intros Hreach Hp Hst x h s1 d.
  destruct (reachable_lookup s i p Hreach Hp) as (Hnd & Hgrid & Hfull).
  destruct (on_grid_schedule p Hgrid) as [Hok _].
  destruct (schedule_ok_spec _ _ Hok) as (Htotal & Hd & Hest & _ & _ & Hall).
  destruct (togglePhaseExecution_starts s i p clk Hnd Hp) as [_ Hrun];
    [by rewrite Hst..|].
  rewrite decide_False, Hd in Hrun by by rewrite Hst.
  change (running_at s1 i x h d 0) in Hrun.
  split; [done|]. split; [done|]. split; [|split].
  - intros clks q Hq. apply (reachable_progress (fires h clks s1)).
    + by apply reachable_fires, reachable_toggle.
    + by eapply list_elem_of_lookup_2.
  - exists (total_runs (estimatedDuration p)). split; [done|]. intros clks.
    apply (fires_runs_needed i x h d (total_runs (estimatedDuration p))); [done|].
    destruct (Hall 0 Htotal) as (_ & _ & _ & _ & Hruns & _).
    rewrite Hd, Nat.sub_0_r in Hruns. exact Hruns.
  - intros H10.
    assert (d = 2%float) as Hd2 by (unfold d; rewrite H10; reflexivity).
    rewrite Hd2 in Hrun. intros clks.
    destruct (fires_runs_needed i x h 2 50 s1 0 50 clks Hrun) as [Hlt Heq];
      [vm_compute; reflexivity|].
    split; [|done]. intros Hlen. rewrite <- progress_from_2 by done. by apply Hlt.
Qed.

Lemma pending_phase_runs_to_completion_witness :
  completed_at
    (fires 1 (replicate 50 sample_clock) (togglePhaseExecution "a" sample_clock sample_abc))
    0 "a" 1.
Proof.
  apply (pending_phase_runs_to_completion sample_abc 0 (sample_phase "a") sample_clock).
  - exists sample_abc_events. split; [|reflexivity].
    apply (bool_decide_unpack _). vm_compute. exact I.
  - vm_compute. reflexivity.
  - reflexivity.
  - reflexivity.
  - vm_compute. reflexivity.
Defined.

(** On the sample with an estimated duration of 10 seconds: a is paused
    at 40 of 100; resumed, it is still running after 29 runs of the new
    interval and completed by the 30th, 6 seconds later. *)
Example pause_resume_sample :
  let resumed := togglePhaseExecution "a" sample_clock
                   (togglePhaseExecution "a" sample_clock sample_running) in
  let status_after n :=
    status <$> experimentPhases (fires 2 (replicate n sample_clock) resumed) !! 0 in
  (∃ p, experimentPhases sample_running !! 0 = Some p ∧ progress p = 40%float)
  ∧ status <$> experimentPhases
                 (togglePhaseExecution "a" sample_clock sample_running) !! 0
    = Some paused
  ∧ status_after 0 = Some running
  ∧ status_after 29 = Some running
  ∧ status_after 30 = Some completed
  ∧ (seconds_of_runs 30 == remaining_by_proportion 40 10)%Q.
Proof.
  split; [eexists; split; [vm_compute; reflexivity | reflexivity]|].
  split; [vm_compute; reflexivity|]. split; [vm_compute; reflexivity|].
  split; [vm_compute; reflexivity|]. split; [vm_compute; reflexivity|].
  apply Qeq_bool_iff. vm_compute. reflexivity.
Qed.

(** ** The drag state of the workbench *)

Lemma handle_keeps_drag_state (s : State) (ev : Event) :
  match ev with
  | CanvasDragEnter | CanvasDragOver | CanvasDragLeave _ | CanvasDrop _
  | ClickRemove _ | ChangeText _ _ | ClickToggle _ _ | IntervalFires _ _ =>
      draggingItem (handle s ev) = draggingItem s
      ∧ dragOverPhaseId (handle s ev) = dragOverPhaseId s
  | _ => True
  end.
Proof.
  destruct ev; cbn [handle]; try done.
  - unfold handleCanvasDragLeave. by destruct targetIsCanvas.
  - unfold handleCanvasDrop.
    destruct (draggingItem s) as [[b|src0 d0]|] eqn:E; cbn; by rewrite ?E.
  - unfold removePhase. cbn. by destruct (_ !! phaseId).
  - unfold togglePhaseExecution. by destruct (map_with _ _ _).
  - unfold interval_fires. destruct (_ !! h); [|done].
    unfold tick. by destruct (map_with _ _ _).
Qed.

Lemma handle_drag_state (s : State) (ev : Event) :
  (∀ x, dragOverPhaseId s = Some x →
        ∃ sourcePhaseId data,
          draggingItem s = Some (workflowItem sourcePhaseId data)
          ∧ sourcePhaseId ≠ x) →
  ∀ x, dragOverPhaseId (handle s ev) = Some x →
       ∃ sourcePhaseId data,
         draggingItem (handle s ev) = Some (workflowItem sourcePhaseId data)
         ∧ sourcePhaseId ≠ x.
Proof.
  intros Hs. pose proof (handle_keeps_drag_state s ev) as Hkeep.
  destruct ev; cbn beta iota in Hkeep;
    lazymatch type of Hkeep with
    | _ ∧ _ => destruct Hkeep as [-> ->]; exact Hs
    | _ => cbn [handle]
    end; try done.
  - unfold handlePhaseDragEnter.
    destruct (draggingItem s) as [[b|src0 d0]|] eqn:E;
      [rewrite E; exact Hs| |rewrite E; exact Hs].
    case_decide; [rewrite E; exact Hs|].
    intros y [= <-]. cbn. rewrite E. by eexists _, _.
  - unfold handlePhaseDragLeave. case_decide; [done | exact Hs].
  - unfold handlePhaseDrop.
    destruct (draggingItem s) as [[b|src0 d0]|] eqn:E;
      [rewrite E; exact Hs| |rewrite E; exact Hs].
    repeat case_decide; first [done | rewrite E; exact Hs].
Qed.

(** X1: In the workbench a phase is marked as drop target only while another
    phase is being dragged: never the dragged phase itself, and none while
    a block of the palette or nothing is dragged. The second test of the
    markup's ring, [draggingItem?.id !== phase.id], is therefore always
    true when the first holds. *)
Theorem ring_never_on_dragged_phase (evs : list Event) :
  (∀ x, dragOverPhaseId (run evs) = Some x →
        ∃ sourcePhaseId data,
          draggingItem (run evs) = Some (workflowItem sourcePhaseId data)
          ∧ sourcePhaseId ≠ x)
  ∧ (∀ phase, ring_shown (run evs) phase
              = bool_decide (dragOverPhaseId (run evs) = Some (id phase))).
Proof.
  assert (∀ x, dragOverPhaseId (run evs) = Some x →
               ∃ sourcePhaseId data,
                 draggingItem (run evs) = Some (workflowItem sourcePhaseId data)
                 ∧ sourcePhaseId ≠ x) as Hinv.
  { unfold run.
    assert (∀ x, dragOverPhaseId initial = Some x →
                 ∃ sourcePhaseId data,
                   draggingItem initial = Some (workflowItem sourcePhaseId data)
                   ∧ sourcePhaseId ≠ x) as Hinit by done.
    revert Hinit. generalize initial.
    induction evs as [|ev evs IH]; intros s0 Hs; [done|].
    cbn [fold_left]. by apply IH, handle_drag_state. }
  split; [done|]. intros phase. unfold ring_shown.
  case_bool_decide as Hover; [|done].
  destruct (Hinv _ Hover) as (src & data & -> & Hne). cbn.
  by rewrite bool_decide_eq_false_2 by congruence.
Qed.

(** ** What no handler does to a phase *)

Lemma handle_Forall (P : ExperimentPhase → Prop) (s : State) (ev : Event) :
  (∀ uuid block, P (newPhase uuid block)) →
  (∀ x clk p t, P p → P (toggle_phase x clk p t).1) →
  (∀ cb clk p t, P p → P (tick_phase cb clk p t).1) →
  (∀ newText p, P p → P (with_text newText p)) →
  Forall P (experimentPhases s) → Forall P (experimentPhases (handle s ev)).
Proof.
  intros Hnew Htoggle Htick Htext Hinv. destruct ev; cbn [handle]; try done.
  - unfold handleCanvasDragLeave. by destruct targetIsCanvas.
  - rewrite handleCanvasDrop_phases. destruct (draggingItem s) as [[block|]|]; [|done..].
    apply Forall_app. split; [done|]. by constructor.
  - unfold handlePhaseDragEnter. destruct (draggingItem s) as [[|]|]; [done| |done].
    by case_decide.
  - unfold handlePhaseDragLeave. by case_decide.
  - by rewrite handlePhaseDrop_Permutation.
  - rewrite removePhase_phases. apply Forall_forall.
    intros p [_ Hp]%list_elem_of_filter. by eapply Forall_forall in Hinv.
  - unfold updatePhaseText. simpl. apply Forall_map.
    eapply Forall_impl; [done|]. intros p Hp. destruct (has_id _ _); [|done].
    by apply Htext.
  - rewrite togglePhaseExecution_phases. apply Forall_map.
    eapply Forall_impl; [done|]. intros p. apply Htoggle.
  - rewrite interval_fires_phases. destruct (_ !! h); [|done]. apply Forall_map.
    eapply Forall_impl; [done|]. intros p. apply Htick.
Qed.

Lemma handle_under_runAll_Forall (P : ExperimentPhase → Prop)
    (sr : State * RunAll) (ev : Event * Clock) :
  (∀ uuid block, P (newPhase uuid block)) →
  (∀ x clk p t, P p → P (toggle_phase x clk p t).1) →
  (∀ cb clk p t, P p → P (tick_phase cb clk p t).1) →
  (∀ newText p, P p → P (with_text newText p)) →
  Forall P (experimentPhases sr.1) →
  Forall P (experimentPhases (handle_under_runAll sr ev).1).
Proof.
  intros Hnew Htoggle Htick Htext Hinv.
  unfold handle_under_runAll, runAll_resume.
  pose proof (handle_Forall P _ ev.1 Hnew Htoggle Htick Htext Hinv) as Hinv'.
  destruct sr.2 as [x rest|]; [|done].
  destruct (resolves _ _); [|done].
  revert Hinv'. generalize (handle sr.1 ev.1). intros s Hs.
  induction rest as [|phase rest IH]; simpl; [done|].
  destruct (find _ _) as [cur|]; [|done].
  destruct (can_start _); [|done]. simpl.
  by apply (handle_Forall P s (ClickToggle (id phase) ev.2)).
Qed.

Lemma runAllPhases_Forall (P : ExperimentPhase → Prop) (clk : Clock) (s : State) :
  (∀ x clk p t, P p → P (toggle_phase x clk p t).1) →
  Forall P (experimentPhases s) →
  Forall P (experimentPhases (runAllPhases clk s).1).
Proof.
  intros Htoggle Hinv. unfold runAllPhases.
  induction (phasesToRun s) as [|phase rest IH]; simpl; [done|].
  destruct (find _ _) as [cur|]; [|done].
  destruct (can_start _); [|done]. simpl.
  rewrite togglePhaseExecution_phases. apply Forall_map.
  eapply Forall_impl; [done|]. intros p. apply Htoggle.
Qed.

(** X2: No handler sets a status to failed or clears [canBeRun]: after any
    sequence of gestures and interval runs from the empty canvas, also
    while a call of [runAllPhases] is in flight, no phase is failed, every
    phase can be run, and the button that toggles it is not disabled. *)
Theorem no_phase_is_failed_or_disabled (evs : list Event) (clk : Clock)
    (later : list (Event * Clock)) :
  Forall (λ p, status p ≠ failed ∧ canBeRun p = true ∧ toggle_disabled p = false)
    (experimentPhases (run evs))
  ∧ Forall (λ p, status p ≠ failed ∧ canBeRun p = true ∧ toggle_disabled p = false)
      (experimentPhases
         (fold_left handle_under_runAll later (runAllPhases clk (run evs))).1).
Proof.
  set (P := λ p : ExperimentPhase, status p ≠ failed ∧ canBeRun p = true).
  assert (∀ uuid block, P (newPhase uuid block)) as Hnew by done.
  assert (∀ x clk p t, P p → P (toggle_phase x clk p t).1) as Htoggle.
  { intros x c p t [Hst Hrun]. unfold toggle_phase.
    destruct (has_id _ _); [|done]. by destruct (status p). }
  assert (∀ cb clk p t, P p → P (tick_phase cb clk p t).1) as Htick.
  { intros cb c p t [Hst Hrun]. unfold tick_phase.
    destruct (_ && _); [|done]. by destruct (reaches_100 _ _). }
  assert (∀ newText p, P p → P (with_text newText p)) as Htext by done.
  assert (∀ phases, Forall P phases →
            Forall (λ p, status p ≠ failed ∧ canBeRun p = true
                         ∧ toggle_disabled p = false) phases) as Hfin.
  { intros phases Hall. eapply Forall_impl; [exact Hall|]. intros p [Hst Hrun].
    split_and!; [done..|]. unfold toggle_disabled. by rewrite Hrun. }
  assert (Forall P (experimentPhases (run evs))) as Hrun.
  { unfold run. assert (Forall P (experimentPhases initial)) as Hinit by constructor.
    revert Hinit. generalize initial.
    induction evs as [|ev evs IH]; intros s Hs; [done|].
    cbn [fold_left]. by apply IH, handle_Forall. }
  split; [by apply Hfin|]. apply Hfin.
  pose proof (runAllPhases_Forall P clk (run evs) Htoggle Hrun) as Hstart.
  revert Hstart. generalize (runAllPhases clk (run evs)).
  induction later as [|ev later IH]; intros sr Hsr; [done|].
  cbn [fold_left]. by apply IH, handle_under_runAll_Forall.
Qed.

(** ** Destroying the component *)

Lemma map_fold_delete_spec (live : gmap positive Interval) (reg : gmap string positive) :
  (∀ x h, reg !! x = Some h →
          map_fold (λ _ h live, delete h live) live reg !! h = None)
  ∧ (∀ h cb, map_fold (λ _ h live, delete h live) live reg !! h = Some cb →
             live !! h = Some cb).
Proof.
  apply (map_fold_weak_ind
           (λ r (m : gmap string positive),
              (∀ x h, m !! x = Some h → r !! h = None)
              ∧ (∀ h cb, r !! h = Some cb → live !! h = Some cb))).
  - split; [|done]. intros x h. by rewrite lookup_empty.
  - intros x h m r Hx [IH1 IH2]. split.
    + intros y h'. rewrite lookup_insert_Some. intros [[-> ->] | [Hne Hy]].
      * apply lookup_delete_eq.
      * destruct (decide (h' = h)) as [->|Hh]; [apply lookup_delete_eq|].
        rewrite lookup_delete_ne by done. by eapply IH1.
    + intros h' cb [Hne H]%lookup_delete_Some. by apply IH2.
Qed.

(** X3: [onDestroy] stops the simulation for good: in every state the
    workbench can be in, it leaves no interval registered and none live,
    so that no callback runs afterwards; the phases stay as they are, a
    running phase included. *)
Theorem onDestroy_stops_every_interval (evs : list Event) :
  phaseIntervals (timers (onDestroy (run evs))) = ∅
  ∧ liveIntervals (timers (onDestroy (run evs))) = ∅
  ∧ experimentPhases (onDestroy (run evs)) = experimentPhases (run evs)
  ∧ ∀ h clk, interval_fires h clk (onDestroy (run evs)) = onDestroy (run evs).
Proof.
  destruct (run_tracked evs) as [Hreg _].
  assert (liveIntervals (timers (onDestroy (run evs))) = ∅) as Hlive.
  { apply map_empty. intros h. cbn.
    destruct (map_fold_delete_spec (liveIntervals (timers (run evs)))
                (phaseIntervals (timers (run evs)))) as [Hgone Hkept].
    destruct (map_fold _ _ _ !! h) as [cb|] eqn:E; [|done].
    pose proof (Hkept _ _ E) as Hcb. apply Hreg in Hcb.
    apply Hgone in Hcb. congruence. }
  split_and!; [done..|].
  intros h clk. unfold interval_fires. by rewrite Hlive, lookup_empty.
Qed.

(** ** Running phases and their intervals *)

Lemma live_after_cancel (x : string) (t : Timers) (h : positive) :
  liveIntervals (delete_phaseInterval x (clearInterval (phaseIntervals t !! x) t)) !! h
  = if decide (phaseIntervals t !! x = Some h) then None
    else liveIntervals t !! h.
Proof.
  destruct (phaseIntervals t !! x) as [hx|] eqn:E; cbn.
  - case_decide as Hh; [injection Hh as ->; apply lookup_delete_eq|].
    apply lookup_delete_ne. congruence.
  - by rewrite decide_False.
Qed.

Lemma live_after_start (x : string) (cb : Interval) (t : Timers) (h : positive) :
  liveIntervals (setInterval x cb (clearInterval (phaseIntervals t !! x) t)) !! h
  = if decide (h = nextHandle t) then Some cb
    else if decide (phaseIntervals t !! x = Some h) then None
    else liveIntervals t !! h.
Proof.
  unfold setInterval. cbn [liveIntervals].
  assert (nextHandle (clearInterval (phaseIntervals t !! x) t) = nextHandle t) as ->
    by by destruct (phaseIntervals t !! x).
  case_decide as Hh; [subst h; apply lookup_insert_eq|].
  rewrite lookup_insert_ne by done.
  destruct (phaseIntervals t !! x) as [hx|] eqn:E; cbn.
  - case_decide as Hx; [injection Hx as ->; apply lookup_delete_eq|].
    apply lookup_delete_ne. congruence.
  - by rewrite decide_False.
Qed.

Lemma registered_injective (t : Timers) (x y : string) (h : positive) :
  registered_live t →
  phaseIntervals t !! x = Some h → phaseIntervals t !! y = Some h → x = y.
Proof.
  intros Hlive Hx Hy.
  destruct (Hlive _ _ Hx) as (cb & Hcb & <-).
  destruct (Hlive _ _ Hy) as (cb' & Hcb' & <-). congruence.
Qed.

Section Consistent.
Context (phases phases' : list ExperimentPhase) (t : Timers).
Hypothesis Hreg : registered_live t.
Hypothesis Hrun : running_iff_registered phases t.

(** The phases keep their ids and whether they are running; the intervals
    stay. *)
Lemma consistent_same :
  (∀ p', p' ∈ phases' →
         ∃ p, p ∈ phases ∧ id p = id p'
              ∧ (status p' = running ↔ status p = running)) →
  registered_live t ∧ running_iff_registered phases' t.
Proof.
  intros Hview. split; [done|]. intros p' Hp'.
  destruct (Hview p' Hp') as (p & Hp & Hid & Hst).
  rewrite Hst, <- Hid. by apply Hrun.
Qed.

(** The interval of [x] is cleared and its registration deleted, and no
    phase with id [x] is running any more. *)
Lemma consistent_cancel (x : string) :
  (∀ p', p' ∈ phases' →
         ∃ p, p ∈ phases ∧ id p = id p'
              ∧ (id p' ≠ x → (status p' = running ↔ status p = running))
              ∧ (id p' = x → status p' ≠ running)) →
  registered_live (delete_phaseInterval x (clearInterval (phaseIntervals t !! x) t))
  ∧ running_iff_registered phases'
      (delete_phaseInterval x (clearInterval (phaseIntervals t !! x) t)).
Proof.
  intros Hview. split.
  - intros y h. rewrite cancel_lookup. case_decide as Hxy; [done|]. intros Hy.
    destruct (Hreg _ _ Hy) as (cb & Hcb & Hid). exists cb. split; [|done].
    rewrite live_after_cancel, decide_False; [done|].
    intros Hx. by destruct Hxy; eapply registered_injective.
  - intros p' Hp'. destruct (Hview p' Hp') as (p & Hp & Hid & Hother & Hx).
    rewrite cancel_lookup. case_decide as Hxy.
    + split; [by intros ?%Hx | by intros [? ?]].
    + rewrite Hother by done. rewrite <- Hid. by apply Hrun.
Qed.

(** A fresh interval is registered under [x], and every phase with id [x]
    is running. *)
Lemma consistent_start (x : string) (cb : Interval) :
  tick_id cb = x → timers_tracked t →
  (∀ p', p' ∈ phases' →
         ∃ p, p ∈ phases ∧ id p = id p'
              ∧ (id p' ≠ x → (status p' = running ↔ status p = running))
              ∧ (id p' = x → status p' = running)) →
  registered_live (setInterval x cb (clearInterval (phaseIntervals t !! x) t))
  ∧ running_iff_registered phases'
      (setInterval x cb (clearInterval (phaseIntervals t !! x) t)).
Proof.
  intros Hcb [_ Hold] Hview. split.
  - intros y h Hy. destruct (decide (x = y)) as [<-|Hxy].
    + exists cb. split; [|done]. rewrite live_after_start.
      unfold setInterval in Hy. cbn [phaseIntervals] in Hy.
      rewrite lookup_insert_eq in Hy. injection Hy as <-.
      assert (nextHandle (clearInterval (phaseIntervals t !! x) t) = nextHandle t)
        as -> by by destruct (phaseIntervals t !! x).
      by rewrite decide_True.
    + rewrite start_lookup in Hy by done.
      destruct (Hreg _ _ Hy) as (cb' & Hcb' & Hid). exists cb'. split; [|done].
      rewrite live_after_start.
      assert (h < nextHandle t)%positive as Hlt by (apply Hold; by eexists).
      rewrite decide_False by lia. rewrite decide_False; [done|].
      intros Hx. by destruct Hxy; eapply registered_injective.
  - intros p' Hp'. destruct (Hview p' Hp') as (p & Hp & Hid & Hother & Hx).
    destruct (decide (x = id p')) as [Hxy|Hxy].
    + split; [|by intros _; apply Hx]. intros _. rewrite <- Hxy.
      unfold setInterval. cbn [phaseIntervals]. rewrite lookup_insert_eq. by eexists.
    + rewrite start_lookup by done. rewrite Hother by done.
      rewrite <- Hid. by apply Hrun.
Qed.
End Consistent.

Lemma toggle_phase_same_id (clk : Clock) (p : ExperimentPhase) (t : Timers) :
  toggle_phase (id p) clk p t
  = match status p with
    | running =>
        (paused_phase p,
         delete_phaseInterval (id p) (clearInterval (phaseIntervals t !! id p) t))
    | completed => (reset_phase clk p, t)
    | _ =>
        (started_phase clk p,
         setInterval (id p)
           {| tick_id := id p;
              progressIncrement := increment_of (estimatedDuration p);
              startTime := now clk;
              delay := 200 |}
           (clearInterval (phaseIntervals t !! id p) t))
    end.
Proof.
  unfold toggle_phase. rewrite (proj2 (has_id_true _ _)) by done.
  by destruct (status p).
Qed.

Lemma tick_phase_same_id (cb : Interval) (clk : Clock) (p : ExperimentPhase)
    (t : Timers) :
  tick_id cb = id p → status p = running →
  tick_phase cb clk p t
  = if reaches_100 (progress p) (progressIncrement cb) then
      (completed_phase (startTime cb) clk p,
       delete_phaseInterval (id p) (clearInterval (phaseIntervals t !! id p) t))
    else (with_progress (newProgress (progress p) (progressIncrement cb)) p, t).
Proof.
  intros Hid Hst. unfold tick_phase. rewrite Hid.
  rewrite (proj2 (has_id_true _ _)) by done.
  by rewrite bool_decide_eq_true_2 by done.
Qed.

Lemma toggle_consistent (phaseId : string) (clk : Clock) (s : State) :
  well_formed s → timers_consistent s →
  timers_consistent (togglePhaseExecution phaseId clk s).
Proof.
  intros ((Hnd & _) & (Htr & _) & _) [Hreg Hrun]. unfold timers_consistent.
  rewrite togglePhaseExecution_phases.
  destruct (decide (phaseId ∈ map id (experimentPhases s))) as [Hin|Hout].
  - apply list_elem_of_fmap in Hin as (p & -> & Hp).
    pose proof Hp as [i Hi]%list_elem_of_lookup.
    destruct (togglePhaseExecution_at s i p clk Hnd Hi) as [_ ->].
    assert (∀ q, q ∈ experimentPhases s → id q = id p → q = p) as Huniq
      by (intros q Hq Hid; by eapply NoDup_ids_eq).
    assert (∀ p', p' ∈ map (λ q, (toggle_phase (id p) clk q (timers s)).1)
                          (experimentPhases s) →
              ∃ q, q ∈ experimentPhases s ∧ id q = id p'
                   ∧ (id p' ≠ id p → p' = q)
                   ∧ (id p' = id p →
                      p' = (toggle_phase (id p) clk p (timers s)).1)) as Hview.
    { intros p' (q & -> & Hq)%list_elem_of_fmap. exists q.
      rewrite toggle_phase_id. split_and!; [done..| |].
      - intros Hne. by rewrite toggle_phase_other.
      - intros Hid. by rewrite (Huniq q Hq Hid). }
    revert Hview. generalize (map (λ q, (toggle_phase (id p) clk q (timers s)).1)
                                (experimentPhases s)).
    rewrite toggle_phase_same_id. intros phases' Hview.
    destruct (status p) eqn:Hst; cbn [fst snd] in *.
    + apply (consistent_start (experimentPhases s)); [done..|].
      intros p' Hp'. destruct (Hview p' Hp') as (q & Hq & Hid & Hother & Hsame).
      exists q. split_and!; [done..| |].
      * by intros ->%Hother.
      * by intros ->%Hsame.
    + apply (consistent_cancel (experimentPhases s)); [done..|].
      intros p' Hp'. destruct (Hview p' Hp') as (q & Hq & Hid & Hother & Hsame).
      exists q. split_and!; [done..| |].
      * by intros ->%Hother.
      * by intros ->%Hsame.
    + apply (consistent_start (experimentPhases s)); [done..|].
      intros p' Hp'. destruct (Hview p' Hp') as (q & Hq & Hid & Hother & Hsame).
      exists q. split_and!; [done..| |].
      * by intros ->%Hother.
      * by intros ->%Hsame.
    + apply (consistent_same (experimentPhases s)); [done..|].
      intros p' Hp'. destruct (Hview p' Hp') as (q & Hq & Hid & Hother & Hsame).
      exists q. split_and!; [done..|].
      destruct (decide (id p' = id p)) as [Hp'id|Hne]; [|by rewrite (Hother Hne)].
      rewrite (Hsame Hp'id). rewrite (Huniq q Hq) by congruence. cbn.
      by rewrite Hst.
    + apply (consistent_start (experimentPhases s)); [done..|].
      intros p' Hp'. destruct (Hview p' Hp') as (q & Hq & Hid & Hother & Hsame).
      exists q. split_and!; [done..| |].
      * by intros ->%Hother.
      * by intros ->%Hsame.
  - rewrite togglePhaseExecution_timers, map_with_unchanged.
    + apply (consistent_same (experimentPhases s)); [done..|].
      intros p' (q & -> & Hq)%list_elem_of_fmap. exists q.
      rewrite toggle_phase_other; [done|]. intros <-.
      apply Hout. by apply list_elem_of_fmap_2.
    + apply Forall_forall. intros p Hp t. apply toggle_phase_other. intros <-.
      apply Hout. by apply list_elem_of_fmap_2.
Qed.

Lemma tick_consistent (h : positive) (cb : Interval) (clk : Clock) (s : State) :
  liveIntervals (timers s) !! h = Some cb →
  well_formed s → timers_consistent s → timers_consistent (tick cb clk s).
Proof.
  intros Hlive ((Hnd & _) & (Htr & Hkeys & _) & _) [Hreg Hrun].
  unfold timers_consistent. rewrite tick_phases.
  assert (phaseIntervals (timers s) !! tick_id cb = Some h) as Hh
    by by apply Htr.
  assert (tick_id cb ∈ map id (experimentPhases s)) as Hin by by eapply Hkeys.
  apply list_elem_of_fmap in Hin as (p & Hid & Hp).
  pose proof Hp as [i Hi]%list_elem_of_lookup.
  destruct (tick_at s i p cb clk Hnd Hi Hid) as [_ ->].
  assert (status p = running) as Hst.
  { apply (Hrun p Hp). rewrite <- Hid. by eexists. }
  assert (∀ q, q ∈ experimentPhases s → id q = id p → q = p) as Huniq
    by (intros q Hq Hq'; by eapply NoDup_ids_eq).
  assert (∀ p', p' ∈ map (λ q, (tick_phase cb clk q (timers s)).1)
                        (experimentPhases s) →
            ∃ q, q ∈ experimentPhases s ∧ id q = id p'
                 ∧ (id p' ≠ id p → p' = q)
                 ∧ (id p' = id p → p' = (tick_phase cb clk p (timers s)).1))
    as Hview.
  { intros p' (q & -> & Hq)%list_elem_of_fmap. exists q.
    rewrite tick_phase_id. split_and!; [done..| |].
    - intros Hne. rewrite tick_phase_other; [done|]. left. congruence.
    - intros Hq'. by rewrite (Huniq q Hq Hq'). }
  revert Hview. generalize (map (λ q, (tick_phase cb clk q (timers s)).1)
                              (experimentPhases s)).
  rewrite tick_phase_same_id by done. intros phases' Hview.
  destruct (reaches_100 _ _) eqn:Hreach; cbn [fst snd] in *.
  - apply (consistent_cancel (experimentPhases s)); [done..|].
    intros p' Hp'. destruct (Hview p' Hp') as (q & Hq & Hq' & Hother & Hsame).
    exists q. split_and!; [done..| |].
    + by intros ->%Hother.
    + by intros ->%Hsame.
  - apply (consistent_same (experimentPhases s)); [done..|].
    intros p' Hp'. destruct (Hview p' Hp') as (q & Hq & Hq' & Hother & Hsame).
    exists q. split_and!; [done..|].
    destruct (decide (id p' = id p)) as [Hp'id|Hne]; [|by rewrite (Hother Hne)].
    rewrite (Hsame Hp'id). rewrite (Huniq q Hq) by congruence. done.
Qed.

Lemma handle_consistent (s : State) (ev : Event) :
  well_formed s → valid_event s ev →
  timers_consistent s → timers_consistent (handle s ev).
Proof.
  intros Hwf Hev Hcons. pose proof Hwf as ((Hnd & _) & (Htr & Hkeys & _) & _).
  pose proof Hcons as [Hreg Hrun].
  destruct ev; cbn [handle]; try exact Hcons.
  - unfold handleCanvasDragLeave. destruct targetIsCanvas; exact Hcons.
  - unfold timers_consistent.
    rewrite handleCanvasDrop_phases, handleCanvasDrop_timers.
    destruct (draggingItem s) as [[block|src data]|]; [|done..].
    split; [done|]. intros p [Hp|Hp%list_elem_of_singleton]%elem_of_app.
    + by apply Hrun.
    + subst p. cbn. split; [done|]. intros [h Hh]. destruct Hev. by eapply Hkeys.
  - unfold handlePhaseDragEnter.
    destruct (draggingItem s) as [[block|src data]|]; [exact Hcons| |exact Hcons].
    case_decide; exact Hcons.
  - unfold handlePhaseDragLeave. case_decide; exact Hcons.
  - unfold timers_consistent. rewrite handlePhaseDrop_timers.
    apply (consistent_same (experimentPhases s)); [done..|].
    intros p Hp. exists p. by rewrite <- (handlePhaseDrop_Permutation targetPhaseId s).
  - unfold timers_consistent. rewrite removePhase_phases, removePhase_timers.
    apply (consistent_cancel (experimentPhases s)); [done..|].
    intros p [Hne Hp]%list_elem_of_filter. exists p. by split_and!.
  - apply (consistent_same (experimentPhases s)); [done..|].
    intros p' (q & -> & Hq)%list_elem_of_fmap. exists q.
    by destruct (has_id _ _).
  - by apply toggle_consistent.
  - unfold interval_fires. destruct (_ !! h) as [cb|] eqn:Hlive; [|exact Hcons].
    by eapply tick_consistent.
Qed.

Lemma reachable_consistent (s : State) : reachable s → timers_consistent s.
Proof.
  intros (evs & Hvalid & ->). unfold run.
  assert (well_formed initial) as Hwf.
  { apply reachable_well_formed. by exists []. }
  assert (timers_consistent initial) as Hinit.
  { split; [intros x h; cbn; by rewrite lookup_empty|]. intros p Hp.
    by apply elem_of_nil in Hp. }
  revert Hwf Hinit Hvalid. generalize initial.
  induction evs as [|ev evs IH]; intros s Hwf Hs Hv; [done|].
  destruct Hv as [Hev Hv]. cbn [fold_left].
  apply IH; [by apply handle_well_formed | by apply handle_consistent | done].
Qed.

(** X4: The status and the intervals agree in every reachable state: a phase
    is running exactly when an interval is registered under its id, and
    that interval is live, has captured the id and adds the increment of
    the phase; and every live interval belongs to a running phase of the
    canvas. No running phase is left without its timer and no timer runs
    for a phase that is paused, completed, pending or gone. *)
Theorem running_iff_interval_live (s : State) :
  reachable s →
  (∀ p, p ∈ experimentPhases s →
        (status p = running
         ↔ ∃ h cb, phaseIntervals (timers s) !! id p = Some h
                   ∧ liveIntervals (timers s) !! h = Some cb
                   ∧ tick_id cb = id p
                   ∧ progressIncrement cb = increment_of (estimatedDuration p)))
  ∧ (∀ h cb, liveIntervals (timers s) !! h = Some cb →
             ∃ p, p ∈ experimentPhases s ∧ id p = tick_id cb
                  ∧ status p = running
                  ∧ phaseIntervals (timers s) !! id p = Some h).
Proof.
  intros Hs. destruct (reachable_consistent s Hs) as [Hreg Hrun].
  destruct (reachable_well_formed s Hs) as (_ & (Htr & Hkeys & Hinc) & _).
  split.
  - intros p Hp. rewrite (Hrun p Hp). split.
    + intros [h Hh]. destruct (Hreg _ _ Hh) as (cb & Hcb & Hid).
      exists h, cb. split_and!; [done..|]. by apply (Hinc h).
    + intros (h & _ & Hh & _). by eexists.
  - intros h cb Hcb. pose proof (proj1 Htr _ _ Hcb) as Hh.
    pose proof (Hkeys _ _ Hh) as (p & Hid & Hp)%list_elem_of_fmap.
    exists p. split_and!; [done..| |by rewrite <- Hid].
    apply (Hrun p Hp). rewrite <- Hid. by eexists.
Qed.

Lemma running_iff_interval_live_witness :
  ∃ p, experimentPhases sample_mixed !! 1 = Some p
       ∧ status p = running
       ∧ ∃ h cb, phaseIntervals (timers sample_mixed) !! id p = Some h
                 ∧ liveIntervals (timers sample_mixed) !! h = Some cb
                 ∧ tick_id cb = id p
                 ∧ progressIncrement cb = increment_of (estimatedDuration p).
Proof.
  assert (∃ p, experimentPhases sample_mixed !! 1 = Some p ∧ status p = running)
    as (p & Hp & Hst).
  { eexists. split; [vm_compute; reflexivity | reflexivity]. }
  exists p. split; [done|]. split; [done|].
  apply (running_iff_interval_live sample_mixed); [|by eapply list_elem_of_lookup_2|done].
  eexists. split; [|reflexivity].
  apply (bool_decide_unpack _). vm_compute. exact I.
Defined.

(** X5: Every running phase of a reachable state gets completed: there is a
    number of runs of the interval registered under its id after which
    the phase is completed at 100 with the interval cleared, and before
    which it is still running. *)
Theorem running_phase_gets_completed (s : State) (i : nat) (p : ExperimentPhase) :
  reachable s →
  experimentPhases s !! i = Some p →
  status p = running →
  ∃ (h : positive) (n : nat),
    phaseIntervals (timers s) !! id p = Some h
    ∧ 0 < n
    ∧ ∀ clks : list Clock,
        (length clks < n →
         running_at (fires h clks s) i (id p) h
           (increment_of (estimatedDuration p))
           (progress_from (increment_of (estimatedDuration p)) (progress p)
              (length clks)))
        ∧ (length clks = n → completed_at (fires h clks s) i (id p) h).
Proof.
  intros Hs Hp Hst.
  destruct (reachable_lookup s i p Hs Hp) as (Hnd & Hgrid & Hfull).
  destruct (reachable_consistent s Hs) as [Hreg Hrun].
  destruct (reachable_well_formed s Hs) as (_ & (_ & _ & Hinc) & _).
  assert (p ∈ experimentPhases s) as Hin by by eapply list_elem_of_lookup_2.
  destruct (proj1 (Hrun p Hin) Hst) as [h Hh].
  destruct (Hreg _ _ Hh) as (cb & Hcb & Hid).
  assert (running_at s i (id p) h (increment_of (estimatedDuration p)) (progress p))
    as Hat.
  { split; [done|]. exists p, cb. split_and!; [done..|]. by apply (Hinc h). }
  destruct (on_grid_schedule p Hgrid) as [Hok [H100 | (j & Hj & Hpj)]].
  { apply Hfull in H100. congruence. }
  destruct (schedule_ok_spec _ _ Hok) as (_ & _ & _ & _ & _ & Hall).
  destruct (Hall j Hj) as (_ & _ & _ & _ & Hruns & _).
  rewrite <- Hpj in Hruns.
  exists h, (total_runs (estimatedDuration p) - j). split; [done|].
  split; [lia|]. intros clks.
  by apply (fires_runs_needed i (id p) h _ (total_runs (estimatedDuration p))).
Qed.

Lemma running_phase_gets_completed_witness :
  ∃ (h : positive) (n : nat),
    0 < n
    ∧ completed_at (fires h (replicate n sample_clock) sample_mixed) 1 "b" h.
Proof.
  assert (∃ p, experimentPhases sample_mixed !! 1 = Some p ∧ id p = "b"
               ∧ status p = running)
    as (p & Hp & Hid & Hst).
  { eexists. split; [vm_compute; reflexivity|]. split; reflexivity. }
  assert (reachable sample_mixed) as Hreach.
  { eexists. split; [|reflexivity].
    apply (bool_decide_unpack _). vm_compute. exact I. }
  destruct (running_phase_gets_completed sample_mixed 1 p Hreach Hp Hst)
    as (h & n & _ & Hn & Hruns).
  exists h, n. split; [done|]. rewrite <- Hid. apply Hruns, length_replicate.
Defined.

(** ** An event leaves the intervals of the other phases alone *)

Lemma other_interval_untouched (t t' : Timers) (x y : string) :
  x ≠ y → timers_tracked t → registered_live t →
  t' = t
  ∨ t' = delete_phaseInterval x (clearInterval (phaseIntervals t !! x) t)
  ∨ (∃ cb, t' = setInterval x cb (clearInterval (phaseIntervals t !! x) t)) →
  phaseIntervals t' !! y = phaseIntervals t !! y
  ∧ ∀ h, phaseIntervals t !! y = Some h →
         liveIntervals t' !! h = liveIntervals t !! h.
Proof.
  intros Hxy [_ Hold] Hreg [-> | [-> | [cb ->]]]; [done | |].
  - rewrite cancel_lookup, decide_False by done. split; [done|].
    intros h Hy. rewrite live_after_cancel, decide_False; [done|].
    intros Hx. by destruct Hxy; eapply registered_injective.
  - rewrite start_lookup by done. split; [done|].
    intros h Hy. rewrite live_after_start.
    destruct (Hreg _ _ Hy) as (cb' & Hcb' & _).
    assert (h < nextHandle t)%positive as Hlt by (apply Hold; by eexists).
    rewrite decide_False by lia. rewrite decide_False; [done|].
    intros Hx. by destruct Hxy; eapply registered_injective.
Qed.

(** X6: In a reachable state, an event that is not a toggle or the removal of
    phase [y] and not a run of the interval of [y] leaves that interval as
    it is: registered under [y] and live with the same callback. Pausing,
    completing, restarting or removing one phase never stops or replaces
    the timer of another. *)
Theorem event_keeps_intervals_of_other_phases (s : State) (y : string) (ev : Event) :
  reachable s →
  ¬ addressed_to y s ev →
  phaseIntervals (timers (handle s ev)) !! y = phaseIntervals (timers s) !! y
  ∧ ∀ h, phaseIntervals (timers s) !! y = Some h →
         liveIntervals (timers (handle s ev)) !! h = liveIntervals (timers s) !! h.
Proof.
  intros Hs Hnot.
  destruct (reachable_consistent s Hs) as [Hreg Hrun].
  destruct (reachable_well_formed s Hs) as ((Hnd & _) & (Htr & Hkeys & _) & _).
  destruct ev; cbn [handle addressed_to] in *; try done.
  - unfold handleCanvasDragLeave. by destruct targetIsCanvas.
  - by rewrite handleCanvasDrop_timers.
  - unfold handlePhaseDragEnter. destruct (draggingItem s) as [[b|src d]|]; [done| |done].
    by case_decide.
  - unfold handlePhaseDragLeave. by case_decide.
  - by rewrite handlePhaseDrop_timers.
  - rewrite removePhase_timers.
    apply (other_interval_untouched _ _ phaseId); [done..|]. right. by left.
  - apply (other_interval_untouched _ _ phaseId); [done..|].
    destruct (togglePhaseExecution_timers_cases phaseId clk s Hnd)
      as [-> | (p & Hp & <- & ->)]; [by left|].
    rewrite toggle_phase_same_id. destruct (status p); cbn [snd];
      first [ by left | by right; left | right; right; by eexists ].
  - unfold interval_fires. destruct (_ !! h) as [cb|] eqn:Hlive; [|done].
    assert (phaseIntervals (timers s) !! tick_id cb = Some h) as Hh
      by by apply Htr.
    apply (other_interval_untouched _ _ (tick_id cb)); [congruence | done..|].
    destruct (tick_timers_cases cb clk s Hnd) as [-> | (p & Hp & Hid & ->)];
      [by left|].
    unfold tick_phase. destruct (_ && _); [|by left].
    destruct (reaches_100 _ _); cbn [snd]; [right; by left | by left].
Qed.

Lemma event_keeps_intervals_of_other_phases_witness :
  phaseIntervals (timers (handle sample_mixed (ClickRemove "a"))) !! "b"
  = phaseIntervals (timers sample_mixed) !! "b".
Proof.
  assert (reachable sample_mixed) as Hreach.
  { eexists. split; [|reflexivity].
    apply (bool_decide_unpack _). vm_compute. exact I. }
  assert (¬ addressed_to "b" sample_mixed (ClickRemove "a")) as Hnot.
  { unfold addressed_to. intros H. discriminate H. }
  exact (proj1 (event_keeps_intervals_of_other_phases sample_mixed "b"
                  (ClickRemove "a") Hreach Hnot)).
Defined.

(** ** A run of an interval raises the progress *)




(** ** The recorded duration and the log of a run *)

Lemma runs_needed_pos (d P : float) (fuel n : nat) :
  runs_needed d P fuel = Some n → 0 < n.
Proof.
  revert P n. induction fuel as [|fuel IH]; intros P n; [done|].
  cbn [runs_needed]. destruct (reaches_100 P d).
  - intros [= <-]. lia.
  - intros (n' & _ & ->)%fmap_Some. lia.
Qed.

Lemma interval_fires_running_since (s : State) (i : nat) (x : string)
    (h : positive) (d P : float) (started : Z) (lg : list LogEntry) (clk : Clock) :
  running_since s i x h d P started lg → reaches_100 P d = false →
  running_since (interval_fires h clk s) i x h d (newProgress P d) started lg.
Proof.
  intros (Hnd & p & cb & Hp & Hid & Hst & Hpr & Hlg & Hreg & Hlive & Hcb & Hd & Hst0)
    Hlt.
  unfold interval_fires. rewrite Hlive.
  destruct (tick_at s i p cb clk Hnd Hp) as [Hphases Htimers]; [congruence|].
  rewrite tick_phase_same_id in Hphases, Htimers by congruence.
  rewrite Hpr, Hd, Hlt in Hphases, Htimers. cbn [fst snd] in *. split.
  - rewrite Hphases. by rewrite (insert_ids _ _ p).
  - eexists _, cb. rewrite Hphases, Htimers.
    rewrite list_lookup_insert_eq by (by eapply lookup_lt_Some).
    by split_and!.
Qed.

Lemma interval_fires_completes_since (s : State) (i : nat) (x : string)
    (h : positive) (d P : float) (started : Z) (lg : list LogEntry) (clk : Clock) :
  running_since s i x h d P started lg → reaches_100 P d = true →
  ∃ q, experimentPhases (interval_fires h clk s) !! i = Some q
       ∧ id q = x ∧ status q = completed
       ∧ actualDuration q = Some (now clk - started)%Z
       ∧ logs q = lg ++ [LogCompleted (now clk - started)%Z (localeTime clk)].
Proof.
  intros (Hnd & p & cb & Hp & Hid & Hst & Hpr & Hlg & Hreg & Hlive & Hcb & Hd & Hst0)
    Hge.
  unfold interval_fires. rewrite Hlive.
  destruct (tick_at s i p cb clk Hnd Hp) as [Hphases _]; [congruence|].
  rewrite tick_phase_same_id in Hphases by congruence.
  rewrite Hpr, Hd, Hge in Hphases. cbn [fst] in Hphases.
  eexists. rewrite Hphases.
  rewrite list_lookup_insert_eq by (by eapply lookup_lt_Some).
  split; [done|]. cbn. by rewrite Hst0, Hlg.
Qed.

Lemma fires_completes_since (i : nat) (x : string) (h : positive) (d : float)
    (started : Z) (lg : list LogEntry) (fuel : nat) :
  ∀ (s : State) (P : float) (n : nat) (clks : list Clock) (clk_end : Clock),
    running_since s i x h d P started lg →
    runs_needed d P fuel = Some n → S (length clks) = n →
    ∃ q, experimentPhases (fires h (clks ++ [clk_end]) s) !! i = Some q
         ∧ id q = x ∧ status q = completed
         ∧ actualDuration q = Some (now clk_end - started)%Z
         ∧ logs q = lg ++ [LogCompleted (now clk_end - started)%Z (localeTime clk_end)].
Proof.
  induction fuel as [|fuel IH]; intros s P n clks clk_end Hrun; [done|].
  cbn [runs_needed]. destruct (reaches_100 P d) eqn:Hreach.
  - intros [= <-] Hlen. destruct clks; [|done].
    by eapply interval_fires_completes_since.
  - intros (n' & Hn' & ->)%fmap_Some Hlen.
    pose proof (runs_needed_pos _ _ _ _ Hn') as Hpos.
    destruct clks as [|clk clks]; [simpl in Hlen; lia|].
    apply (IH (interval_fires h clk s) (newProgress P d) n' clks clk_end);
      [by apply interval_fires_running_since | done | simpl in Hlen; lia].
Qed.

Lemma togglePhaseExecution_starts_since (s : State) (i : nat) (p : ExperimentPhase)
    (clk : Clock) :
  NoDup (map id (experimentPhases s)) → experimentPhases s !! i = Some p →
  status p ≠ running → status p ≠ completed →
  running_since (togglePhaseExecution (id p) clk s) i (id p) (nextHandle (timers s))
    (increment_of (estimatedDuration p))
    (if decide (status p = paused) then progress p else 0%float)
    (now clk) (logs p ++ [LogStarted (localeTime clk)]).
Proof.
  intros Hnd Hp Hnr Hnc.
  destruct (togglePhaseExecution_at s i p clk Hnd Hp) as [Hphases Htimers].
  rewrite toggle_phase_same_id in Hphases, Htimers.
  set (cb := {| tick_id := id p;
                progressIncrement := increment_of (estimatedDuration p);
                startTime := now clk;
                delay := 200 |}) in *.
  assert (match status p with
          | running =>
              (paused_phase p,
               delete_phaseInterval (id p)
                 (clearInterval (phaseIntervals (timers s) !! id p) (timers s)))
          | completed => (reset_phase clk p, timers s)
          | _ => (started_phase clk p,
                  setInterval (id p) cb
                    (clearInterval (phaseIntervals (timers s) !! id p) (timers s)))
          end
          = (started_phase clk p,
             setInterval (id p) cb
               (clearInterval (phaseIntervals (timers s) !! id p) (timers s))))
    as Hcase by by destruct (status p).
  rewrite Hcase in Hphases, Htimers. cbn [fst snd] in *. split.
  - rewrite Hphases. by rewrite (insert_ids _ _ p).
  - exists (started_phase clk p), cb. rewrite Hphases, Htimers.
    rewrite list_lookup_insert_eq by (by eapply lookup_lt_Some).
    assert (nextHandle (clearInterval (phaseIntervals (timers s) !! id p) (timers s))
            = nextHandle (timers s)) as Hnext
      by by destruct (phaseIntervals (timers s) !! id p).
    unfold setInterval. cbn [phaseIntervals liveIntervals]. rewrite Hnext.
    rewrite !lookup_insert_eq. by split_and!.
Qed.

(** X8: The duration a completed phase shows is counted from its last start:
    in a reachable state, a phase that is started, or resumed after a
    pause, at one clock reading and runs undisturbed is completed by some
    run of its new interval, and [actualDuration] is then the clock of
    that run minus the clock of the start or resume; the time the phase
    ran before a pause is not part of it. The log gains one entry for the
    start and one for the completion. *)
Theorem actualDuration_counts_from_last_start (s : State) (i : nat)
    (p : ExperimentPhase) (clk : Clock) :
  reachable s →
  experimentPhases s !! i = Some p →
  status p = pending ∨ status p = paused →
  ∃ n : nat,
    0 < n
    ∧ ∀ (clks : list Clock) (clk_end : Clock),
        S (length clks) = n →
        ∃ q,
          experimentPhases
            (fires (nextHandle (timers s)) (clks ++ [clk_end])
               (togglePhaseExecution (id p) clk s)) !! i = Some q
          ∧ id q = id p ∧ status q = completed
          ∧ actualDuration q = Some (now clk_end - now clk)%Z
          ∧ logs q
            = logs p
              ++ [LogStarted (localeTime clk);
                  LogCompleted (now clk_end - now clk)%Z (localeTime clk_end)].
Proof.
  intros Hs Hp Hst.
  destruct (reachable_lookup s i p Hs Hp) as (Hnd & Hgrid & Hfull).
  pose proof (togglePhaseExecution_starts_since s i p clk Hnd Hp) as Hrun.
  destruct (on_grid_schedule p Hgrid) as [Hok Hcases].
  destruct (schedule_ok_spec _ _ Hok) as (Htotal & _ & _ & _ & _ & Hall).
  assert (∃ j, j < total_runs (estimatedDuration p)
               ∧ (if decide (status p = paused) then progress p else 0%float)
                 = progress_after (increment_of (estimatedDuration p)) j)
    as (j & Hj & Hpj).
  { case_decide as Hpaused.
    - destruct Hcases as [H100 | (j & Hj & Hpj)]; [|by exists j].
      apply Hfull in H100. congruence.
    - by exists 0. }
  destruct (Hall j Hj) as (_ & _ & _ & _ & Hruns & _).
  rewrite <- Hpj in Hruns.
  exists (total_runs (estimatedDuration p) - j). split; [lia|].
  intros clks clk_end Hlen.
  assert (status p ≠ running ∧ status p ≠ completed) as [Hnr Hnc]
    by (destruct Hst as [-> | ->]; done).
  specialize (Hrun Hnr Hnc).
  destruct (fires_completes_since _ _ _ _ _ _ _ _ _ _ clks clk_end Hrun Hruns)
    as (q & Hq & Hid & Hstq & Hdur & Hlogs); [lia|].
  exists q. split_and!; [done..|]. by rewrite Hlogs, <- app_assoc.
Qed.

Lemma actualDuration_counts_from_last_start_witness :
  ∃ n : nat,
    0 < n
    ∧ ∃ q,
        experimentPhases
          (fires (nextHandle (timers sample_paused))
             (replicate (n - 1) sample_clock ++ [{| now := 9000; localeTime := "10:00:09" |}])
             (togglePhaseExecution "a" {| now := 3000; localeTime := "10:00:03" |}
                sample_paused)) !! 0 = Some q
        ∧ actualDuration q = Some 6000%Z.
Proof.
  assert (∃ p, experimentPhases sample_paused !! 0 = Some p ∧ id p = "a"
               ∧ status p = paused)
    as (p & Hp & Hid & Hst).
  { eexists. split; [vm_compute; reflexivity|]. split; reflexivity. }
  assert (reachable sample_paused) as Hreach.
  { eexists. split; [|reflexivity].
    apply (bool_decide_unpack _). vm_compute. exact I. }
  destruct (actualDuration_counts_from_last_start sample_paused 0 p
              {| now := 3000; localeTime := "10:00:03" |} Hreach Hp (or_intror Hst))
    as (n & Hn & Hruns).
  exists n. split; [done|].
  destruct (Hruns (replicate (n - 1) sample_clock)
              {| now := 9000; localeTime := "10:00:09" |})
    as (q & Hq & _ & _ & Hdur & _).
  { rewrite length_replicate. lia. }
  exists q. rewrite <- Hid. by split.
Defined.

(** ** Pause, resume and the time left *)

Lemma seconds_of_ticks_200 (interval : Interval) (n : nat) :
  delay interval = 200%Z → (seconds_of_ticks interval n == seconds_of_runs n)%Q.
Proof.
  intros Hd. unfold seconds_of_ticks, seconds_of_runs. rewrite Hd.
  rewrite inject_Z_mult. change (inject_Z 200) with 200%Q. field.
Qed.

(** A whole number of runs that is within a run (and a little) above a
    rational is the integer nearest to the rational, or the next. *)
Lemma nearest_or_next (n : Z) (y : Q) :
  (y < inject_Z n + (1 # 2))%Q → (inject_Z n - 1 <= y + (1 # 2))%Q →
  n = Qfloor (y + (1 # 2))%Q ∨ n = (Qfloor (y + (1 # 2))%Q + 1)%Z.
Proof.
  intros Hhi Hlo.
  pose proof (Qfloor_le (y + (1 # 2))) as Hfl.
  pose proof (Qlt_floor (y + (1 # 2))) as Hlt.
  set (z := Qfloor (y + (1 # 2))) in *.
  rewrite inject_Z_plus in Hlt. change (inject_Z 1) with 1%Q in Hlt.
  assert (inject_Z z < inject_Z n + 1)%Q as H1 by lra.
  assert (inject_Z n - 1 - 1 < inject_Z z)%Q as H2 by lra.
  assert (z < n + 1)%Z as H1'.
  { rewrite Zlt_Qlt, inject_Z_plus. exact H1. }
  assert (n - 2 < z)%Z as H2'.
  { rewrite Zlt_Qlt. unfold Z.sub. rewrite inject_Z_plus, inject_Z_opp.
    change (inject_Z 2) with 2%Q. lra. }
  lia.
Qed.

Lemma on_time_last (started delay : Z) (clks : list Clock) (clk_end : Clock) :
  on_time started delay (clks ++ [clk_end]) →
  now clk_end = (started + Z.of_nat (S (length clks)) * delay)%Z.
Proof.
  intros Hon. apply (Hon (length clks)).
  rewrite lookup_app_r by lia. by rewrite Nat.sub_diag.
Qed.

(** The interval that a start or a resume registers: its delay is 200ms
    and its start time is the clock of the click. *)
Lemma togglePhaseExecution_starts_interval (s : State) (i : nat)
    (p : ExperimentPhase) (clk : Clock) :
  NoDup (map id (experimentPhases s)) → experimentPhases s !! i = Some p →
  status p ≠ running → status p ≠ completed →
  liveIntervals (timers (togglePhaseExecution (id p) clk s)) !! nextHandle (timers s)
  = Some {| tick_id := id p;
            progressIncrement := increment_of (estimatedDuration p);
            startTime := now clk;
            delay := 200 |}.
Proof.
  intros Hnd Hp Hnr Hnc.
  destruct (togglePhaseExecution_at s i p clk Hnd Hp) as [_ Htimers].
  rewrite toggle_phase_same_id in Htimers. rewrite Htimers.
  assert (nextHandle (clearInterval (phaseIntervals (timers s) !! id p) (timers s))
          = nextHandle (timers s)) as Hnext
    by by destruct (phaseIntervals (timers s) !! id p).
  destruct (status p); try done; cbn [snd setInterval liveIntervals];
    rewrite Hnext; apply lookup_insert_eq.
Qed.

(** As [pause_then_resume], with the start time and the delay of the new
    interval and the log of the phase. *)
Lemma pause_then_resume_since (s : State) (i : nat) (p : ExperimentPhase)
    (clk clk' : Clock) :
  NoDup (map id (experimentPhases s)) →
  experimentPhases s !! i = Some p →
  status p = running →
  let x := id p in
  let s1 := togglePhaseExecution x clk s in
  let s2 := togglePhaseExecution x clk' s1 in
  let h := nextHandle (timers s1) in
  running_since s2 i x h (increment_of (estimatedDuration p)) (progress p)
    (now clk') (logs p ++ [LogStarted (localeTime clk')])
  ∧ liveIntervals (timers s2) !! h
    = Some {| tick_id := x;
              progressIncrement := increment_of (estimatedDuration p);
              startTime := now clk';
              delay := 200 |}.
Proof.
  intros Hnd Hp Hst x s1 s2 h.
  destruct (togglePhaseExecution_pauses s i p clk Hnd Hp Hst) as [Hphases _].
  fold x s1 in Hphases.
  assert (experimentPhases s1 !! i = Some (paused_phase p)) as Hp1.
  { rewrite Hphases. apply list_lookup_insert_eq. by eapply lookup_lt_Some. }
  assert (NoDup (map id (experimentPhases s1))) as Hnd1.
  { rewrite Hphases. by rewrite (insert_ids _ _ p). }
  split.
  - by apply (togglePhaseExecution_starts_since s1 i (paused_phase p) clk' Hnd1 Hp1).
  - by apply (togglePhaseExecution_starts_interval s1 i (paused_phase p) clk' Hnd1 Hp1).
Qed.

Lemma sample_clocks_on_time (n : nat) :
  length (sample_clocks n) = n ∧ on_time 0 200 (sample_clocks n).
Proof.
  unfold sample_clocks. split; [by rewrite length_fmap, length_seq|].
  intros k clk Hk. apply list_lookup_fmap_Some in Hk as (j & -> & Hj).
  apply lookup_seq in Hj as [-> _]. cbn [now]. lia.
Qed.

(** C4 as stated fails for the Analysis Algorithm block: its increment
    100 / 75 is not a double that 75 additions bring to 100. Paused after
    10 runs and resumed at time 0, with the runs of the new interval made
    on time, every 200ms, the phase is still running after 65 runs and
    completed by the 66th, and the duration it records is 13200ms, while
    (100 - P) / 100 * 15 is 13 seconds. *)
Lemma resumed_analysis_needs_one_more_run :
  let paused_state := togglePhaseExecution "a" sample_clock sample_analysis in
  let resumed := togglePhaseExecution "a" sample_clock paused_state in
  let after n := experimentPhases (fires 2 (sample_clocks n) resumed) !! 0 in
  reachable sample_analysis
  ∧ ∃ p, experimentPhases sample_analysis !! 0 = Some p
         ∧ status p = running ∧ estimatedDuration p = 15%float
         ∧ (∃ q, experimentPhases paused_state !! 0 = Some q
                 ∧ status q = paused ∧ progress q = progress p)
         ∧ (∃ q, experimentPhases resumed !! 0 = Some q
                 ∧ status q = running ∧ progress q = progress p)
         ∧ (∃ interval, liveIntervals (timers resumed) !! 2%positive = Some interval
                        ∧ delay interval = 200%Z ∧ startTime interval = 0%Z
                        ∧ (seconds_of_ticks interval 66 == 132 / 10)%Q)
         ∧ on_time 0 200 (sample_clocks 66)
         ∧ status <$> after 65 = Some running
         ∧ status <$> after 66 = Some completed
         ∧ actualDuration <$> after 66 = Some (Some 13200%Z)
         ∧ (remaining_by_proportion (progress p) (estimatedDuration p)
            <= 13 + (1 # 1000000000))%Q
         ∧ ¬ (132 / 10
              == remaining_by_proportion (progress p) (estimatedDuration p))%Q.
Proof.
  intros paused_state resumed after. split.
  { exists sample_analysis_events. split; [|reflexivity].
    apply (bool_decide_unpack _). vm_compute. exact I. }
  eexists. split; [vm_compute; reflexivity|].
  split; [reflexivity|]. split; [reflexivity|].
  split; [eexists; split; [vm_compute; reflexivity | split; reflexivity]|].
  split; [eexists; split; [vm_compute; reflexivity | split; reflexivity]|].
  split.
  { eexists. split; [vm_compute; reflexivity|]. split; [reflexivity|].
    split; [reflexivity|]. apply Qeq_bool_iff. vm_compute. reflexivity. }
  split.
  { apply sample_clocks_on_time. }
  split; [vm_compute; reflexivity|]. split; [vm_compute; reflexivity|].
  split; [vm_compute; reflexivity|].
  split; [apply Qle_bool_iff; vm_compute; reflexivity|].
  intros Heq%Qeq_bool_iff. vm_compute in Heq. discriminate Heq.
Qed.

(** C4, amended: in every reachable state, toggling a running phase clears
    its interval, deletes the registration and leaves the phase paused
    with its progress P as it was; toggling it again starts a fresh
    interval with a delay of 200ms and the same increment from P, not from
    0. Some run n of the new interval completes the phase and none before
    it; when the runs are made on time the duration the phase records is n
    times the delay. That number n is (100 - P) / 100 * estimatedDuration
    seconds counted in runs and rounded to the nearest whole number, or
    one more; so the time is short of (100 - P) / 100 * estimatedDuration
    by at most a nanosecond and longer by at most one run and a
    nanosecond, and with an estimated duration of 10, 20 or 8 it is
    exactly that. *)
Theorem pause_keeps_progress_resume_continues (s : State) (i : nat)
    (p : ExperimentPhase) (clk clk' : Clock) :
  reachable s →
  experimentPhases s !! i = Some p →
  status p = running →
  let x := id p in
  let s1 := togglePhaseExecution x clk s in
  let s2 := togglePhaseExecution x clk' s1 in
  let h := nextHandle (timers s1) in
  let d := (100 / (estimatedDuration p * 5))%float in
  let rest := remaining_by_proportion (progress p) (estimatedDuration p) in
  experimentPhases s1 = <[i := paused_phase p]> (experimentPhases s)
  ∧ (∃ q, experimentPhases s1 !! i = Some q ∧ status q = paused
          ∧ progress q = progress p)
  ∧ phaseIntervals (timers s1) !! x = None
  ∧ (∀ h0, phaseIntervals (timers s) !! x = Some h0 →
           liveIntervals (timers s1) !! h0 = None)
  ∧ (∃ q, experimentPhases s2 !! i = Some q ∧ status q = running
          ∧ progress q = progress p)
  ∧ running_at s2 i x h d (progress p)
  ∧ ∃ interval : Interval,
      liveIntervals (timers s2) !! h = Some interval
      ∧ delay interval = 200%Z ∧ startTime interval = now clk'
      ∧ ∃ n : nat,
          0 < n
          ∧ (∀ clks : list Clock,
               (length clks < n →
                running_at (fires h clks s2) i x h d
                  (progress_from d (progress p) (length clks)))
               ∧ (length clks = n → completed_at (fires h clks s2) i x h))
          ∧ (∀ clks : list Clock,
               length clks = n → on_time (now clk') (delay interval) clks →
               ∃ q, experimentPhases (fires h clks s2) !! i = Some q
                    ∧ status q = completed
                    ∧ actualDuration q = Some (Z.of_nat n * delay interval)%Z)
          ∧ (Z.of_nat n = nearest_ticks interval (progress p) (estimatedDuration p)
             ∨ Z.of_nat n
               = (nearest_ticks interval (progress p) (estimatedDuration p) + 1)%Z)
          ∧ (rest <= seconds_of_ticks interval n + (1 # 1000000000))%Q
          ∧ (seconds_of_ticks interval n
             <= rest + seconds_of_ticks interval 1 + (1 # 1000000000))%Q
          ∧ (estimatedDuration p = 10%float ∨ estimatedDuration p = 20%float
             ∨ estimatedDuration p = 8%float →
             (seconds_of_ticks interval n == rest)%Q).
Proof.
  intros Hreach Hp Hst x s1 s2 h d rest.
  destruct (reachable_lookup s i p Hreach Hp) as (Hnd & Hgrid & Hfull).
  destruct (pause_then_resume s i p clk clk' Hnd Hp Hst)
    as (H1 & H2 & H3 & H4 & H5 & Hrun).
  destruct (pause_then_resume_since s i p clk clk' Hnd Hp Hst) as [Hsince Hlive].
  destruct (on_grid_schedule p Hgrid) as [Hok [H100 | (j & Hj & Hpj)]].
  { apply Hfull in H100. congruence. }
  destruct (schedule_ok_spec _ _ Hok) as (_ & Hd & _ & _ & _ & Hall).
  destruct (Hall j Hj) as (_ & _ & _ & _ & Hruns & Hlo & Hhi).
  rewrite <- Hpj in Hruns, Hlo, Hhi. rewrite Hd in Hrun, Hruns, Hsince.
  change (running_at s2 i x h d (progress p)) in Hrun.
  fold x s1 s2 h d in Hsince, Hlive, Hruns. fold rest in Hlo, Hhi.
  split_and!; [done..|].
  eexists. split; [exact Hlive|]. cbn [delay startTime].
  split; [done|]. split; [done|].
  set (n := total_runs (estimatedDuration p) - j) in *.
  set (interval := {| tick_id := x; progressIncrement := _; startTime := _;
                      delay := 200 |}).
  assert (∀ k, seconds_of_ticks interval k == seconds_of_runs k)%Q as Hsec
    by (intros k; by apply seconds_of_ticks_200).
  exists n. split; [lia|]. split_and!.
  - intros clks. by apply (fires_runs_needed i x h d (total_runs (estimatedDuration p))).
  - intros clks Hlen Hon.
    destruct clks as [|clk_end clks _] using rev_ind; [simpl in Hlen; lia|].
    rewrite length_app in Hlen. cbn [length] in Hlen.
    destruct (fires_completes_since i x h d (now clk')
                (logs p ++ [LogStarted (localeTime clk')])
                (total_runs (estimatedDuration p)) s2 (progress p) n clks clk_end
                Hsince Hruns)
      as (q & Hq & _ & Hstq & Hdur & _); [lia|].
    exists q. split_and!; [done..|]. rewrite Hdur.
    rewrite (on_time_last _ _ _ _ Hon). f_equal. lia.
  - apply nearest_or_next.
    + change (delay interval) with 200%Z. change (inject_Z 200) with 200%Q.
      fold rest. unfold seconds_of_runs in Hlo.
      set (N := inject_Z (Z.of_nat n)) in *. clearbody rest N.
      assert (rest * 1000 / 200 == rest * 5)%Q as -> by field.
      assert (N * (200 / 1000) == N * (1 # 5))%Q as E by field.
      rewrite E in Hlo. lra.
    + change (delay interval) with 200%Z. change (inject_Z 200) with 200%Q.
      fold rest. unfold seconds_of_runs in Hhi.
      set (N := inject_Z (Z.of_nat n)) in *. clearbody rest N.
      assert (rest * 1000 / 200 == rest * 5)%Q as -> by field.
      assert (N * (200 / 1000) == N * (1 # 5))%Q as E by field.
      rewrite E in Hhi. lra.
  - by rewrite Hsec.
  - rewrite !Hsec.
    assert (seconds_of_runs 1 == 1 # 5)%Q as -> by reflexivity.
    exact Hhi.
  - intros Hexact%schedule_exact_estimates. rewrite Hsec. unfold rest. rewrite Hpj.
    by apply schedule_exact_spec.
Qed.

Lemma pause_keeps_progress_resume_continues_witness :
  let h := nextHandle (timers (togglePhaseExecution "a" sample_clock sample_running)) in
  let resumed := togglePhaseExecution "a" sample_clock
                   (togglePhaseExecution "a" sample_clock sample_running) in
  ∃ n : nat,
    0 < n
    ∧ completed_at (fires h (sample_clocks n) resumed) 0 "a" h
    ∧ ∃ q, experimentPhases (fires h (sample_clocks n) resumed) !! 0 = Some q
           ∧ status q = completed
           ∧ actualDuration q = Some (Z.of_nat n * 200)%Z.
Proof.
  intros h resumed.
  assert (∃ p, experimentPhases sample_running !! 0 = Some p ∧ id p = "a"
               ∧ status p = running)
    as (p & Hp & Hid & Hst).
  { eexists. split; [vm_compute; reflexivity|]. split; reflexivity. }
  assert (reachable sample_running) as Hreach.
  { exists sample_running_events. split; [|reflexivity].
    apply (bool_decide_unpack _). vm_compute. exact I. }
  unfold h, resumed. rewrite <- Hid.
  pose proof (pause_keeps_progress_resume_continues sample_running 0 p
                sample_clock sample_clock Hreach Hp Hst)
    as (_ & _ & _ & _ & _ & _ & interval & _ & Hdelay & _ & n & Hn & Hruns & Htime & _).
  destruct (sample_clocks_on_time n) as [Hlen Hon].
  exists n. split; [done|]. split; [by apply Hruns|].
  rewrite Hdelay in Htime. by apply Htime.
Defined.

(** The nanosecond is needed: a phase of 12 seconds paused after 7 runs
    has 53 runs left, 10.6 seconds, and (100 - P) / 100 * 12 is a little
    more than that, P being a little less than 7 times 100 / 60. *)
Example resumed_report_is_a_little_short :
  let d := increment_of 12 in
  let P := progress_after d 7 in
  runs_needed d P 60 = Some 53
  ∧ (seconds_of_runs 53 == 106 / 10)%Q
  ∧ (seconds_of_runs 53 < remaining_by_proportion P 12)%Q
  ∧ (remaining_by_proportion P 12 <= seconds_of_runs 53 + (1 # 1000000000))%Q.
Proof.
  split; [vm_compute; reflexivity|]. split; [vm_compute; reflexivity|].
  split; [vm_compute; reflexivity|]. apply Qle_bool_iff. vm_compute. reflexivity.
Qed.

(** ** What the button of a phase does *)

(** X9: The button of a phase does what its text says, with two things to
    note: Re-run only resets the phase to pending at 0 with an empty
    history (one log entry for the reset, no duration, no interval); a
    second click starts it; and Retry, like Run, starts from 0 while
    Resume keeps the progress. After the click the text has changed. *)
Theorem toggle_does_what_the_button_says (s : State) (i : nat)
    (p : ExperimentPhase) (clk : Clock) :
  NoDup (map id (experimentPhases s)) →
  experimentPhases s !! i = Some p →
  let s' := togglePhaseExecution (id p) clk s in
  let button := getRunButtonText (Some (status p)) in
  ∃ q,
    experimentPhases s' !! i = Some q
    ∧ id q = id p ∧ estimatedDuration q = estimatedDuration p ∧ text q = text p
    ∧ getRunButtonText (Some (status q)) ≠ button
    ∧ (button = "Run" ∨ button = "Retry" →
       status q = running ∧ progress q = 0%float
       ∧ phaseIntervals (timers s') !! id p = Some (nextHandle (timers s)))
    ∧ (button = "Resume" →
       status q = running ∧ progress q = progress p
       ∧ phaseIntervals (timers s') !! id p = Some (nextHandle (timers s)))
    ∧ (button = "Pause" →
       status q = paused ∧ progress q = progress p
       ∧ phaseIntervals (timers s') !! id p = None)
    ∧ (button = "Re-run" →
       status q = pending ∧ progress q = 0%float ∧ actualDuration q = None
       ∧ logs q = [LogReset (localeTime clk)] ∧ timers s' = timers s
       ∧ getRunButtonText (Some (status q)) = "Run").
Proof.
  intros Hnd Hp s' button.
  destruct (togglePhaseExecution_at s i p clk Hnd Hp) as [Hphases Htimers].
  fold s' in Hphases, Htimers.
  rewrite toggle_phase_same_id in Hphases, Htimers.
  assert (i < length (experimentPhases s)) as Hi by by eapply lookup_lt_Some.
  assert (nextHandle (clearInterval (phaseIntervals (timers s) !! id p) (timers s))
          = nextHandle (timers s)) as Hnext
    by by destruct (phaseIntervals (timers s) !! id p).
  subst button.
  destruct (status p) eqn:Hst; cbn [fst snd getRunButtonText] in *.
  - exists (started_phase clk p). rewrite Hphases, Htimers.
    split; [by apply list_lookup_insert_eq|]. cbn. rewrite Hst, Hnext. cbn.
    rewrite lookup_insert_eq.
    split_and!; try done; try (intros H; discriminate H);
      try (intros [H|H]; discriminate H).
  - exists (paused_phase p). rewrite Hphases, Htimers.
    split; [by apply list_lookup_insert_eq|].
    rewrite cancel_lookup, decide_True by done. cbn.
    split_and!; try done; try (intros H; discriminate H);
      try (intros [H|H]; discriminate H).
  - exists (started_phase clk p). rewrite Hphases, Htimers.
    split; [by apply list_lookup_insert_eq|]. cbn. rewrite Hst, Hnext. cbn.
    rewrite lookup_insert_eq.
    split_and!; try done; try (intros H; discriminate H);
      try (intros [H|H]; discriminate H).
  - exists (reset_phase clk p). rewrite Hphases, Htimers.
    split; [by apply list_lookup_insert_eq|]. cbn.
    split_and!; try done; try (intros H; discriminate H);
      try (intros [H|H]; discriminate H).
  - exists (started_phase clk p). rewrite Hphases, Htimers.
    split; [by apply list_lookup_insert_eq|]. cbn. rewrite Hst, Hnext. cbn.
    rewrite lookup_insert_eq.
    split_and!; try done; try (intros H; discriminate H);
      try (intros [H|H]; discriminate H).
Qed.

Lemma toggle_does_what_the_button_says_witness :
  ∃ q,
    experimentPhases (togglePhaseExecution "a" sample_clock sample_one_done) !! 0
    = Some q
    ∧ status q = pending ∧ logs q = [LogReset (localeTime sample_clock)].
Proof.
  assert (∃ p, experimentPhases sample_one_done !! 0 = Some p ∧ id p = "a"
               ∧ status p = completed)
    as (p & Hp & Hid & Hst).
  { eexists. split; [vm_compute; reflexivity|]. split; reflexivity. }
  assert (NoDup (map id (experimentPhases sample_one_done))) as Hnd.
  { apply (bool_decide_unpack _). vm_compute. exact I. }
  destruct (toggle_does_what_the_button_says sample_one_done 0 p sample_clock Hnd Hp)
    as (q & Hq & _ & _ & _ & _ & _ & _ & _ & Hrerun).
  rewrite Hst in Hrerun. destruct (Hrerun eq_refl) as (Hs & _ & _ & Hl & _).
  exists q. rewrite <- Hid. by split_and!.
Defined.

(** X10: The guard against a division by zero: when the number of steps
    [estimatedDuration * (1000 / 200)] is not positive (a negative
    estimate, or one that is not a number), the increment is 100 and the
    first run of the interval completes a phase started from pending. *)
Theorem nonpositive_steps_complete_at_first_run (s : State) (i : nat)
    (p : ExperimentPhase) (clk clk' : Clock) :
  NoDup (map id (experimentPhases s)) →
  experimentPhases s !! i = Some p →
  status p = pending ∨ status p = failed →
  (0 <? estimatedDuration p * (1000 / 200))%float = false →
  let h := nextHandle (timers s) in
  let s1 := togglePhaseExecution (id p) clk s in
  increment_of (estimatedDuration p) = 100%float
  ∧ running_at s1 i (id p) h 100 0
  ∧ completed_at (interval_fires h clk' s1) i (id p) h.
Proof.
  intros Hnd Hp Hst Hsteps h s1.
  assert (increment_of (estimatedDuration p) = 100%float) as Hinc
    by (unfold increment_of; by rewrite Hsteps).
  destruct (togglePhaseExecution_starts s i p clk Hnd Hp) as [_ Hrun];
    [destruct Hst as [-> | ->]; done..|].
  rewrite Hinc, decide_False in Hrun by (destruct Hst as [-> | ->]; done).
  split; [done|]. split; [done|].
  by apply (interval_fires_completes _ _ _ _ 100 0).
Qed.

Lemma nonpositive_steps_complete_at_first_run_witness :
  completed_at
    (interval_fires 1 sample_clock (togglePhaseExecution "n" sample_clock sample_negative))
    0 "n" 1.
Proof.
  apply (nonpositive_steps_complete_at_first_run sample_negative 0
           (newPhase "n" negative_block) sample_clock sample_clock).
  - apply (bool_decide_unpack _). vm_compute. exact I.
  - reflexivity.
  - by left.
  - reflexivity.
Defined.

(** ** Calls of [runAllPhases] that start nothing *)

Lemma find_has_id_absent (x : string) (phases : list ExperimentPhase) :
  x ∉ map id phases → find (has_id x) phases = None.
Proof.
  induction phases as [|p rest IH]; [done|]. cbn [map].
  intros [Hne Habs]%not_elem_of_cons. cbn.
  rewrite (proj2 (has_id_false _ _)) by done. by apply IH.
Qed.

(** X11: With no phase pending or failed, [runAllPhases] returns at once and
    changes nothing; this is the case whenever its button is disabled (no
    phase, or all completed), and also when the button is enabled but
    every phase is running, paused or completed. *)
Theorem runAllPhases_with_nothing_to_run (s : State) (clk : Clock) :
  (Forall (λ p, status p ≠ pending ∧ status p ≠ failed) (experimentPhases s) →
   runAllPhases clk s = (s, Returned))
  ∧ (runAll_disabled (experimentPhases s) = true →
     runAllPhases clk s = (s, Returned)).
Proof.
  assert (Forall (λ p, status p ≠ pending ∧ status p ≠ failed) (experimentPhases s) →
          runAllPhases clk s = (s, Returned)) as Hnone.
  { intros Hall. unfold runAllPhases, phasesToRun.
    assert (filter (λ p, status p = pending ∨ status p = failed) (experimentPhases s)
            = []) as ->; [|done].
    induction Hall as [|p rest [Hp Hf] _ IH]; [done|].
    rewrite filter_cons_False by tauto. done. }
  split; [done|]. intros Hdis. apply Hnone.
  unfold runAll_disabled in Hdis. apply orb_true_iff in Hdis as [Hempty|Hcomplete].
  - apply bool_decide_eq_true in Hempty.
    apply length_zero_iff_nil in Hempty. rewrite Hempty. constructor.
  - destruct (experimentPhases s) as [|p rest] eqn:E; [done|].
    unfold overallExperimentProgress in Hcomplete. cbn [isComplete] in Hcomplete.
    apply andb_true_iff in Hcomplete as [Hcount _].
    apply bool_decide_eq_true in Hcount.
    apply completed_count_all in Hcount.
    eapply Forall_impl; [exact Hcount|]. intros q Hq. by rewrite Hq.
Qed.

Lemma runAllPhases_with_nothing_to_run_witness :
  runAllPhases sample_clock sample_analysis = (sample_analysis, Returned).
Proof.
  apply (proj1 (runAllPhases_with_nothing_to_run sample_analysis sample_clock)).
  apply (bool_decide_unpack _). vm_compute. exact I.
Defined.

(** X12: When the phase a call of [runAllPhases] waits for is removed, the call
    never goes on: as long as the id is not given to a new phase (which
    [uuidv7] does not do), every later event is handled as if there were
    no call, and the rest of its snapshot is never started. *)
Theorem runAllPhases_waits_forever_for_a_removed_phase (s : State) (x : string)
    (rest : list ExperimentPhase) (clk : Clock) (later : list (Event * Clock)) :
  Forall (λ ev, ev.1 ≠ CanvasDrop x) later →
  fold_left handle_under_runAll later
    (handle_under_runAll (s, Awaiting x rest) (ClickRemove x, clk))
  = (fold_left handle (map fst later) (removePhase x s), Awaiting x rest).
Proof.
  intros Hlater.
  assert (forgotten x (removePhase x s)) as Hgone.
  { split.
    - rewrite removePhase_phases.
      intros (p & Hid & [Hne _]%list_elem_of_filter)%list_elem_of_fmap. done.
    - rewrite removePhase_timers, cancel_lookup. by rewrite decide_True. }
  assert (∀ s0, forgotten x s0 →
            runAll_resume clk (Awaiting x rest) s0 = (s0, Awaiting x rest)) as Hwait.
  { intros s0 [Habs _]. unfold runAll_resume, resolves.
    by rewrite find_has_id_absent. }
  unfold handle_under_runAll at 2. cbn [fst snd handle].
  rewrite Hwait by done.
  revert Hgone. generalize (removePhase x s).
  induction Hlater as [|ev later Hev _ IH]; intros s0 Hs0; [done|].
  cbn [fold_left map]. unfold handle_under_runAll at 2. cbn [fst snd].
  assert (forgotten x (handle s0 ev.1)) as Hnext by by apply handle_forgotten.
  assert (runAll_resume ev.2 (Awaiting x rest) (handle s0 ev.1)
          = (handle s0 ev.1, Awaiting x rest)) as ->.
  { destruct Hnext as [Habs _]. unfold runAll_resume, resolves.
    by rewrite find_has_id_absent. }
  by apply IH.
Qed.

Lemma runAllPhases_waits_forever_for_a_removed_phase_witness :
  (fold_left handle_under_runAll
     (replicate 60 (IntervalFires 2 sample_clock, sample_clock))
     (handle_under_runAll (runAllPhases sample_clock sample_ab)
        (ClickRemove "a", sample_clock))).2
  = Awaiting "a" [sample_phase "b"].
Proof.
  assert (runAllPhases sample_clock sample_ab
          = (togglePhaseExecution "a" sample_clock sample_ab,
             Awaiting "a" [sample_phase "b"])) as -> by (vm_compute; reflexivity).
  rewrite (runAllPhases_waits_forever_for_a_removed_phase
             (togglePhaseExecution "a" sample_clock sample_ab) "a"
             [sample_phase "b"] sample_clock
             (replicate 60 (IntervalFires 2 sample_clock, sample_clock))).
  - reflexivity.
  - apply Forall_replicate. discriminate.
Defined.

(** ** Editing a description while the simulation runs *)

Lemma map_with_map {S A : Type} (f : A → S → A * S) (g : A → A)
    (arr : list A) (st : S) :
  (∀ x st', f (g x) st' = (g (f x st').1, (f x st').2)) →
  map_with f (map g arr) st
  = (map g (map_with f arr st).1, (map_with f arr st).2).
Proof.
  intros Hfg. revert st. induction arr as [|x rest IH]; intros st; [done|].
  cbn [map map_with]. rewrite Hfg. destruct (f x st) as [y st1]. cbn [fst snd].
  rewrite IH. by destruct (map_with f rest st1).
Qed.

Lemma toggle_phase_with_text (x newText y : string) (clk : Clock)
    (p : ExperimentPhase) (t : Timers) :
  toggle_phase y clk (if has_id x p then with_text newText p else p) t
  = (let q := (toggle_phase y clk p t).1 in
     if has_id x q then with_text newText q else q,
     (toggle_phase y clk p t).2).
Proof.
  unfold toggle_phase, has_id. cbn.
  destruct (bool_decide (id p = x)) eqn:Hx; cbn;
    destruct (bool_decide (id p = y)); cbn; rewrite ?Hx; try done;
    destruct (status p); cbn; by rewrite ?Hx.
Qed.

Lemma tick_phase_with_text (x newText : string) (cb : Interval) (clk : Clock)
    (p : ExperimentPhase) (t : Timers) :
  tick_phase cb clk (if has_id x p then with_text newText p else p) t
  = (let q := (tick_phase cb clk p t).1 in
     if has_id x q then with_text newText q else q,
     (tick_phase cb clk p t).2).
Proof.
  unfold tick_phase, has_id.
  destruct (bool_decide (id p = x)) eqn:Hx; cbn -[reaches_100 newProgress];
    destruct (bool_decide (id p = tick_id cb) && bool_decide (status p = running));
    cbn -[reaches_100 newProgress]; rewrite ?Hx; try done;
    destruct (reaches_100 (progress p) (progressIncrement cb));
    cbn -[reaches_100 newProgress]; by rewrite ?Hx.
Qed.

(** X13: Editing the description of a phase and the simulation do not get in
    each other's way: a toggle or a run of an interval gives the same
    state whether the edit comes before or after it, and the edit leaves
    the summary of the overall progress as it is. *)
Theorem text_edit_commutes_with_the_simulation (s : State) (x newText y : string)
    (clk : Clock) (h : positive) :
  togglePhaseExecution y clk (updatePhaseText x newText s)
  = updatePhaseText x newText (togglePhaseExecution y clk s)
  ∧ interval_fires h clk (updatePhaseText x newText s)
    = updatePhaseText x newText (interval_fires h clk s)
  ∧ overallExperimentProgress (experimentPhases (updatePhaseText x newText s))
    = overallExperimentProgress (experimentPhases s).
Proof.
  split_and!.
  - unfold togglePhaseExecution, updatePhaseText. cbn.
    rewrite (map_with_map _ (λ p, if has_id x p then with_text newText p else p))
      by (intros p t; apply toggle_phase_with_text).
    by destruct (map_with _ _ _).
  - unfold interval_fires. cbn [timers updatePhaseText set_experimentPhases].
    destruct (liveIntervals (timers s) !! h) as [cb|]; [|done].
    unfold tick, updatePhaseText. cbn.
    rewrite (map_with_map _ (λ p, if has_id x p then with_text newText p else p))
      by (intros p t; apply tick_phase_with_text).
    by destruct (map_with _ _ _).
  - unfold updatePhaseText. cbn [experimentPhases set_experimentPhases].
    set (g := λ p, if has_id x p then with_text newText p else p).
    assert (∀ p, progress (g p) = progress p ∧ status (g p) = status p) as Hg
      by (intros p; unfold g; by destruct (has_id x p)).
    destruct (experimentPhases s) as [|p rest]; [done|].
    unfold overallExperimentProgress.
    change (map g (p :: rest)) with (g p :: map g rest).
    cbv zeta. unfold length_number. rewrite !length_cons, !length_map.
    assert (∀ l acc,
              fold_left (λ sum phase, (sum + or_number (progress phase) 0)%float)
                (map g l) acc
              = fold_left (λ sum phase, (sum + or_number (progress phase) 0)%float)
                  l acc) as Hsum.
    { induction l as [|q l IH]; intros acc; [done|]. cbn [map fold_left].
      by rewrite (proj1 (Hg q)), IH. }
    assert (∀ l, length (filter (λ p, status p = completed) (map g l))
                 = length (filter (λ p, status p = completed) l)) as Hcount.
    { induction l as [|q l IH]; [done|]. cbn [map].
      rewrite !filter_cons, (proj2 (Hg q)). case_decide; cbn; by rewrite IH. }
    change (g p :: map g rest) with (map g (p :: rest)).
    by rewrite Hsum, Hcount.
Qed.

(** ** A drop undone by a removal *)

Lemma cancel_absent (x : string) (t : Timers) :
  phaseIntervals t !! x = None →
  delete_phaseInterval x (clearInterval (phaseIntervals t !! x) t) = t.
Proof.
  intros Hx. rewrite Hx. destruct t as [reg live next]. cbn in *.
  unfold delete_phaseInterval. cbn. by rewrite delete_id.
Qed.

(** X14: Removing the phase that a drop from the palette has just added puts
    the canvas back: in a reachable state the phases and the intervals are
    those from before the drop. *)
Theorem removePhase_undoes_canvas_drop (s : State) (uuid : string)
    (block : PaletteBlock) :
  reachable s →
  draggingItem s = Some (paletteItem block) →
  uuid ∉ map id (experimentPhases s) →
  experimentPhases (handleCanvasDrop uuid s) = experimentPhases s ++ [newPhase uuid block]
  ∧ experimentPhases (removePhase uuid (handleCanvasDrop uuid s)) = experimentPhases s
  ∧ timers (removePhase uuid (handleCanvasDrop uuid s)) = timers s.
Proof.
  intros Hs Hdrag Hfresh.
  destruct (reachable_well_formed s Hs) as (_ & (_ & Hkeys & _) & _).
  rewrite removePhase_phases, removePhase_timers.
  rewrite handleCanvasDrop_phases, handleCanvasDrop_timers, Hdrag.
  split_and!; [done| |].
  - rewrite filter_app, filter_absent by done.
    rewrite filter_cons_False by (cbn; tauto). by rewrite app_nil_r.
  - apply cancel_absent. destruct (phaseIntervals (timers s) !! uuid) as [h|] eqn:E;
      [|done]. destruct Hfresh. by eapply Hkeys.
Qed.

Lemma removePhase_undoes_canvas_drop_witness :
  experimentPhases
    (removePhase "d" (handleCanvasDrop "d" (handlePaletteDragStart sample_block sample_abc)))
  = experimentPhases (handlePaletteDragStart sample_block sample_abc).
Proof.
  apply (removePhase_undoes_canvas_drop
           (handlePaletteDragStart sample_block sample_abc) "d" sample_block).
  - exists (sample_abc_events ++ [PaletteDragStart sample_block]).
    split; [|reflexivity]. apply (bool_decide_unpack _). vm_compute. exact I.
  - reflexivity.
  - apply (bool_decide_unpack _). vm_compute. exact I.
Defined.

(** ** The two copies of the workbench *)

(** X15: The two copies of [handlePhaseDrop] differ only in the branch for a
    target that is not found again after the dragged phase has been taken
    out; that branch is never taken, and the copies reorder every array in
    the same way. *)
Theorem handlePhaseDrop_copies_agree (sourcePhaseId targetPhaseId : string)
    (currentPhases : list ExperimentPhase) :
  sourcePhaseId ≠ targetPhaseId →
  reorder_icon_variant sourcePhaseId targetPhaseId currentPhases
  = reorder sourcePhaseId targetPhaseId currentPhases
  ∧ ∀ i j,
      findIndex (has_id sourcePhaseId) currentPhases = Some i →
      findIndex (has_id targetPhaseId) currentPhases = Some j →
      is_Some (findIndex (has_id targetPhaseId) (splice_remove i currentPhases).2).
Proof.
  intros Hne. split; [by apply reorder_icon_variant_eq|].
  intros i j Hi Hj.
  destruct (reorder_found _ _ _ _ _ Hne Hi Hj)
    as (src & tgt & k & Hsrc & _ & Hk & _).
  rewrite (splice_remove_lookup _ _ _ Hsrc). by eexists.
Qed.

Lemma handlePhaseDrop_copies_agree_witness :
  map id (reorder_icon_variant "a" "c" (experimentPhases sample_abc))
  = ["b"; "a"; "c"].
Proof.
  rewrite (proj1 (handlePhaseDrop_copies_agree "a" "c" (experimentPhases sample_abc)
                    ltac:(discriminate))).
  reflexivity.
Defined.

(** ** Reordering while the simulation runs *)

Lemma findIndex_map_id (x : string) (g : ExperimentPhase → ExperimentPhase)
    (phases : list ExperimentPhase) :
  (∀ p, id (g p) = id p) →
  findIndex (has_id x) (map g phases) = findIndex (has_id x) phases.
Proof.
  intros Hg. induction phases as [|p rest IH]; [done|]. cbn.
  unfold has_id at 1 3. by rewrite Hg, IH.
Qed.

Lemma reorder_map (sourcePhaseId targetPhaseId : string)
    (g : ExperimentPhase → ExperimentPhase) (phases : list ExperimentPhase) :
  (∀ p, id (g p) = id p) →
  reorder sourcePhaseId targetPhaseId (map g phases)
  = map g (reorder sourcePhaseId targetPhaseId phases).
Proof.
  intros Hg. unfold reorder. rewrite !findIndex_map_id by done.
  destruct (findIndex (has_id sourcePhaseId) phases) as [i|] eqn:Hi; [|done].
  destruct (findIndex (has_id targetPhaseId) phases) as [j|] eqn:Hj; [|done].
  destruct (findIndex_Some _ _ _ Hi) as (src & Hsrc & _).
  assert (map g phases !! i = Some (g src)) as Hsrc'
    by by rewrite list_lookup_fmap, Hsrc.
  rewrite (splice_remove_lookup _ _ _ Hsrc), (splice_remove_lookup _ _ _ Hsrc').
  assert (delete i (map g phases) = map g (delete i phases)) as ->.
  { rewrite !delete_take_drop. by rewrite map_app, <- fmap_take, <- fmap_drop. }
  rewrite findIndex_map_id by done.
  destruct (findIndex (has_id targetPhaseId) (delete i phases)) as [k|].
  - unfold splice_insert. by rewrite map_app, <- fmap_take, <- fmap_drop.
  - by rewrite map_app.
Qed.

(** A callback of [map] that keeps ids and acts on the phases with one id
    only leaves the same intervals, in whatever order the phases are. *)
Lemma map_with_snd_Permutation
    (f : ExperimentPhase → Timers → ExperimentPhase * Timers) (x : string)
    (phases phases' : list ExperimentPhase) (t : Timers) :
  (∀ p t', id p ≠ x → f p t' = (p, t')) →
  NoDup (map id phases) → phases' ≡ₚ phases →
  (map_with f phases' t).2 = (map_with f phases t).2.
Proof.
  intros Hother Hnd Hperm.
  assert (NoDup (map id phases')) as Hnd' by by rewrite Hperm.
  destruct (decide (x ∈ map id phases)) as [Hin|Hout].
  - apply list_elem_of_fmap in Hin as (p & -> & Hp).
    pose proof Hp as [i Hi]%list_elem_of_lookup.
    assert (p ∈ phases') as Hp'.
    { rewrite Hperm. exact Hp. }
    apply list_elem_of_lookup in Hp' as [i' Hi'].
    rewrite (map_with_single f phases i p t Hi),
            (map_with_single f phases' i' p t Hi'); [done| |].
    + intros j q Hq Hne t'. apply Hother.
      first [ exact (NoDup_ids_other phases' _ _ _ _ Hnd' Hi' Hq Hne)
            | exact (NoDup_ids_other phases _ _ _ _ Hnd Hi Hq Hne) ].
    + intros j q Hq Hne t'. apply Hother.
      first [ exact (NoDup_ids_other phases' _ _ _ _ Hnd' Hi' Hq Hne)
            | exact (NoDup_ids_other phases _ _ _ _ Hnd Hi Hq Hne) ].
  - rewrite !map_with_unchanged; [done| |].
    + apply Forall_forall. intros p Hp t'. apply Hother. intros <-.
      apply Hout. by apply list_elem_of_fmap_2.
    + apply Forall_forall. intros p Hp t'. apply Hother. intros <-.
      apply Hout. rewrite <- Hperm. by apply list_elem_of_fmap_2.
Qed.

Lemma State_eq (s s' : State) :
  experimentPhases s = experimentPhases s' → draggingItem s = draggingItem s' →
  dragOverCanvas s = dragOverCanvas s' → dragOverPhaseId s = dragOverPhaseId s' →
  timers s = timers s' → s = s'.
Proof. destruct s, s'. cbn. by intros -> -> -> -> ->. Qed.

Lemma handlePhaseDrop_fields (targetPhaseId : string) (s : State) :
  draggingItem (handlePhaseDrop targetPhaseId s) = draggingItem s
  ∧ dragOverCanvas (handlePhaseDrop targetPhaseId s) = dragOverCanvas s.
Proof.
  unfold handlePhaseDrop. destruct (draggingItem s) as [[b|src d]|] eqn:E; [done| |done].
  by repeat case_decide.
Qed.

(** X16: Moving a phase to another place does not disturb the simulation: in
    a reachable state a drop on a phase and a run of an interval, or a
    toggle, give the same state in either order; the dragged phase keeps
    its progress, its status and its interval. *)
Theorem reordering_commutes_with_the_simulation (s : State)
    (targetPhaseId y : string) (clk : Clock) (h : positive) :
  reachable s →
  interval_fires h clk (handlePhaseDrop targetPhaseId s)
  = handlePhaseDrop targetPhaseId (interval_fires h clk s)
  ∧ togglePhaseExecution y clk (handlePhaseDrop targetPhaseId s)
    = handlePhaseDrop targetPhaseId (togglePhaseExecution y clk s).
Proof.
  intros Hs. destruct (reachable_well_formed s Hs) as ((Hnd & _) & _).
  pose proof (handlePhaseDrop_Permutation targetPhaseId s) as Hperm.
  pose proof (handlePhaseDrop_timers targetPhaseId s) as Htimers.
  destruct (handlePhaseDrop_fields targetPhaseId s) as [Hdrag Hcanvas].
  assert (∀ (f : ExperimentPhase → Timers → ExperimentPhase * Timers) x s1,
            (∀ p t', id p ≠ x → f p t' = (p, t')) →
            (∀ p t', id (f p t').1 = id p) →
            (∀ p t' t'', (f p t').1 = (f p t'').1) →
            (∀ s0, draggingItem (s1 s0) = draggingItem s0
                   ∧ dragOverCanvas (s1 s0) = dragOverCanvas s0
                   ∧ dragOverPhaseId (s1 s0) = dragOverPhaseId s0
                   ∧ experimentPhases (s1 s0)
                     = (map_with f (experimentPhases s0) (timers s0)).1
                   ∧ timers (s1 s0)
                     = (map_with f (experimentPhases s0) (timers s0)).2) →
            s1 (handlePhaseDrop targetPhaseId s)
            = handlePhaseDrop targetPhaseId (s1 s)) as Hcommute.
  { intros f x s1 Hother Hid Hfst Hs1.
    destruct (Hs1 s) as (Hd1 & Hc1 & Ho1 & Hp1 & Ht1).
    destruct (Hs1 (handlePhaseDrop targetPhaseId s)) as (Hd2 & Hc2 & Ho2 & Hp2 & Ht2).
    destruct (handlePhaseDrop_fields targetPhaseId (s1 s)) as [Hd3 Hc3].
    assert (∀ l t', (map_with f l t').1 = map (λ p, (f p (timers s)).1) l) as Hmap.
    { intros l t'. apply map_with_fst. intros p t''. apply Hfst. }
    rewrite Hmap in Hp1, Hp2.
    apply State_eq.
    - rewrite Hp2. unfold handlePhaseDrop. rewrite Hd1.
      destruct (draggingItem s) as [[b|src d]|] eqn:E; [by rewrite Hp1| |by rewrite Hp1].
      repeat case_decide; cbn; rewrite ?Hp1; try done.
      symmetry. apply reorder_map. intros p. apply Hid.
    - by rewrite Hd2, Hd3, Hdrag, Hd1.
    - by rewrite Hc2, Hc3, Hcanvas, Hc1.
    - rewrite Ho2. unfold handlePhaseDrop. rewrite Hd1.
      destruct (draggingItem s) as [[b|src d]|] eqn:E; [by rewrite Ho1| |by rewrite Ho1].
      by repeat case_decide.
    - rewrite Ht2, (handlePhaseDrop_timers targetPhaseId (s1 s)), Ht1, Htimers.
      by apply (map_with_snd_Permutation f x). }
  split.
  - unfold interval_fires. rewrite Htimers.
    destruct (liveIntervals (timers s) !! h) as [cb|]; [|done].
    apply (Hcommute (tick_phase cb clk) (tick_id cb) (tick cb clk)).
    + intros p t' Hne. apply tick_phase_other. by left.
    + intros p t'. apply tick_phase_id.
    + intros p t' t''. apply tick_phase_fst.
    + intros s0. unfold tick. by destruct (map_with _ _ _).
  - apply (Hcommute (toggle_phase y clk) y (togglePhaseExecution y clk)).
    + intros p t' Hne. by apply toggle_phase_other.
    + intros p t'. apply toggle_phase_id.
    + intros p t' t''. apply toggle_phase_fst.
    + intros s0. unfold togglePhaseExecution. by destruct (map_with _ _ _).
Qed.

Lemma reordering_commutes_with_the_simulation_witness :
  interval_fires 2 sample_clock
    (handlePhaseDrop "a" (handle sample_mixed (PhaseDragStart (sample_phase "c"))))
  = handlePhaseDrop "a"
      (interval_fires 2 sample_clock
         (handle sample_mixed (PhaseDragStart (sample_phase "c")))).
Proof.
  assert (reachable sample_mixed) as Hreach.
  { eexists. split; [|reflexivity].
    apply (bool_decide_unpack _). vm_compute. exact I. }
  assert (reachable (handle sample_mixed (PhaseDragStart (sample_phase "c"))))
    as Hreach' by (apply reachable_handle; [exact Hreach | exact I]).
  exact (proj1 (reordering_commutes_with_the_simulation _ "a" "b" sample_clock 2
                  Hreach')).
Defined.

(** ** The colours of a status *)

(** X17: The class that the markup builds from [getStatusColor] never gets its
    second colour: the second [replace] uses up the only [-500], so the
    third finds nothing to replace, and the gradient ends in a bare [to-]
    for every status but pending, whose colour has no [-500] at all. The
    statuses still get pairwise different classes. *)
Theorem status_gradient_has_no_end_colour (status : option PhaseStatus) :
  status_gradient status
  = replace_first "-500" "-600 to-"
      (replace_first "bg-" "bg-gradient-to-r from-" (getStatusColor status))
  ∧ status_gradient status
    = match status with
      | Some pending => "bg-gradient-to-r from-gray-400"
      | Some running => "bg-gradient-to-r from-blue-600 to- animate-pulse"
      | Some completed => "bg-gradient-to-r from-green-600 to-"
      | Some paused => "bg-gradient-to-r from-yellow-600 to-"
      | Some failed => "bg-gradient-to-r from-red-600 to-"
      | None => "bg-gradient-to-r from-gray-300"
      end
  ∧ ∀ other, status_gradient other = status_gradient status → other = status.
Proof.
  split_and!.
  - destruct status as [[]|]; vm_compute; reflexivity.
  - destruct status as [[]|]; vm_compute; reflexivity.
  - intros other. destruct status as [[]|], other as [[]|]; vm_compute;
      first [reflexivity | intros H; discriminate H].
Qed.

(** ** The fallbacks of a drop *)

(** X18: What a drop puts in for a missing default text or duration: a block
    with an empty default text gives the text New, its label and Phase
    (Step in the builder); an estimated duration of 0, -0 or NaN gives 10,
    and any other duration, a negative one too, is taken as it is. The
    duration of a new phase is therefore never zero and never NaN. *)
Theorem drop_fallbacks (uuid : string) :
  (∀ block : PaletteBlock,
     (defaultText block = "" →
      text (newPhase uuid block)
      = String.append "New " (String.append (block_label block) " Phase"))
     ∧ (is_zero (block_estimatedDuration block)
        || is_nan (block_estimatedDuration block) = true →
        estimatedDuration (newPhase uuid block) = 10%float)
     ∧ (is_zero (block_estimatedDuration block)
        || is_nan (block_estimatedDuration block) = false →
        estimatedDuration (newPhase uuid block) = block_estimatedDuration block)
     ∧ is_zero (estimatedDuration (newPhase uuid block))
       || is_nan (estimatedDuration (newPhase uuid block)) = false)
  ∧ (∀ block : WorkflowBuilder.WorkflowBlock,
       (WorkflowBuilder.defaultText block = "" →
        WorkflowBuilder.text (WorkflowBuilder.newStep uuid block)
        = String.append "New "
            (String.append (WorkflowBuilder.block_label block) " Step"))
       ∧ (WorkflowBuilder.defaultText block ≠ "" →
          WorkflowBuilder.text (WorkflowBuilder.newStep uuid block)
          = WorkflowBuilder.defaultText block)).
Proof.
  split.
  - intros block. cbn [text estimatedDuration newPhase].
    unfold or_string, or_number. split_and!.
    + by intros ->.
    + by intros ->.
    + by intros ->.
    + by destruct (is_zero (block_estimatedDuration block)
                   || is_nan (block_estimatedDuration block)) eqn:E.
  - intros block. cbn. unfold or_string. split.
    + by intros ->.
    + intros Hne. by rewrite decide_False.
Qed.

(** ** The summary of a reachable canvas *)

Lemma filter_length_ext {A : Type} (P Q : A → Prop) `{∀ x, Decision (P x)}
    `{∀ x, Decision (Q x)} (l : list A) :
  Forall (λ x, P x ↔ Q x) l → length (filter P l) = length (filter Q l).
Proof.
  induction 1 as [|x l Hx _ IH]; [done|].
  rewrite !filter_cons. do 2 case_decide; cbn; first [by rewrite IH | tauto].
Qed.

(** X19: On a reachable canvas the summary follows the progress alone: the
    number of completed phases is the number of phases at 100, the
    experiment is complete exactly when there is a phase and all are at
    100, [phase.progress || 0] never replaces a progress, and the average
    is the rounded mean of the stored progresses. *)
Theorem summary_of_a_reachable_canvas (s : State) :
  reachable s →
  let phases := experimentPhases s in
  let summary := overallExperimentProgress phases in
  completedCount summary = length (filter (λ p, progress p = 100%float) phases)
  ∧ (completedCount summary ≤ totalCount summary)%nat
  ∧ (isComplete summary = true
     ↔ phases ≠ [] ∧ Forall (λ p, progress p = 100%float) phases)
  ∧ Forall (λ p, or_number (progress p) 0 = progress p) phases
  ∧ (phases ≠ [] → averageProgress summary = Math_round (mean_in_doubles phases)).
Proof.
  intros Hs phases summary.
  destruct (reachable_well_formed s Hs) as ((_ & _ & Hfull) & _).
  fold phases in Hfull.
  assert (Forall (λ p, or_number (progress p) 0 = progress p) phases) as Hnum.
  { apply Forall_forall. intros p Hp. by apply (reachable_progress s). }
  assert (completedCount summary
          = length (filter (λ p, status p = completed) phases)) as Hcount
    by (unfold summary; by destruct phases).
  assert (totalCount summary = length phases) as Htotal
    by (unfold summary; by destruct phases).
  assert (length (filter (λ p, status p = completed) phases)
          = length (filter (λ p, progress p = 100%float) phases)) as Heq.
  { apply filter_length_ext. eapply Forall_impl; [exact Hfull|].
    intros p Hp. by symmetry. }
  split_and!.
  - by rewrite Hcount.
  - rewrite Hcount, Htotal. apply length_filter.
  - destruct phases as [|p rest] eqn:E.
    { split; [done | by intros [? _]]. }
    destruct (overallExperimentProgress_cons p rest) as (_ & _ & _ & Hcomplete).
    unfold summary. rewrite Hcomplete, completed_count_all. split.
    + intros [_ Hall]. split; [done|].
      assert (Forall (λ q, status q = completed ∧ full_iff_completed q) (p :: rest))
        as Hboth by by apply Forall_and.
      eapply Forall_impl; [exact Hboth|]. intros q [Hq Hfq]. by apply Hfq.
    + intros [_ Hall]. split; [cbn; lia|].
      assert (Forall (λ q, progress q = 100%float ∧ full_iff_completed q) (p :: rest))
        as Hboth by by apply Forall_and.
      eapply Forall_impl; [exact Hboth|]. intros q [Hq Hfq]. by apply Hfq.
  - done.
  - intros Hne. destruct phases as [|p rest] eqn:E; [done|].
    destruct (overallExperimentProgress_cons p rest) as (Havg & _).
    unfold summary. rewrite Havg. unfold mean_in_doubles.
    by rewrite totalProgress_fold.
Qed.

Lemma summary_of_a_reachable_canvas_witness :
  completedCount (overallExperimentProgress (experimentPhases sample_mixed))
  = length (filter (λ p, progress p = 100%float) (experimentPhases sample_mixed)).
Proof.
  apply (summary_of_a_reachable_canvas sample_mixed).
  eexists. split; [|reflexivity].
  apply (bool_decide_unpack _). vm_compute. exact I.
Defined.

(** ** Moving an element to an index found before its removal *)

Section SpliceMove.
Context {A : Type}.

Lemma splice_insert_Permutation (arr : list A) (j : nat) (x : A) :
  splice_insert j x arr ≡ₚ x :: arr.
Proof.
  unfold splice_insert. rewrite <- Permutation_middle. by rewrite take_drop.
Qed.

Lemma splice_move_Permutation (arr : list A) (i j : nat) (x : A) :
  arr !! i = Some x → splice_insert j x (delete i arr) ≡ₚ arr.
Proof.
  intros Hx. rewrite splice_insert_Permutation.
  symmetry. by apply delete_Permutation.
Qed.

Lemma splice_move_lookup (arr : list A) (i j : nat) (x : A) :
  arr !! i = Some x → j < length arr →
  splice_insert j x (delete i arr) !! j = Some x.
Proof.
  intros Hx Hj. unfold splice_insert.
  assert (length (delete i arr) = length arr - 1) as Hlen.
  { rewrite length_delete; [lia|]. by eexists. }
  rewrite lookup_app_r by (rewrite length_take; lia).
  rewrite length_take. by replace (j - j `min` length (delete i arr)) with 0 by lia.
Qed.

Lemma splice_move_delete (arr : list A) (i j : nat) (x : A) :
  arr !! i = Some x → j < length arr →
  delete j (splice_insert j x (delete i arr)) = delete i arr.
Proof.
  intros Hx Hj. unfold splice_insert.
  assert (length (delete i arr) = length arr - 1) as Hlen.
  { rewrite length_delete; [lia|]. by eexists. }
  pose proof (delete_middle (take j (delete i arr)) (drop j (delete i arr)) x) as H.
  rewrite length_take, Nat.min_l in H by lia. by rewrite H, take_drop.
Qed.

(** The element that was at the insertion index: one place before the
    moved element when that came from before it, one place after when it
    came from after it. *)
Lemma splice_move_target_before (arr : list A) (i j : nat) (x y : A) :
  arr !! i = Some x → arr !! j = Some y → i < j →
  splice_insert j x (delete i arr) !! (j - 1) = Some y.
Proof.
  intros Hx Hy Hij. unfold splice_insert.
  assert (j < length arr) as Hj by by eapply lookup_lt_Some.
  assert (length (delete i arr) = length arr - 1) as Hlen.
  { rewrite length_delete; [lia|]. by eexists. }
  rewrite lookup_app_l by (rewrite length_take; lia).
  rewrite lookup_take_lt by lia. rewrite list_lookup_delete_ge by lia.
  by replace (S (j - 1)) with j by lia.
Qed.

Lemma splice_move_target_after (arr : list A) (i j : nat) (x y : A) :
  arr !! i = Some x → arr !! j = Some y → j < i →
  splice_insert j x (delete i arr) !! (S j) = Some y.
Proof.
  intros Hx Hy Hij. unfold splice_insert.
  assert (i < length arr) as Hi by by eapply lookup_lt_Some.
  assert (length (delete i arr) = length arr - 1) as Hlen.
  { rewrite length_delete; [lia|]. by eexists. }
  rewrite lookup_app_r by (rewrite length_take; lia).
  rewrite length_take, Nat.min_l by lia.
  replace (S j - j) with 1 by lia.
  change (drop j (delete i arr) !! 0 = Some y).
  rewrite lookup_drop, Nat.add_0_r. by rewrite list_lookup_delete_lt by lia.
Qed.

End SpliceMove.

(** ** The builder: where a dragged step lands *)

Lemma WorkflowBuilder_reorder_found (sourceItemId targetItemId : string)
    (currentSteps : list WorkflowBuilder.WorkflowStep) (i j : nat) :
  findIndex (WorkflowBuilder.has_id sourceItemId) currentSteps = Some i →
  findIndex (WorkflowBuilder.has_id targetItemId) currentSteps = Some j →
  ∃ x y,
    currentSteps !! i = Some x ∧ WorkflowBuilder.id x = sourceItemId
    ∧ currentSteps !! j = Some y ∧ WorkflowBuilder.id y = targetItemId
    ∧ WorkflowBuilder.reorder sourceItemId targetItemId currentSteps
      = splice_insert j x (delete i currentSteps).
Proof.
  intros Hi Hj.
  destruct (findIndex_Some _ _ _ Hi) as (x & Hx & Hxid & _).
  destruct (findIndex_Some _ _ _ Hj) as (y & Hy & Hyid & _).
  apply WorkflowBuilder_has_id_true in Hxid, Hyid.
  exists x, y. split_and!; [done..|].
  unfold WorkflowBuilder.reorder. by rewrite Hi, Hj, (splice_remove_lookup _ _ _ Hx).
Qed.

Lemma WorkflowBuilder_reorder_Permutation (sourceItemId targetItemId : string)
    (currentSteps : list WorkflowBuilder.WorkflowStep) :
  WorkflowBuilder.reorder sourceItemId targetItemId currentSteps ≡ₚ currentSteps.
Proof.
  destruct (findIndex (WorkflowBuilder.has_id sourceItemId) currentSteps)
    as [i|] eqn:Hi; [|by unfold WorkflowBuilder.reorder; rewrite Hi].
  destruct (findIndex (WorkflowBuilder.has_id targetItemId) currentSteps)
    as [j|] eqn:Hj; [|by unfold WorkflowBuilder.reorder; rewrite Hi, Hj].
  destruct (WorkflowBuilder_reorder_found _ _ _ _ _ Hi Hj)
    as (x & y & Hx & _ & _ & _ & ->).
  by apply splice_move_Permutation.
Qed.

(** X20: In the builder a dropped step is put at the index its target had
    before the step was taken out: the steps are the same ones and the
    others keep their order, but the step lands right after the target
    when it came from above it, and right before the target only when it
    came from below. *)
Theorem handleWorkflowItemDrop_lands_at_old_index (s : WorkflowBuilder.State)
    (sourceItemId targetItemId : string) (data : WorkflowBuilder.WorkflowStep)
    (i j : nat) :
  WorkflowBuilder.draggingItem s
  = Some (WorkflowBuilder.workflowItem sourceItemId data) →
  sourceItemId ≠ "" →
  sourceItemId ≠ targetItemId →
  findIndex (WorkflowBuilder.has_id sourceItemId) (WorkflowBuilder.workflowSteps s)
  = Some i →
  findIndex (WorkflowBuilder.has_id targetItemId) (WorkflowBuilder.workflowSteps s)
  = Some j →
  let steps := WorkflowBuilder.workflowSteps s in
  let steps' :=
    WorkflowBuilder.workflowSteps
      (WorkflowBuilder.handleWorkflowItemDrop targetItemId s) in
  steps' ≡ₚ steps
  ∧ ∃ dragged target,
      steps !! i = Some dragged ∧ WorkflowBuilder.id dragged = sourceItemId
      ∧ steps !! j = Some target ∧ WorkflowBuilder.id target = targetItemId
      ∧ steps' !! j = Some dragged
      ∧ delete j steps' = delete i steps
      ∧ (i < j → steps' !! (j - 1) = Some target)
      ∧ (j < i → steps' !! S j = Some target).
Proof.
  intros Hdrag Hnonempty Hne Hi Hj steps steps'.
  assert (steps' = WorkflowBuilder.reorder sourceItemId targetItemId steps) as ->.
  { unfold steps', WorkflowBuilder.handleWorkflowItemDrop. rewrite Hdrag.
    rewrite decide_False by done. cbn. by rewrite decide_False. }
  split; [apply WorkflowBuilder_reorder_Permutation|].
  destruct (WorkflowBuilder_reorder_found _ _ _ _ _ Hi Hj)
    as (x & y & Hx & Hxid & Hy & Hyid & Hre).
  fold steps in Hx, Hy, Hre. rewrite Hre.
  assert (j < length steps) as Hlen by by eapply lookup_lt_Some.
  exists x, y. split_and!; [done..| | | |].
  - by apply splice_move_lookup.
  - by apply splice_move_delete.
  - intros Hij. by apply splice_move_target_before.
  - intros Hij. by apply splice_move_target_after.
Qed.

Lemma handleWorkflowItemDrop_lands_at_old_index_witness :
  WorkflowBuilder.workflowSteps
    (WorkflowBuilder.handleWorkflowItemDrop "c" sample_builder) !! 1
  = Some (sample_step "c")
  ∧ WorkflowBuilder.workflowSteps
      (WorkflowBuilder.handleWorkflowItemDrop "c" sample_builder) !! 2
    = Some (sample_step "a").
Proof.
  destruct (handleWorkflowItemDrop_lands_at_old_index sample_builder "a" "c"
              (sample_step "a") 0 2)
    as (_ & dragged & target & Hd & _ & Ht & _ & Hat & _ & Hbefore & _);
    [reflexivity | done | done | reflexivity | reflexivity |].
  injection Hd as <-. injection Ht as <-.
  split; [apply Hbefore; lia | exact Hat].
Defined.

(** ** The builder: removing and editing steps *)

Lemma WorkflowBuilder_with_text_id (stepId newText : string)
    (step : WorkflowBuilder.WorkflowStep) :
  WorkflowBuilder.id
    (if WorkflowBuilder.has_id stepId step
     then WorkflowBuilder.with_text newText step else step)
  = WorkflowBuilder.id step.
Proof. by destruct (WorkflowBuilder.has_id _ _). Qed.

(** X21: How removals and edits of the builder compose: the last edit of a step
    wins, edits of different steps and removals commute, a removal
    discards an earlier edit of the step and leaves nothing to edit or to
    remove again, and no edit changes an id or the number of steps. *)
Theorem WorkflowBuilder_remove_and_edit_laws (s : WorkflowBuilder.State)
    (x y t1 t2 : string) :
  WorkflowBuilder.updateStepText x t2 (WorkflowBuilder.updateStepText x t1 s)
  = WorkflowBuilder.updateStepText x t2 s
  ∧ (x ≠ y →
     WorkflowBuilder.updateStepText x t1 (WorkflowBuilder.updateStepText y t2 s)
     = WorkflowBuilder.updateStepText y t2 (WorkflowBuilder.updateStepText x t1 s))
  ∧ WorkflowBuilder.removeStep x (WorkflowBuilder.updateStepText x t1 s)
    = WorkflowBuilder.removeStep x s
  ∧ WorkflowBuilder.updateStepText x t1 (WorkflowBuilder.removeStep x s)
    = WorkflowBuilder.removeStep x s
  ∧ WorkflowBuilder.removeStep x (WorkflowBuilder.removeStep x s)
    = WorkflowBuilder.removeStep x s
  ∧ WorkflowBuilder.removeStep x (WorkflowBuilder.removeStep y s)
    = WorkflowBuilder.removeStep y (WorkflowBuilder.removeStep x s)
  ∧ map WorkflowBuilder.id
      (WorkflowBuilder.workflowSteps (WorkflowBuilder.updateStepText x t1 s))
    = map WorkflowBuilder.id (WorkflowBuilder.workflowSteps s)
  ∧ x ∉ map WorkflowBuilder.id
          (WorkflowBuilder.workflowSteps (WorkflowBuilder.removeStep x s)).
Proof.
  unfold WorkflowBuilder.updateStepText, WorkflowBuilder.removeStep,
    WorkflowBuilder.set_workflowSteps. cbn.
  set (steps := WorkflowBuilder.workflowSteps s).
  split_and!.
  - f_equal. rewrite map_map. apply map_ext. intros step.
    unfold WorkflowBuilder.has_id. by repeat (case_bool_decide; cbn).
  - intros Hxy. f_equal. rewrite !map_map. apply map_ext. intros step.
    unfold WorkflowBuilder.has_id.
    repeat (case_bool_decide; cbn in *); congruence.
  - f_equal. induction steps as [|step rest IH]; [done|]. cbn [map].
    rewrite !filter_cons, IH. unfold WorkflowBuilder.has_id.
    case_bool_decide; cbn; by repeat case_decide.
  - f_equal. induction steps as [|step rest IH]; [done|].
    rewrite filter_cons. case_decide as Hstep; [|done]. cbn [map].
    rewrite IH. unfold WorkflowBuilder.has_id. by rewrite bool_decide_eq_false_2.
  - f_equal. induction steps as [|step rest IH]; [done|].
    rewrite filter_cons. case_decide as Hstep; [|done].
    by rewrite filter_cons_True, IH.
  - f_equal. induction steps as [|step rest IH]; [done|].
    rewrite !filter_cons.
    repeat (case_decide; rewrite ?filter_cons_True, ?filter_cons_False by tauto);
      by rewrite IH.
  - rewrite map_map. apply map_ext. intros step.
    apply WorkflowBuilder_with_text_id.
  - intros (step & Hid & [Hne _]%list_elem_of_filter)%list_elem_of_fmap. done.
Qed.

(** ** The builder: what every sequence of gestures keeps *)

Lemma WorkflowBuilder_handleWorkflowItemDrop_Permutation (targetItemId : string)
    (s : WorkflowBuilder.State) :
  WorkflowBuilder.workflowSteps (WorkflowBuilder.handleWorkflowItemDrop targetItemId s)
  ≡ₚ WorkflowBuilder.workflowSteps s.
Proof.
  unfold WorkflowBuilder.handleWorkflowItemDrop.
  destruct (WorkflowBuilder.draggingItem s) as [[|src data]|]; [done| |done].
  case_decide; [done|]. cbn. case_decide; [done|].
  apply WorkflowBuilder_reorder_Permutation.
Qed.

Lemma WorkflowBuilder_handle_NoDup (s : WorkflowBuilder.State)
    (ev : WorkflowBuilder.Event) :
  WorkflowBuilder.valid_event s ev →
  NoDup (map WorkflowBuilder.id (WorkflowBuilder.workflowSteps s)) →
  NoDup (map WorkflowBuilder.id
           (WorkflowBuilder.workflowSteps (WorkflowBuilder.handle s ev))).
Proof.
  intros Hev Hnd. destruct ev; cbn [WorkflowBuilder.handle]; try done.
  - unfold WorkflowBuilder.handleCanvasDragLeave. by destruct targetIsCanvas.
  - unfold WorkflowBuilder.handleCanvasDrop. cbn.
    destruct (WorkflowBuilder.draggingItem s) as [[block|]|]; [|done..].
    rewrite map_app. apply NoDup_app. split_and!; [done | | apply NoDup_singleton].
    intros x Hx. cbn. rewrite list_elem_of_singleton. by intros ->.
  - unfold WorkflowBuilder.handleWorkflowItemDragEnter.
    destruct (WorkflowBuilder.draggingItem s) as [[|]|]; [done| |done].
    by case_decide.
  - unfold WorkflowBuilder.handleWorkflowItemDragLeave. by case_decide.
  - by rewrite WorkflowBuilder_handleWorkflowItemDrop_Permutation.
  - cbn. eapply sublist_NoDup; [done|]. apply fmap_sublist, sublist_filter.
  - cbn. rewrite map_map.
    erewrite map_ext; [done|]. intros step. apply WorkflowBuilder_with_text_id.
Qed.

(** X22: With the fresh ids of [uuidv7], the steps of the builder carry
    pairwise different ids after any sequence of gestures: no drop,
    reordering, removal or edit duplicates a step. *)
Theorem WorkflowBuilder_ids_stay_distinct (evs : list WorkflowBuilder.Event) :
  WorkflowBuilder.valid_trace WorkflowBuilder.initial evs →
  NoDup (map WorkflowBuilder.id (WorkflowBuilder.workflowSteps (WorkflowBuilder.run evs))).
Proof.
  unfold WorkflowBuilder.run.
  assert (NoDup (map WorkflowBuilder.id
                   (WorkflowBuilder.workflowSteps WorkflowBuilder.initial)))
    as Hinit by constructor.
  revert Hinit. generalize WorkflowBuilder.initial.
  induction evs as [|ev evs IH]; intros s Hs Hv; [done|].
  destruct Hv as [Hev Hv]. cbn [fold_left].
  apply IH; [by apply WorkflowBuilder_handle_NoDup | done].
Qed.

(** X23: A step of the builder is ringed as drop target only while another
    step is being dragged: never the dragged step itself, and none while a
    block of the palette or nothing is dragged. *)
Theorem WorkflowBuilder_ring_never_on_dragged_step
    (evs : list WorkflowBuilder.Event) (x : string) :
  WorkflowBuilder.dragOverWorkflowItemId (WorkflowBuilder.run evs) = Some x →
  ∃ sourceItemId data,
    WorkflowBuilder.draggingItem (WorkflowBuilder.run evs)
    = Some (WorkflowBuilder.workflowItem sourceItemId data)
    ∧ sourceItemId ≠ x.
Proof.
  unfold WorkflowBuilder.run.
  set (Inv := λ s : WorkflowBuilder.State,
         ∀ x, WorkflowBuilder.dragOverWorkflowItemId s = Some x →
              ∃ sourceItemId data,
                WorkflowBuilder.draggingItem s
                = Some (WorkflowBuilder.workflowItem sourceItemId data)
                ∧ sourceItemId ≠ x).
  assert (Inv WorkflowBuilder.initial) as Hinit by (intros y; done).
  assert (∀ s ev, Inv s → Inv (WorkflowBuilder.handle s ev)) as Hstep.
  { intros s ev Hs. destruct ev; cbn [WorkflowBuilder.handle]; try done.
    - unfold WorkflowBuilder.handleCanvasDragLeave. by destruct targetIsCanvas.
    - unfold WorkflowBuilder.handleWorkflowItemDragEnter.
      destruct (WorkflowBuilder.draggingItem s) as [[|src data]|] eqn:E; [done| |done].
      case_decide; [done|]. intros y [= <-]. cbn. rewrite E. by eexists _, _.
    - unfold WorkflowBuilder.handleWorkflowItemDragLeave. by case_decide.
    - unfold WorkflowBuilder.handleWorkflowItemDrop.
      destruct (WorkflowBuilder.draggingItem s) as [[|src data]|]; [done| |done].
      by case_decide. }
  revert Hinit. generalize WorkflowBuilder.initial.
  induction evs as [|ev evs IH]; intros s Hs; [by apply Hs|].
  cbn [fold_left]. by apply IH, Hstep.
Qed.

Lemma WorkflowBuilder_ids_stay_distinct_witness :
  NoDup (map WorkflowBuilder.id
           (WorkflowBuilder.workflowSteps (WorkflowBuilder.run sample_builder_events))).
Proof.
  apply WorkflowBuilder_ids_stay_distinct.
  cbn. split_and!; try done; apply (bool_decide_unpack _); vm_compute; exact I.
Defined.

Lemma WorkflowBuilder_ring_never_on_dragged_step_witness :
  ∃ sourceItemId data,
    WorkflowBuilder.draggingItem
      (WorkflowBuilder.run (take 7 sample_builder_events))
    = Some (WorkflowBuilder.workflowItem sourceItemId data)
    ∧ sourceItemId ≠ "c".
Proof.
  apply (WorkflowBuilder_ring_never_on_dragged_step (take 7 sample_builder_events) "c").
  reflexivity.
Defined.

(** ** The list of draggable items *)

Lemma DraggableList_has_id_true (x : Z) (item : DraggableList.Item) :
  DraggableList.has_id x item = true ↔ DraggableList.id item = x.
Proof. unfold DraggableList.has_id. by rewrite bool_decide_eq_true. Qed.

Lemma DraggableList_reorder_found (sourceItemId targetItemId : Z)
    (currentItems : list DraggableList.Item) (i j : nat) :
  findIndex (DraggableList.has_id sourceItemId) currentItems = Some i →
  findIndex (DraggableList.has_id targetItemId) currentItems = Some j →
  ∃ x y,
    currentItems !! i = Some x ∧ DraggableList.id x = sourceItemId
    ∧ currentItems !! j = Some y ∧ DraggableList.id y = targetItemId
    ∧ DraggableList.reorder sourceItemId targetItemId currentItems
      = splice_insert j x (delete i currentItems).
Proof.
  intros Hi Hj.
  destruct (findIndex_Some _ _ _ Hi) as (x & Hx & Hxid & _).
  destruct (findIndex_Some _ _ _ Hj) as (y & Hy & Hyid & _).
  apply DraggableList_has_id_true in Hxid, Hyid.
  exists x, y. split_and!; [done..|].
  unfold DraggableList.reorder. by rewrite Hi, Hj, (splice_remove_lookup _ _ _ Hx).
Qed.

Lemma DraggableList_reorder_Permutation (sourceItemId targetItemId : Z)
    (currentItems : list DraggableList.Item) :
  DraggableList.reorder sourceItemId targetItemId currentItems ≡ₚ currentItems.
Proof.
  destruct (findIndex (DraggableList.has_id sourceItemId) currentItems)
    as [i|] eqn:Hi; [|by unfold DraggableList.reorder; rewrite Hi].
  destruct (findIndex (DraggableList.has_id targetItemId) currentItems)
    as [j|] eqn:Hj; [|by unfold DraggableList.reorder; rewrite Hi, Hj].
  destruct (DraggableList_reorder_found _ _ _ _ _ Hi Hj)
    as (x & y & Hx & _ & _ & _ & ->).
  by apply splice_move_Permutation.
Qed.

Lemma DraggableList_handle_Permutation (s : DraggableList.State)
    (ev : DraggableList.Event) :
  DraggableList.items (DraggableList.handle s ev) ≡ₚ DraggableList.items s.
Proof.
  destruct ev; cbn [DraggableList.handle]; try done.
  - unfold DraggableList.handleDragEnter. by case_decide.
  - unfold DraggableList.handleDragLeave. by case_decide.
  - unfold DraggableList.handleDrop. cbn.
    destruct (DraggableList.draggingItemId s) as [src|]; [|done].
    case_decide; [done|]. apply DraggableList_reorder_Permutation.
Qed.

Lemma DraggableList_handle_ring (s : DraggableList.State)
    (ev : DraggableList.Event) :
  (∀ x, DraggableList.dragOverItemId s = Some x →
        DraggableList.draggingItemId s ≠ Some x) →
  ∀ x, DraggableList.dragOverItemId (DraggableList.handle s ev) = Some x →
       DraggableList.draggingItemId (DraggableList.handle s ev) ≠ Some x.
Proof.
  intros Hs. destruct ev; cbn [DraggableList.handle]; try done.
  - unfold DraggableList.handleDragEnter. case_decide as Hd; [done|].
    intros y [= <-]. done.
  - unfold DraggableList.handleDragLeave. by case_decide.
Qed.

(** X24: After any sequence of gestures the list holds the six items it
    started with, each once, in some order; the ring that marks the drop
    target is never on the dragged item; and a drop, like the end of a
    drag, leaves no drag state behind. *)
Theorem DraggableList_same_items_in_some_order (evs : list DraggableList.Event) :
  DraggableList.items (DraggableList.run evs) ≡ₚ DraggableList.initial_items
  ∧ length (DraggableList.items (DraggableList.run evs)) = 6
  ∧ NoDup (map DraggableList.id (DraggableList.items (DraggableList.run evs)))
  ∧ (∀ x, DraggableList.dragOverItemId (DraggableList.run evs) = Some x →
          DraggableList.draggingItemId (DraggableList.run evs) ≠ Some x)
  ∧ (∀ x,
       DraggableList.draggingItemId
         (DraggableList.handleDrop x (DraggableList.run evs)) = None
       ∧ DraggableList.dragOverItemId
           (DraggableList.handleDrop x (DraggableList.run evs)) = None).
Proof.
  assert (DraggableList.items (DraggableList.run evs)
          ≡ₚ DraggableList.initial_items) as Hperm.
  { unfold DraggableList.run.
    change DraggableList.initial_items
      with (DraggableList.items DraggableList.initial).
    generalize DraggableList.initial.
    induction evs as [|ev evs IH]; intros s0; [done|].
    cbn [fold_left]. rewrite IH. apply DraggableList_handle_Permutation. }
  split; [done|]. split; [by rewrite Hperm|]. split.
  { rewrite Hperm. apply (bool_decide_unpack _). vm_compute. exact I. }
  split; [|done]. clear Hperm. unfold DraggableList.run.
  assert (∀ x, DraggableList.dragOverItemId DraggableList.initial = Some x →
               DraggableList.draggingItemId DraggableList.initial ≠ Some x)
    as Hinit by done.
  revert Hinit. generalize DraggableList.initial.
  induction evs as [|ev evs IH]; intros s0 Hs; [done|].
  cbn [fold_left]. by apply IH, DraggableList_handle_ring.
Qed.

(** X25: A dropped item of the list is put at the index its target had before
    the item was taken out: right after the target when it came from above
    it, right before the target when it came from below; the others keep
    their order. *)
Theorem DraggableList_drop_lands_at_old_index (s : DraggableList.State)
    (sourceItemId targetItemId : Z) (i j : nat) :
  DraggableList.draggingItemId s = Some sourceItemId →
  sourceItemId ≠ targetItemId →
  findIndex (DraggableList.has_id sourceItemId) (DraggableList.items s) = Some i →
  findIndex (DraggableList.has_id targetItemId) (DraggableList.items s) = Some j →
  let items := DraggableList.items s in
  let items' := DraggableList.items (DraggableList.handleDrop targetItemId s) in
  ∃ dragged target,
    items !! i = Some dragged ∧ DraggableList.id dragged = sourceItemId
    ∧ items !! j = Some target ∧ DraggableList.id target = targetItemId
    ∧ items' !! j = Some dragged
    ∧ delete j items' = delete i items
    ∧ (i < j → items' !! (j - 1) = Some target)
    ∧ (j < i → items' !! S j = Some target).
Proof.
  intros Hdrag Hne Hi Hj items items'.
  assert (items' = DraggableList.reorder sourceItemId targetItemId items) as ->.
  { unfold items', DraggableList.handleDrop. cbn. rewrite Hdrag.
    by rewrite decide_False. }
  destruct (DraggableList_reorder_found _ _ _ _ _ Hi Hj)
    as (x & y & Hx & Hxid & Hy & Hyid & Hre).
  fold items in Hx, Hy, Hre. rewrite Hre.
  assert (j < length items) as Hlen by by eapply lookup_lt_Some.
  exists x, y. split_and!; [done..| | | |].
  - by apply splice_move_lookup.
  - by apply splice_move_delete.
  - intros Hij. by apply splice_move_target_before.
  - intros Hij. by apply splice_move_target_after.
Qed.

Lemma DraggableList_drop_lands_at_old_index_witness :
  map DraggableList.id
    (DraggableList.items
       (DraggableList.handleDrop 3
          (DraggableList.handleDragStart 1 DraggableList.initial)))
  = [2; 3; 1; 4; 5; 6]%Z
  ∧ ∃ target,
      DraggableList.id target = 3%Z
      ∧ DraggableList.items
          (DraggableList.handleDrop 3
             (DraggableList.handleDragStart 1 DraggableList.initial)) !! 1
        = Some target.
Proof.
  split; [reflexivity|].
  destruct (DraggableList_drop_lands_at_old_index
              (DraggableList.handleDragStart 1 DraggableList.initial) 1 3 0 2)
    as (dragged & target & _ & _ & _ & Ht & _ & _ & Hbefore & _);
    [reflexivity | done | reflexivity | reflexivity |].
  exists target. split; [done|]. apply Hbefore. lia.
Defined.
